(** * Open transaction lock script: a shallow embedding of
      [src/c/open_transaction.c] and the properties of its verifier.

    The C program is one [main] that loads the first witness of the script
    group, hashes the group inputs, interprets a sighash coverage array,
    hashes the witnesses and checks a recoverable secp256k1 signature
    against the script arguments.  The embedding keeps the program's
    functions and the order of its statements; loops become fixpoints with
    an explicit iteration bound, and an early [return] of [main] becomes the
    [Return] outcome. *)

From Stdlib Require Import ZArith List Bool Lia.
Import ListNotations.
Local Open Scope Z_scope.

(** ** Constants of the program (lines 12-65) *)

Definition BLAKE2B_BLOCK_SIZE : Z := 32.
Definition BLAKE160_SIZE : Z := 20.
Definition PUBKEY_SIZE : Z := 33.
Definition RECID_INDEX : Z := 64.
Definition SIGNATURE_SIZE : Z := 65.
Definition WITNESS_SIZE : Z := 32768.
Definition SCRIPT_SIZE : Z := 32768.
Definition ONE_BATCH_SIZE : Z := 16384.
Definition INPUT_SIZE : Z := 4096.

Definition ERROR_ARGUMENTS_LEN : Z := -1.
Definition ERROR_ENCODING : Z := -2.
Definition ERROR_SYSCALL : Z := -3.
Definition ERROR_SECP_RECOVER_PUBKEY : Z := -11.
Definition ERROR_SECP_VERIFICATION : Z := -12.
Definition ERROR_SECP_PARSE_PUBKEY : Z := -13.
Definition ERROR_SECP_PARSE_SIGNATURE : Z := -14.
Definition ERROR_SECP_SERIALIZE_PUBKEY : Z := -15.
Definition ERROR_SCRIPT_TOO_LONG : Z := -21.
Definition ERROR_WITNESS_SIZE : Z := -22.
Definition ERROR_PUBKEY_BLAKE160_HASH : Z := -31.
Definition ERROR_INVALID_LABEL : Z := -50.
Definition ERROR_INVALID_MASK : Z := -51.

Definition LABEL_SIGHASH_ALL : Z := 0x0.
Definition LABEL_END_OF_LIST : Z := 0xF.
Definition LABEL_OUTPUT : Z := 0x1.
Definition LABEL_INPUT_CELL : Z := 0x2.
Definition LABEL_INPUT_CELL_SINCE : Z := 0x3.
Definition LABEL_INPUT_OUTPOINT : Z := 0x4.

Definition MASK_CELL_CAPACITY : Z := 0x1.
Definition MASK_CELL_TYPE_CODE_HASH : Z := 0x2.
Definition MASK_CELL_TYPE_ARGS : Z := 0x4.
Definition MASK_CELL_TYPE_HASH_TYPE : Z := 0x8.
Definition MASK_CELL_ANY_TYPE : Z :=
  Z.lor (Z.lor MASK_CELL_TYPE_CODE_HASH MASK_CELL_TYPE_ARGS)
        MASK_CELL_TYPE_HASH_TYPE.
Definition MASK_CELL_LOCK_CODE_HASH : Z := 0x10.
Definition MASK_CELL_LOCK_ARGS : Z := 0x20.
Definition MASK_CELL_LOCK_HASH_TYPE : Z := 0x40.
Definition MASK_CELL_ANY_LOCK : Z :=
  Z.lor (Z.lor MASK_CELL_LOCK_CODE_HASH MASK_CELL_LOCK_ARGS)
        MASK_CELL_LOCK_HASH_TYPE.
Definition MASK_CELL_DATA : Z := 0x80.
Definition MASK_CELL_ALL : Z := 0xFF.

Definition MASK_OUTPOINT_TX_HASH : Z := 0x1.
Definition MASK_OUTPOINT_INDEX : Z := 0x2.
Definition MASK_OUTPOINT_SINCE : Z := 0x4.
Definition MASK_OUTPOINT_ALL : Z := 0xFF.

(** Return codes of the host interface ([ckb_consts.h], included by the
    program but not part of it).  [main] compares against [CKB_SUCCESS] and
    the literal [0] interchangeably. *)
Definition CKB_SUCCESS : Z := 0.
Definition CKB_INDEX_OUT_OF_BOUND : Z := 1.
Definition CKB_LENGTH_NOT_ENOUGH : Z := 3.
Definition MOL_OK : Z := 0.

(** ** Bytes and buffers

    A byte is a [Z] in [0, 256); a buffer is the list of the bytes written
    to it.  Lengths, offsets and indices are [size_t]/[uint64_t] values,
    kept as [Z]: every one of them is bounded by a buffer size or by
    [lock_bytes_seg.size < 2^32], so none wraps. *)

Definition bytes := list Z.

Definition zlen {A : Type} (l : list A) : Z := Z.of_nat (length l).

Definition slice (buf : bytes) (off n : Z) : bytes :=
  firstn (Z.to_nat n) (skipn (Z.to_nat off) buf).

Notation "x !=? y" := (negb (Z.eqb x y)) (at level 70, no associativity).

(** [store buf written]: the contents of [buf] after [written] was copied
    to its start. *)
Definition store (buf written : bytes) : bytes :=
  written ++ skipn (length written) buf.

(** The byte at address [addr] of a buffer whose loaded part is [buf];
    addresses outside the loaded part hold whatever the stack held
    ([stale]). *)
Definition mem_u8 (buf : bytes) (stale : Z -> Z) (addr : Z) : Z :=
  if (0 <=? addr) && (addr <? zlen buf) then nth (Z.to_nat addr) buf 0
  else stale addr.

Definition mem_read (buf : bytes) (stale : Z -> Z) (addr n : Z) : bytes :=
  map (fun k => mem_u8 buf stale (addr + Z.of_nat k)) (seq 0 (Z.to_nat n)).

Fixpoint mem_set_from (pos : Z) (buf : bytes) (addr n v : Z) : bytes :=
  match buf with
  | [] => []
  | b :: rest =>
      (if (addr <=? pos) && (pos <? addr + n) then v else b)
        :: mem_set_from (pos + 1) rest addr n v
  end.

(** [memset(&buf[addr], v, n)] on the loaded part of a buffer. *)
Definition mem_set (buf : bytes) (addr n v : Z) : bytes :=
  mem_set_from 0 buf addr n v.

(** The eight bytes of a [uint64_t] in memory (the target is
    little-endian). *)
Definition u64_bytes (n : Z) : bytes :=
  map (fun k => Z.land (Z.shiftr n (8 * Z.of_nat k)) 255) (seq 0 8).

Fixpoint bytes_eqb (a b : bytes) : bool :=
  match a, b with
  | [], [] => true
  | x :: a', y :: b' => (x =? y) && bytes_eqb a' b'
  | _, _ => false
  end.

(** ** The digest session

    BLAKE2b is a library primitive.  A session is modelled by the bytes it
    has absorbed so far, in order; [blake2b_final] applies the hash function
    of the machine to them. *)

Definition blake2b_state := bytes.

Definition blake2b_init (outlen : Z) : blake2b_state := [].

Definition blake2b_update (ctx : blake2b_state) (data : bytes) (len : Z)
  : blake2b_state :=
  ctx ++ firstn (Z.to_nat len) data.

(** ** The host

    The host VM holds the transaction.  Each object it can serve is a
    status code and the object's bytes; indexed objects that the program
    walks until [CKB_INDEX_OUT_OF_BOUND] are finite lists. *)

Inductive Source := CKB_SOURCE_INPUT | CKB_SOURCE_OUTPUT | CKB_SOURCE_GROUP_INPUT.
Inductive CellField :=
  CKB_CELL_FIELD_CAPACITY | CKB_CELL_FIELD_LOCK | CKB_CELL_FIELD_TYPE.
Inductive InputField := CKB_INPUT_FIELD_OUT_POINT | CKB_INPUT_FIELD_SINCE.

Record object := { status : Z; content : bytes }.

Record Host := {
  tx_witnesses : Source -> list object;
  tx_inputs : Source -> list object;
  tx_cells : Source -> Z -> object;
  tx_cell_data : Source -> Z -> object;
  tx_cell_fields : Source -> Z -> CellField -> object;
  tx_input_fields : Source -> Z -> InputField -> object;
  tx_hash : object;
  tx_script : object;
  tx_inputs_len : Z;
  tx_secp_data : Z * bytes
}.

Definition out_of_bound : object :=
  {| status := CKB_INDEX_OUT_OF_BOUND; content := [] |}.

Definition lookup (l : list object) (index : Z) : object :=
  if index <? 0 then out_of_bound
  else nth (Z.to_nat index) l out_of_bound.

(** Modelled from the spec: the host's bounded read (section 4.1, "writes
    into a caller-provided buffer, returning the authoritative length").
    A read of [len] bytes at [offset] returns the status, the length that
    remains from [offset], and the bytes written to the buffer. *)
Definition syscall_load (o : object) (len offset : Z) : Z * Z * bytes :=
  if status o !=? CKB_SUCCESS then (status o, len, [])
  else (CKB_SUCCESS, Z.max 0 (zlen (content o) - offset),
        slice (content o) offset len).

(** Modelled from the spec: the checked reads of [ckb_utils.h] (section
    4.1, "successful when the host returns OK and the reported length does
    not exceed the buffer"). *)
Definition checked (len : Z) (r : Z * Z * bytes) : Z * Z * bytes :=
  let '(ret, len', written) := r in
  if (ret =? CKB_SUCCESS) && (len' >? len)
  then (CKB_LENGTH_NOT_ENOUGH, len', written)
  else r.

(** ** The machine: library primitives and indeterminate memory

    The molecule readers ([blockchain.h]), BLAKE2b and secp256k1 are
    libraries the program links against.  A reader receives the bytes of
    the segment it is applied to and answers with a segment relative to the
    start of that segment. *)

Record mol_seg_t := { ptr : Z; size : Z }.

Record Machine := {
  blake2b_hash : bytes -> bytes;
  MolReader_WitnessArgs_verify : bytes -> Z;
  MolReader_WitnessArgs_get_lock : bytes -> mol_seg_t;
  MolReader_BytesOpt_is_none : bytes -> bool;
  MolReader_Bytes_raw_bytes : bytes -> mol_seg_t;
  MolReader_Script_verify : bytes -> Z;
  MolReader_Script_get_code_hash : bytes -> mol_seg_t;
  MolReader_Script_get_args : bytes -> mol_seg_t;
  MolReader_Script_get_hash_type : bytes -> mol_seg_t;
  MolReader_OutPoint_verify : bytes -> Z;
  MolReader_OutPoint_get_tx_hash : bytes -> mol_seg_t;
  ckb_secp256k1_custom_verify_only_initialize : bytes -> Z * bytes;
  secp256k1_ecdsa_recoverable_signature_parse_compact :
    bytes -> bytes -> Z -> Z * bytes;
  secp256k1_ecdsa_recover : bytes -> bytes -> bytes -> Z * bytes;
  secp256k1_ec_pubkey_serialize : bytes -> bytes -> Z * bytes;
  (** the byte at an offset from the base of [witness] that the load did
      not write *)
  stale_witness : Z -> Z;
  (** the contents of a [since[8]] local before it is loaded, by label *)
  stale_since : Z -> bytes;
  (** the memory behind the never-initialised [index_seg] (line 333), by
      position of the op *)
  stale_index_seg : Z -> bytes
}.

Definition blake2b_final (m : Machine) (ctx : blake2b_state) (outlen : Z)
  : bytes :=
  blake2b_hash m ctx.

Definition seg_bytes (buf : bytes) (s : mol_seg_t) : bytes :=
  slice buf (ptr s) (size s).

Definition sub_seg (outer inner : mol_seg_t) : mol_seg_t :=
  {| ptr := ptr outer + ptr inner; size := size inner |}.

(** ** Outcomes of a phase of [main] *)

Inductive outcome (A : Type) : Type :=
| Continue (a : A)
| Return (code : Z)
| OutOfFuel.
Arguments Continue {A} a.
Arguments Return {A} code.
Arguments OutOfFuel {A}.

Definition bind {A B : Type} (x : outcome A) (k : A -> outcome B)
  : outcome B :=
  match x with
  | Continue a => k a
  | Return code => Return code
  | OutOfFuel => OutOfFuel
  end.

Notation "x <- e ;; k" := (bind e (fun x => k))
  (at level 61, e at next level, right associativity).

(** [ret = f(...); if (ret != CKB_SUCCESS) return ret;] *)
Definition call {A : Type} (r : option (Z * A)) : outcome A :=
  match r with
  | None => OutOfFuel
  | Some (ret, a) => if ret !=? CKB_SUCCESS then Return ret else Continue a
  end.

(** ** The program *)

Section Program.

Variable m : Machine.
Variable h : Host.

(** *** Host reads ([ckb_syscalls.h], [ckb_utils.h])

    Each takes the buffer length and the offset, then the index and the
    source, and returns the status, the reported length and the bytes
    written. *)

Definition ckb_load_witness (len offset index : Z) (source : Source) :=
  syscall_load (lookup (tx_witnesses h source) index) len offset.

Definition ckb_load_input (len offset index : Z) (source : Source) :=
  syscall_load (lookup (tx_inputs h source) index) len offset.

Definition ckb_load_cell (len offset index : Z) (source : Source) :=
  syscall_load (tx_cells h source index) len offset.

Definition ckb_load_cell_data (len offset index : Z) (source : Source) :=
  syscall_load (tx_cell_data h source index) len offset.

Definition ckb_load_cell_by_field (len offset index : Z) (source : Source)
    (field : CellField) :=
  syscall_load (tx_cell_fields h source index field) len offset.

Definition ckb_checked_load_cell_by_field (len offset index : Z)
    (source : Source) (field : CellField) :=
  checked len (ckb_load_cell_by_field len offset index source field).

Definition ckb_checked_load_input_by_field (len offset index : Z)
    (source : Source) (field : InputField) :=
  checked len (syscall_load (tx_input_fields h source index field) len offset).

Definition ckb_load_tx_hash (len offset : Z) :=
  syscall_load (tx_hash h) len offset.

Definition ckb_load_script (len offset : Z) :=
  syscall_load (tx_script h) len offset.

Definition ckb_calculate_inputs_len : Z := tx_inputs_len h.

Definition ckb_secp256k1_custom_load_data : Z * bytes := tx_secp_data h.

(** *** [extract_witness_lock] (lines 68-84) *)

Definition extract_witness_lock (witness : bytes) (len : Z)
  : Z * mol_seg_t :=
  let witness_seg := {| ptr := 0; size := len |} in
  if MolReader_WitnessArgs_verify m (seg_bytes witness witness_seg) !=? MOL_OK
  then (ERROR_ENCODING, {| ptr := 0; size := 0 |})
  else
    let lock_seg :=
      sub_seg witness_seg
        (MolReader_WitnessArgs_get_lock m (seg_bytes witness witness_seg)) in
    if MolReader_BytesOpt_is_none m (seg_bytes witness lock_seg)
    then (ERROR_ENCODING, {| ptr := 0; size := 0 |})
    else
      (CKB_SUCCESS,
       sub_seg lock_seg
         (MolReader_Bytes_raw_bytes m (seg_bytes witness lock_seg))).

(** *** [load_and_hash] (lines 86-110) *)

Definition load_function := Z -> Z -> Z -> Source -> Z * Z * bytes.

(** The [while (offset < len)] loop of lines 98-108. *)
Fixpoint load_and_hash_loop (fuel : nat) (ctx : blake2b_state)
    (index_code : Z) (source : Source) (f : load_function)
    (offset len : Z) : option (Z * blake2b_state) :=
  if offset <? len then
    match fuel with
    | O => None
    | S fuel' =>
        let '(ret, current_len, temp) :=
          f ONE_BATCH_SIZE offset index_code source in
        if ret !=? CKB_SUCCESS then Some (ret, ctx)
        else
          let current_read :=
            if current_len >? ONE_BATCH_SIZE then ONE_BATCH_SIZE
            else current_len in
          let ctx := blake2b_update ctx temp current_read in
          load_and_hash_loop fuel' ctx index_code source f
            (offset + current_read) len
    end
  else Some (CKB_SUCCESS, ctx).

Definition load_and_hash (ctx : blake2b_state) (index_code : Z)
    (source : Source) (f : load_function) : option (Z * blake2b_state) :=
  let '(ret, len, temp) := f ONE_BATCH_SIZE 0 index_code source in
  if ret !=? CKB_SUCCESS then Some (ret, ctx)
  else
    let offset := if len >? ONE_BATCH_SIZE then ONE_BATCH_SIZE else len in
    let ctx := blake2b_update ctx temp offset in
    load_and_hash_loop (Z.to_nat len) ctx index_code source f offset len.

Definition hash_cell_data (ctx : blake2b_state) (index_code : Z)
    (source : Source) :=
  load_and_hash ctx index_code source ckb_load_cell_data.

Definition hash_cell (ctx : blake2b_state) (index_code : Z)
    (source : Source) :=
  load_and_hash ctx index_code source ckb_load_cell.

Definition hash_input (ctx : blake2b_state) (index_code : Z)
    (source : Source) :=
  load_and_hash ctx index_code source ckb_load_input.

(** *** [hash_script_fields] (lines 124-154) *)

Definition hash_script_fields (ctx : blake2b_state) (index_code : Z)
    (source : Source) (field : CellField) (lock_masks : Z)
  : Z * blake2b_state :=
  let '(ret, len, script) :=
    ckb_checked_load_cell_by_field SCRIPT_SIZE 0 index_code source field in
  if ret !=? CKB_SUCCESS then (ret, ctx)
  else
    let script_seg := {| ptr := 0; size := len |} in
    if MolReader_Script_verify m (seg_bytes script script_seg) !=? MOL_OK
    then (ERROR_ENCODING, ctx)
    else
      let ctx :=
        if Z.land lock_masks MASK_CELL_LOCK_CODE_HASH !=? 0 then
          let item_seg :=
            sub_seg script_seg
              (MolReader_Script_get_code_hash m (seg_bytes script script_seg)) in
          blake2b_update ctx (skipn (Z.to_nat (ptr item_seg)) script)
            (size item_seg)
        else ctx in
      let ctx :=
        if Z.land lock_masks MASK_CELL_LOCK_ARGS !=? 0 then
          let item_seg :=
            sub_seg script_seg
              (MolReader_Script_get_args m (seg_bytes script script_seg)) in
          blake2b_update ctx (skipn (Z.to_nat (ptr item_seg)) script)
            (size item_seg)
        else ctx in
      let ctx :=
        if Z.land lock_masks MASK_CELL_LOCK_HASH_TYPE !=? 0 then
          let item_seg :=
            sub_seg script_seg
              (MolReader_Script_get_hash_type m (seg_bytes script script_seg)) in
          blake2b_update ctx (skipn (Z.to_nat (ptr item_seg)) script)
            (size item_seg)
        else ctx in
      (CKB_SUCCESS, ctx).

(** *** [main] (lines 156-464)

    The body of [main] is cut at its loops; each piece below names the
    lines it embeds, and [main] chains them in the order of the source. *)

(** Lines 157-180: load the first witness of the group, extract the lock
    bytes, and require more than a signature. *)
Definition load_first_witness : outcome (bytes * Z * mol_seg_t) :=
  let '(ret, witness_len, witness) :=
    ckb_load_witness WITNESS_SIZE 0 0 CKB_SOURCE_GROUP_INPUT in
  if ret !=? CKB_SUCCESS then Return ERROR_SYSCALL
  else if witness_len >? WITNESS_SIZE then Return ERROR_WITNESS_SIZE
  else
    let '(ret, lock_bytes_seg) := extract_witness_lock witness witness_len in
    if ret !=? 0 then Return ERROR_ENCODING
    else if size lock_bytes_seg <=? SIGNATURE_SIZE
         then Return ERROR_ARGUMENTS_LEN
         else Continue (witness, witness_len, lock_bytes_seg).

(** Lines 186-196: hash all inputs of the current script group. *)
Fixpoint hash_group_inputs (fuel : nat) (i : Z) (ctx : blake2b_state)
  : outcome blake2b_state :=
  match fuel with
  | O => OutOfFuel
  | S fuel' =>
      match hash_input ctx i CKB_SOURCE_GROUP_INPUT with
      | None => OutOfFuel
      | Some (ret, ctx) =>
          if ret =? CKB_INDEX_OUT_OF_BOUND then Continue ctx
          else if ret !=? CKB_SUCCESS then Return ret
          else hash_group_inputs fuel' (i + 1) ctx
      end
  end.

(** Lines 213-224: [case LABEL_SIGHASH_ALL]. *)
Definition component_sighash_all (ctx : blake2b_state)
  : outcome blake2b_state :=
  let '(ret, len, tx_hash) := ckb_load_tx_hash BLAKE2B_BLOCK_SIZE 0 in
  if ret !=? CKB_SUCCESS then Return ret
  else if len !=? BLAKE2B_BLOCK_SIZE then Return ERROR_SYSCALL
  else Continue (blake2b_update ctx tx_hash BLAKE2B_BLOCK_SIZE).

(** Lines 240-280: the cell fields selected by a mask other than
    [MASK_CELL_ALL]. *)
Definition hash_masked_cell (index_code mask : Z) (source : Source)
    (ctx : blake2b_state) : outcome blake2b_state :=
  ctx <- (if Z.land mask MASK_CELL_CAPACITY !=? 0 then
            let '(ret, len, written) :=
              ckb_load_cell_by_field 8 0 index_code source
                CKB_CELL_FIELD_CAPACITY in
            if ret !=? CKB_SUCCESS then Return ret
            else Continue (blake2b_update ctx (store (repeat 0 8%nat) written) 8)
          else Continue ctx) ;;
  ctx <- (if Z.land mask MASK_CELL_ANY_TYPE !=? 0 then
            let lock_masks := 0 in
            let lock_masks :=
              if Z.land mask MASK_CELL_TYPE_CODE_HASH !=? 0
              then Z.lor lock_masks MASK_CELL_LOCK_CODE_HASH
              else lock_masks in
            let lock_masks :=
              if Z.land mask MASK_CELL_TYPE_ARGS !=? 0
              then Z.lor lock_masks MASK_CELL_LOCK_ARGS
              else lock_masks in
            let lock_masks :=
              if Z.land mask MASK_CELL_TYPE_HASH_TYPE !=? 0
              then Z.lor lock_masks MASK_CELL_LOCK_HASH_TYPE
              else lock_masks in
            call (Some (hash_script_fields ctx index_code source
                          CKB_CELL_FIELD_TYPE lock_masks))
          else Continue ctx) ;;
  ctx <- (if Z.land mask MASK_CELL_ANY_LOCK !=? 0 then
            call (Some (hash_script_fields ctx index_code source
                          CKB_CELL_FIELD_LOCK mask))
          else Continue ctx) ;;
  if Z.land mask MASK_CELL_DATA !=? 0
  then call (hash_cell_data ctx index_code source)
  else Continue ctx.

(** Lines 225-292: [case LABEL_OUTPUT], [LABEL_INPUT_CELL],
    [LABEL_INPUT_CELL_SINCE]. *)
Definition component_cell (label index_code mask : Z) (ctx : blake2b_state)
  : outcome blake2b_state :=
  let source :=
    if label =? LABEL_OUTPUT then CKB_SOURCE_OUTPUT else CKB_SOURCE_INPUT in
  ctx <- (if mask =? MASK_CELL_ALL then
            ctx <- call (hash_cell ctx index_code source) ;;
            call (hash_cell_data ctx index_code source)
          else hash_masked_cell index_code mask source ctx) ;;
  if label =? LABEL_INPUT_CELL_SINCE then
    let '(ret, len, written) :=
      ckb_checked_load_input_by_field 8 0 index_code source
        CKB_INPUT_FIELD_SINCE in
    if ret !=? CKB_SUCCESS then Return ret
    else Continue (blake2b_update ctx (store (stale_since m label) written) 8)
  else Continue ctx.

(** Lines 293-337: [case LABEL_INPUT_OUTPOINT].  [pos] is the position of
    the op in the array.  On line 333 [index_seg] is initialised from
    itself: the reader is applied to the not yet initialised segment. *)
Definition component_input_outpoint (pos index_code mask : Z)
    (ctx : blake2b_state) : outcome blake2b_state :=
  if mask =? MASK_OUTPOINT_ALL then
    call (hash_input ctx index_code CKB_SOURCE_INPUT)
  else
    ctx <- (if Z.land mask MASK_OUTPOINT_SINCE !=? 0 then
              let '(ret, len, written) :=
                ckb_checked_load_input_by_field 8 0 index_code
                  CKB_SOURCE_INPUT CKB_INPUT_FIELD_SINCE in
              if ret !=? CKB_SUCCESS then Return ret
              else Continue (blake2b_update ctx
                               (store (stale_since m LABEL_INPUT_OUTPOINT)
                                  written) 8)
            else Continue ctx) ;;
    let '(ret, input_len, input_buf) :=
      ckb_checked_load_input_by_field INPUT_SIZE 0 index_code
        CKB_SOURCE_INPUT CKB_INPUT_FIELD_OUT_POINT in
    if ret !=? CKB_SUCCESS then Return ret
    else
      let outpoint_seg := {| ptr := 0; size := input_len |} in
      if MolReader_OutPoint_verify m (seg_bytes input_buf outpoint_seg)
         !=? MOL_OK
      then Return ERROR_ENCODING
      else
        let ctx :=
          if Z.land mask MASK_OUTPOINT_TX_HASH !=? 0 then
            let tx_hash_seg :=
              sub_seg outpoint_seg
                (MolReader_OutPoint_get_tx_hash m
                   (seg_bytes input_buf outpoint_seg)) in
            blake2b_update ctx (skipn (Z.to_nat (ptr tx_hash_seg)) input_buf)
              (size tx_hash_seg)
          else ctx in
        let ctx :=
          if Z.land mask MASK_OUTPOINT_INDEX !=? 0 then
            let index_seg :=
              MolReader_OutPoint_get_tx_hash m (stale_index_seg m pos) in
            blake2b_update ctx
              (skipn (Z.to_nat (ptr index_seg)) (stale_index_seg m pos))
              (size index_seg)
          else ctx in
        Continue ctx.

(** Lines 212-343: the [switch] on the label; the boolean is [has_more]. *)
Definition process_component (pos label index_code mask : Z)
    (ctx : blake2b_state) : outcome (bool * blake2b_state) :=
  if label =? LABEL_SIGHASH_ALL then
    ctx <- component_sighash_all ctx ;; Continue (true, ctx)
  else if (label =? LABEL_OUTPUT) || (label =? LABEL_INPUT_CELL)
          || (label =? LABEL_INPUT_CELL_SINCE) then
    ctx <- component_cell label index_code mask ctx ;; Continue (true, ctx)
  else if label =? LABEL_INPUT_OUTPOINT then
    ctx <- component_input_outpoint pos index_code mask ctx ;;
    Continue (true, ctx)
  else if label =? LABEL_END_OF_LIST then Continue (false, ctx)
  else Return ERROR_INVALID_LABEL.

(** [sighash_array[k]]: the array starts at [lock_bytes_seg.ptr], inside
    the witness buffer. *)
Definition sighash_array (witness : bytes) (lock_bytes_seg : mol_seg_t)
    (k : Z) : Z :=
  mem_u8 witness (stale_witness m) (ptr lock_bytes_seg + k).

(** Line 207: the label of the op at position [j] of the array. *)
Definition op_label (witness : bytes) (lock_bytes_seg : mol_seg_t) (j : Z)
  : Z :=
  Z.shiftr (sighash_array witness lock_bytes_seg (j * 3 + 0)) 4.

(** The coverage region is what precedes the signature in the lock bytes:
    its first [lock_bytes_seg.size - 65] bytes.  [has_terminator] tells
    whether one of the ops that lie in it is [END_OF_LIST]. *)
Definition coverage_ops (lock_bytes_seg : mol_seg_t) : Z :=
  (size lock_bytes_seg - SIGNATURE_SIZE) / 3.

Definition has_terminator (witness : bytes) (lock_bytes_seg : mol_seg_t)
  : bool :=
  existsb (fun j => op_label witness lock_bytes_seg (Z.of_nat j)
                    =? LABEL_END_OF_LIST)
          (seq 0 (Z.to_nat (coverage_ops lock_bytes_seg))).

(** Lines 202-344: the loop over the sighash coverage array.  The result
    is the final value of [i] and the digest session. *)
Fixpoint process_sighash_array (fuel : nat) (witness : bytes)
    (lock_bytes_seg : mol_seg_t) (i : Z) (ctx : blake2b_state)
  : outcome (Z * blake2b_state) :=
  if i + 3 >? size lock_bytes_seg then Return ERROR_INVALID_LABEL
  else
    match fuel with
    | O => OutOfFuel
    | S fuel' =>
        let tx_component := fun k =>
          sighash_array witness lock_bytes_seg (i * 3 + k) in
        let pos := i in
        let i := i + 1 in
        let label := Z.shiftr (tx_component 0) 4 in
        let index_code :=
          Z.lor (Z.shiftl (Z.land (tx_component 0) 0xF) 8) (tx_component 1) in
        let mask := tx_component 2 in
        r <- process_component pos label index_code mask ctx ;;
        let '(has_more, ctx) := r in
        if has_more
        then process_sighash_array fuel' witness lock_bytes_seg i ctx
        else Continue (i, ctx)
    end.

(** Lines 346-357: the size equation, the copy of the signature, the
    zeroing of the signature in the witness buffer and the digest of the
    first witness. *)
Definition digest_first_witness (witness : bytes) (witness_len : Z)
    (lock_bytes_seg : mol_seg_t) (i : Z) (ctx : blake2b_state)
  : outcome (bytes * bytes * blake2b_state) :=
  let sighash_array_length := i * 3 in
  if size lock_bytes_seg !=? sighash_array_length + SIGNATURE_SIZE
  then Return ERROR_ARGUMENTS_LEN
  else
    let signature_bytes :=
      mem_read witness (stale_witness m)
        (ptr lock_bytes_seg + sighash_array_length) SIGNATURE_SIZE in
    let witness :=
      mem_set witness (ptr lock_bytes_seg + sighash_array_length)
        SIGNATURE_SIZE 0 in
    let ctx := blake2b_update ctx (u64_bytes witness_len) 8 in
    let ctx := blake2b_update ctx witness witness_len in
    Continue (signature_bytes, witness, ctx).

(** Lines 362-377 and 380-395: the two witness loops have the same body;
    they differ in the source and in the first index. *)
Fixpoint digest_witnesses (fuel : nat) (source : Source) (i : Z)
    (ctx : blake2b_state) : outcome blake2b_state :=
  match fuel with
  | O => OutOfFuel
  | S fuel' =>
      let '(ret, len, temp) := ckb_load_witness WITNESS_SIZE 0 i source in
      if ret =? CKB_INDEX_OUT_OF_BOUND then Continue ctx
      else if ret !=? CKB_SUCCESS then Return ERROR_SYSCALL
      else if len >? WITNESS_SIZE then Return ERROR_WITNESS_SIZE
      else
        let ctx := blake2b_update ctx (u64_bytes len) 8 in
        let ctx := blake2b_update ctx temp len in
        digest_witnesses fuel' source (i + 1) ctx
  end.

(** Lines 157-395: everything the digest session absorbs, with the
    signature copied out of the witness. *)
Definition main_absorb : outcome (bytes * blake2b_state) :=
  r <- load_first_witness ;;
  let '(witness, witness_len, lock_bytes_seg) := r in
  let ctx := blake2b_init BLAKE2B_BLOCK_SIZE in
  ctx <- hash_group_inputs
           (S (length (tx_inputs h CKB_SOURCE_GROUP_INPUT))) 0 ctx ;;
  r <- process_sighash_array (Z.to_nat (size lock_bytes_seg)) witness
         lock_bytes_seg 0 ctx ;;
  let '(i, ctx) := r in
  r <- digest_first_witness witness witness_len lock_bytes_seg i ctx ;;
  let '(signature_bytes, _, ctx) := r in
  ctx <- digest_witnesses
           (S (length (tx_witnesses h CKB_SOURCE_GROUP_INPUT)))
           CKB_SOURCE_GROUP_INPUT 1 ctx ;;
  ctx <- digest_witnesses
           (S (length (tx_witnesses h CKB_SOURCE_INPUT)))
           CKB_SOURCE_INPUT ckb_calculate_inputs_len ctx ;;
  Continue (signature_bytes, ctx).

(** Lines 396-397: the message that the signature must cover. *)
Definition main_message : outcome (bytes * bytes) :=
  r <- main_absorb ;;
  let '(signature_bytes, ctx) := r in
  Continue (signature_bytes, blake2b_final m ctx BLAKE2B_BLOCK_SIZE).

(** Lines 399-463: recover the public key from the signature and compare
    its blake160 hash with the script arguments. *)
Definition verify_signature (signature_bytes message : bytes) : outcome Z :=
  let '(ret, secp_data) := ckb_secp256k1_custom_load_data in
  if ret !=? 0 then Return ret
  else
    let '(ret, context) :=
      ckb_secp256k1_custom_verify_only_initialize m secp_data in
    if ret !=? 0 then Return ret
    else
      let '(ok, signature) :=
        secp256k1_ecdsa_recoverable_signature_parse_compact m context
          (firstn 64 signature_bytes)
          (nth (Z.to_nat RECID_INDEX) signature_bytes 0) in
      if ok =? 0 then Return ERROR_SECP_PARSE_SIGNATURE
      else
        let '(ok, pubkey) :=
          secp256k1_ecdsa_recover m context signature message in
        if ok !=? 1 then Return ERROR_SECP_RECOVER_PUBKEY
        else
          let '(ok, temp) := secp256k1_ec_pubkey_serialize m context pubkey in
          let pubkey_size := zlen temp in
          if ok !=? 1 then Return ERROR_SECP_SERIALIZE_PUBKEY
          else
            let ctx := blake2b_init BLAKE2B_BLOCK_SIZE in
            let ctx := blake2b_update ctx temp pubkey_size in
            let temp := blake2b_final m ctx BLAKE2B_BLOCK_SIZE in
            let '(ret, len, script) := ckb_load_script SCRIPT_SIZE 0 in
            if ret !=? CKB_SUCCESS then Return ERROR_SYSCALL
            else if len >? SCRIPT_SIZE then Return ERROR_SCRIPT_TOO_LONG
            else
              let script_seg := {| ptr := 0; size := len |} in
              if MolReader_Script_verify m (seg_bytes script script_seg)
                 !=? MOL_OK
              then Return ERROR_ENCODING
              else
                let args_seg :=
                  sub_seg script_seg
                    (MolReader_Script_get_args m
                       (seg_bytes script script_seg)) in
                let args_bytes_seg :=
                  sub_seg args_seg
                    (MolReader_Bytes_raw_bytes m (seg_bytes script args_seg)) in
                if size args_bytes_seg !=? BLAKE160_SIZE
                then Return ERROR_ARGUMENTS_LEN
                else if negb (bytes_eqb
                                (slice script (ptr args_bytes_seg)
                                   BLAKE160_SIZE)
                                (firstn (Z.to_nat BLAKE160_SIZE) temp))
                     then Return ERROR_PUBKEY_BLAKE160_HASH
                     else Return 0.

Definition main : outcome Z :=
  r <- main_message ;;
  let '(signature_bytes, message) := r in
  verify_signature signature_bytes message.

End Program.

(** The contents of the first [k] inputs of the script group, in index
    order. *)
Definition group_inputs_bytes (h : Host) (k : nat) : bytes :=
  concat (map content (firstn k (tx_inputs h CKB_SOURCE_GROUP_INPUT))).

(** What [hash_script_fields] absorbs from a script: the selected ones of
    [code_hash], [args] and [hash_type], in this order. *)
Definition script_fields (m : Machine) (script : bytes)
    (code_hash args hash_type : bool) : bytes :=
  (if code_hash
   then seg_bytes script (MolReader_Script_get_code_hash m script) else [])
  ++ (if args
      then seg_bytes script (MolReader_Script_get_args m script) else [])
  ++ (if hash_type
      then seg_bytes script (MolReader_Script_get_hash_type m script)
      else []).

(** The eight bytes of the [capacity] variable after the load of line 243,
    and of a [since] buffer after the load of line 285 or 303. *)
Definition capacity_bytes (field : bytes) : bytes :=
  firstn 8 (store (repeat 0 8%nat) (slice field 0 8)).

Definition since_bytes (m : Machine) (label : Z) (field : bytes) : bytes :=
  firstn 8 (store (stale_since m label) field).

(** Two hosts answer every read of the program alike. *)
Record same_reads (h1 h2 : Host) : Prop := {
  same_witness : forall len offset index source,
    ckb_load_witness h1 len offset index source
    = ckb_load_witness h2 len offset index source;
  same_input : forall len offset index source,
    ckb_load_input h1 len offset index source
    = ckb_load_input h2 len offset index source;
  same_cell : forall len offset index source,
    ckb_load_cell h1 len offset index source
    = ckb_load_cell h2 len offset index source;
  same_cell_data : forall len offset index source,
    ckb_load_cell_data h1 len offset index source
    = ckb_load_cell_data h2 len offset index source;
  same_cell_by_field : forall len offset index source field,
    ckb_load_cell_by_field h1 len offset index source field
    = ckb_load_cell_by_field h2 len offset index source field;
  same_input_by_field : forall len offset index source field,
    ckb_checked_load_input_by_field h1 len offset index source field
    = ckb_checked_load_input_by_field h2 len offset index source field;
  same_tx_hash : forall len offset,
    ckb_load_tx_hash h1 len offset = ckb_load_tx_hash h2 len offset;
  same_script : forall len offset,
    ckb_load_script h1 len offset = ckb_load_script h2 len offset;
  same_inputs_len :
    ckb_calculate_inputs_len h1 = ckb_calculate_inputs_len h2;
  same_secp_data :
    ckb_secp256k1_custom_load_data h1 = ckb_secp256k1_custom_load_data h2
}.

(** ** Vocabulary of the properties *)

(** [b] is [a] followed by more bytes. *)
Definition extends (a b : bytes) : Prop := exists rest, b = a ++ rest.

(** A phase is proper when it ends within its bound and, if it makes
    [main] return, returns a non-zero code. *)
Definition proper {A : Type} (r : outcome A) : Prop :=
  match r with
  | Continue _ => True
  | Return code => code <> 0
  | OutOfFuel => False
  end.

(** ** A reference machine and transactions

    Concrete readers following the molecule layout (tables with a
    four-byte total size and four-byte field offsets, [OutPoint] as a
    36-byte struct), with stand-ins for the hash and for secp256k1.  They
    serve to run the program on concrete transactions. *)

Definition u32_at (b : bytes) (off : nat) : Z :=
  nth off b 0 + 256 * nth (off + 1) b 0 + 65536 * nth (off + 2) b 0
  + 16777216 * nth (off + 3) b 0.

Definition u32_bytes (n : Z) : bytes := firstn 4 (u64_bytes n).

Definition table_verify (fields : Z) (b : bytes) : Z :=
  if (4 * (fields + 1) <=? zlen b) && (u32_at b 0 =? zlen b)
     && (u32_at b 4 =? 4 * (fields + 1))
  then MOL_OK else 1.

Definition table_field (fields : nat) (b : bytes) (k : nat) : mol_seg_t :=
  let start := u32_at b (4 * (k + 1)) in
  let stop :=
    if Nat.eqb (k + 1) fields then u32_at b 0 else u32_at b (4 * (k + 2)) in
  {| ptr := start; size := stop - start |}.

Definition toy_hash (l : bytes) : bytes :=
  map (fun k => fold_left (fun acc b => (acc * 31 + b + 7) mod 256) l
                  (Z.of_nat k))
      (seq 0 32).

(** [recover_ok] and [serialize_ok] are what the stand-ins of
    [secp256k1_ecdsa_recover] and [secp256k1_ec_pubkey_serialize] return. *)
Definition machine_with (recover_ok serialize_ok : Z) : Machine := {|
  blake2b_hash := toy_hash;
  MolReader_WitnessArgs_verify := table_verify 3;
  MolReader_WitnessArgs_get_lock := fun b => table_field 3 b 0;
  MolReader_BytesOpt_is_none := fun b => zlen b =? 0;
  MolReader_Bytes_raw_bytes := fun b => {| ptr := 4; size := u32_at b 0 |};
  MolReader_Script_verify := table_verify 3;
  MolReader_Script_get_code_hash := fun b => table_field 3 b 0;
  MolReader_Script_get_args := fun b => table_field 3 b 2;
  MolReader_Script_get_hash_type := fun b => table_field 3 b 1;
  MolReader_OutPoint_verify := fun b => if zlen b =? 36 then MOL_OK else 1;
  MolReader_OutPoint_get_tx_hash := fun _ => {| ptr := 0; size := 32 |};
  ckb_secp256k1_custom_verify_only_initialize := fun d => (0, d);
  secp256k1_ecdsa_recoverable_signature_parse_compact :=
    fun _ sig recid => if recid <? 4 then (1, sig ++ [recid]) else (0, []);
  secp256k1_ecdsa_recover := fun _ sig _ => (recover_ok, firstn 33 sig);
  secp256k1_ec_pubkey_serialize := fun _ pk => (serialize_ok, pk);
  stale_witness := fun _ => 0xAA;
  stale_since := fun _ => repeat 0xBB 8;
  stale_index_seg := fun _ => repeat 0xCC 64
|}.

Definition ref_machine : Machine := machine_with 1 1.

(** [WitnessArgs] with the given lock bytes and the given bytes after the
    lock field (the encoded [input_type] and [output_type]). *)
Definition witness_args (lock tail : bytes) : bytes :=
  let lock_field := u32_bytes (zlen lock) ++ lock in
  let total := 16 + zlen lock_field + zlen tail in
  u32_bytes total ++ u32_bytes 16 ++ u32_bytes (16 + zlen lock_field)
    ++ u32_bytes (16 + zlen lock_field + zlen tail) ++ lock_field ++ tail.

(** [Script] with a 32-byte code hash, a hash type and the given args. *)
Definition script_of (code_hash : bytes) (hash_type : Z) (args : bytes)
  : bytes :=
  let args_field := u32_bytes (zlen args) ++ args in
  u32_bytes (16 + 32 + 1 + zlen args_field) ++ u32_bytes 16 ++ u32_bytes 48
    ++ u32_bytes 49 ++ code_hash ++ [hash_type] ++ args_field.

Definition ok (b : bytes) : object := {| status := CKB_SUCCESS; content := b |}.

Definition ref_signature : bytes := repeat 0x21 64 ++ [1].

Definition ref_args : bytes :=
  firstn 20 (toy_hash (firstn 33 ref_signature)).

Definition ref_outpoint : bytes := repeat 0x11 32 ++ [7; 0; 0; 0].

Definition ref_input : bytes := repeat 0 8 ++ ref_outpoint.

Definition ref_lock_script : bytes := script_of (repeat 0x31 32) 1 [0x41; 0x42].
Definition ref_type_script : bytes := script_of (repeat 0x51 32) 2 [0x61].

(** A transaction with one group input, whose first witness carries
    [lock] followed by [tail]. *)
Definition ref_host (lock tail : bytes) : Host := {|
  tx_witnesses := fun source =>
    match source with
    | CKB_SOURCE_OUTPUT => []
    | _ => [ok (witness_args lock tail)]
    end;
  tx_inputs := fun source =>
    match source with
    | CKB_SOURCE_OUTPUT => []
    | _ => [ok ref_input]
    end;
  tx_cells := fun _ index =>
    if index =? 0 then ok (repeat 0x71 61) else out_of_bound;
  tx_cell_data := fun _ index =>
    if index =? 0 then ok [0x81; 0x82; 0x83] else out_of_bound;
  tx_cell_fields := fun _ index field =>
    if index =? 0 then
      match field with
      | CKB_CELL_FIELD_CAPACITY => ok (u64_bytes 6100000000)
      | CKB_CELL_FIELD_LOCK => ok ref_lock_script
      | CKB_CELL_FIELD_TYPE => ok ref_type_script
      end
    else out_of_bound;
  tx_input_fields := fun _ index field =>
    if index =? 0 then
      match field with
      | CKB_INPUT_FIELD_OUT_POINT => ok ref_outpoint
      | CKB_INPUT_FIELD_SINCE => ok (repeat 0 8)
      end
    else out_of_bound;
  tx_hash := ok (repeat 0x99 32);
  tx_script := ok (script_of (repeat 0x31 32) 1 ref_args);
  tx_inputs_len := 1;
  tx_secp_data := (0, [])
|}.

(** Transactions used below.  Each differs from the others in the lock
    bytes of the first witness only. *)

(** Coverage [END_OF_LIST], then the signature. *)
Definition host_minimal : Host := ref_host ([0xF0; 0; 0] ++ ref_signature) [].

(** Coverage [OUTPUT(0, 0x7F)], [END_OF_LIST]. *)
Definition host_masked_output : Host :=
  ref_host ([0x10; 0; 0x7F; 0xF0; 0; 0] ++ ref_signature) [].

(** Coverage [INPUT_OUTPOINT(0, index)], [END_OF_LIST]. *)
Definition host_outpoint_index : Host :=
  ref_host ([0x40; 0; 2; 0xF0; 0; 0] ++ ref_signature) [].

(** Nothing but a signature. *)
Definition host_short_lock : Host := ref_host ref_signature [].

(** [END_OF_LIST], three more bytes, then the signature. *)
Definition host_size_mismatch : Host :=
  ref_host ([0xF0; 0; 0; 0; 0; 0] ++ ref_signature) [].

(** Coverage [SIGHASH_ALL] with no terminator; the signature starts with
    the byte [0xF0]. *)
Definition host_terminator_in_signature : Host :=
  ref_host ([0; 0; 0] ++ 0xF0 :: repeat 0x21 63 ++ [1]) [].

(** 66 zero lock bytes (22 [SIGHASH_ALL] ops, the last ones overlapping
    what should be the signature), followed in the witness by an
    [input_type] of 240 zero bytes, whose length field is [F0 00 00 00]. *)
Definition host_trailing_op : Host :=
  ref_host (repeat 0 66) (u32_bytes 240 ++ repeat 0 240).

(** No witness for the script group. *)
Definition host_no_witness : Host := {|
  tx_witnesses := fun _ => [];
  tx_inputs := tx_inputs host_minimal;
  tx_cells := tx_cells host_minimal;
  tx_cell_data := tx_cell_data host_minimal;
  tx_cell_fields := tx_cell_fields host_minimal;
  tx_input_fields := tx_input_fields host_minimal;
  tx_hash := tx_hash host_minimal;
  tx_script := tx_script host_minimal;
  tx_inputs_len := 1;
  tx_secp_data := (0, [])
|}.

(** The second witness of the group fails to load with host code 2. *)
Definition host_failing_witness : Host := {|
  tx_witnesses := fun source =>
    match source with
    | CKB_SOURCE_GROUP_INPUT =>
        tx_witnesses host_minimal CKB_SOURCE_GROUP_INPUT
          ++ [{| status := 2; content := [] |}]
    | _ => tx_witnesses host_minimal source
    end;
  tx_inputs := tx_inputs host_minimal;
  tx_cells := tx_cells host_minimal;
  tx_cell_data := tx_cell_data host_minimal;
  tx_cell_fields := tx_cell_fields host_minimal;
  tx_input_fields := tx_input_fields host_minimal;
  tx_hash := tx_hash host_minimal;
  tx_script := tx_script host_minimal;
  tx_inputs_len := 1;
  tx_secp_data := (0, [])
|}.

Definition with_script (h : Host) (script : bytes) : Host := {|
  tx_witnesses := tx_witnesses h;
  tx_inputs := tx_inputs h;
  tx_cells := tx_cells h;
  tx_cell_data := tx_cell_data h;
  tx_cell_fields := tx_cell_fields h;
  tx_input_fields := tx_input_fields h;
  tx_hash := tx_hash h;
  tx_script := ok script;
  tx_inputs_len := tx_inputs_len h;
  tx_secp_data := tx_secp_data h
|}.

(** The script arguments are the hash of another key. *)
Definition host_wrong_key : Host :=
  with_script host_minimal (script_of (repeat 0x31 32) 1 (repeat 0 20)).

(** The script arguments are 32 bytes long. *)
Definition host_long_args : Host :=
  with_script host_minimal (script_of (repeat 0x31 32) 1 (repeat 0 32)).

(** A signature whose recovery id is out of range. *)
Definition signature_bad_recid : bytes := repeat 0x21 64 ++ [9].

(** [host_minimal] with one more entry, out of bound, at the end of its
    lists of witnesses and inputs: a different record, the same reads. *)
Definition host_padded : Host := {|
  tx_witnesses := fun source => tx_witnesses host_minimal source ++ [out_of_bound];
  tx_inputs := fun source => tx_inputs host_minimal source ++ [out_of_bound];
  tx_cells := tx_cells host_minimal;
  tx_cell_data := tx_cell_data host_minimal;
  tx_cell_fields := tx_cell_fields host_minimal;
  tx_input_fields := tx_input_fields host_minimal;
  tx_hash := tx_hash host_minimal;
  tx_script := tx_script host_minimal;
  tx_inputs_len := tx_inputs_len host_minimal;
  tx_secp_data := tx_secp_data host_minimal
|}.

(** ** More vocabulary: ops, framed witnesses, uncovered outputs *)

(** Lines 208-210: the index and the mask of the op at position [j]. *)
Definition op_index_code (m : Machine) (witness : bytes)
    (lock_bytes_seg : mol_seg_t) (j : Z) : Z :=
  Z.lor
    (Z.shiftl (Z.land (sighash_array m witness lock_bytes_seg (j * 3 + 0)) 0xF)
       8)
    (sighash_array m witness lock_bytes_seg (j * 3 + 1)).

Definition op_mask (m : Machine) (witness : bytes)
    (lock_bytes_seg : mol_seg_t) (j : Z) : Z :=
  sighash_array m witness lock_bytes_seg (j * 3 + 2).

(** What the witness loops (lines 362-395) absorb for a list of witnesses:
    each one as its 8-byte length followed by its bytes. *)
Definition framed_witnesses (l : list object) : bytes :=
  concat (map (fun o => u64_bytes (zlen (content o)) ++ content o) l).

(** Two hosts answer every read alike, except the reads of the cell at
    index [k] of the outputs and the read of the transaction hash, which
    commits to every output. *)
Record same_reads_but_output (k : Z) (h1 h2 : Host) : Prop := {
  but_witness : forall len offset index source,
    ckb_load_witness h1 len offset index source
    = ckb_load_witness h2 len offset index source;
  but_input : forall len offset index source,
    ckb_load_input h1 len offset index source
    = ckb_load_input h2 len offset index source;
  but_cell : forall len offset index source,
    ~ (source = CKB_SOURCE_OUTPUT /\ index = k) ->
    ckb_load_cell h1 len offset index source
    = ckb_load_cell h2 len offset index source;
  but_cell_data : forall len offset index source,
    ~ (source = CKB_SOURCE_OUTPUT /\ index = k) ->
    ckb_load_cell_data h1 len offset index source
    = ckb_load_cell_data h2 len offset index source;
  but_cell_by_field : forall len offset index source field,
    ~ (source = CKB_SOURCE_OUTPUT /\ index = k) ->
    ckb_load_cell_by_field h1 len offset index source field
    = ckb_load_cell_by_field h2 len offset index source field;
  but_input_by_field : forall len offset index source field,
    ckb_checked_load_input_by_field h1 len offset index source field
    = ckb_checked_load_input_by_field h2 len offset index source field;
  but_script : forall len offset,
    ckb_load_script h1 len offset = ckb_load_script h2 len offset;
  but_inputs_len :
    ckb_calculate_inputs_len h1 = ckb_calculate_inputs_len h2;
  but_secp_data :
    ckb_secp256k1_custom_load_data h1 = ckb_secp256k1_custom_load_data h2
}.

(** More transactions for concrete runs. *)

(** An object larger than two batches of the streaming hasher. *)
Definition big_object : object := ok (repeat 7 (Z.to_nat 40000)).

Definition serve (o : object) : load_function :=
  fun len offset _ _ => syscall_load o len offset.

(** Coverage [OUTPUT(0, 0xFF)], [END_OF_LIST]. *)
Definition host_whole_output : Host :=
  ref_host ([0x10; 0; 0xFF; 0xF0; 0; 0] ++ ref_signature) [].

(** Coverage [INPUT_CELL_SINCE(0, 0xFF)], [END_OF_LIST]. *)
Definition host_whole_input_cell : Host :=
  ref_host ([0x30; 0; 0xFF; 0xF0; 0; 0] ++ ref_signature) [].

(** Coverage with the unknown label 7 (scenario "bad label"). *)
Definition host_bad_label : Host :=
  ref_host ([0x70; 0; 0; 0xF0; 0; 0] ++ ref_signature) [].

(** [h] with one more output: [cell] and [data] at output index 1, where
    [h] had nothing, and [hash] as the hash of the new transaction. *)
Definition with_more_outputs (h : Host) (cell data hash : bytes) : Host := {|
  tx_witnesses := tx_witnesses h;
  tx_inputs := tx_inputs h;
  tx_cells := fun source index =>
    match source with
    | CKB_SOURCE_OUTPUT => if index =? 1 then ok cell else tx_cells h source index
    | _ => tx_cells h source index
    end;
  tx_cell_data := fun source index =>
    match source with
    | CKB_SOURCE_OUTPUT =>
        if index =? 1 then ok data else tx_cell_data h source index
    | _ => tx_cell_data h source index
    end;
  tx_cell_fields := fun source index field =>
    match source with
    | CKB_SOURCE_OUTPUT =>
        if index =? 1 then ok cell else tx_cell_fields h source index field
    | _ => tx_cell_fields h source index field
    end;
  tx_input_fields := tx_input_fields h;
  tx_hash := ok hash;
  tx_script := tx_script h;
  tx_inputs_len := tx_inputs_len h;
  tx_secp_data := tx_secp_data h
|}.

(** A group with three witnesses and one witness beyond the inputs. *)
Definition host_more_witnesses : Host := {|
  tx_witnesses := fun source =>
    match source with
    | CKB_SOURCE_GROUP_INPUT =>
        tx_witnesses host_minimal CKB_SOURCE_GROUP_INPUT
          ++ [ok [1; 2; 3]; ok []]
    | CKB_SOURCE_INPUT =>
        tx_witnesses host_minimal CKB_SOURCE_INPUT ++ [ok [9; 9]]
    | CKB_SOURCE_OUTPUT => []
    end;
  tx_inputs := tx_inputs host_minimal;
  tx_cells := tx_cells host_minimal;
  tx_cell_data := tx_cell_data host_minimal;
  tx_cell_fields := tx_cell_fields host_minimal;
  tx_input_fields := tx_input_fields host_minimal;
  tx_hash := tx_hash host_minimal;
  tx_script := tx_script host_minimal;
  tx_inputs_len := 1;
  tx_secp_data := (0, [])
|}.

(** The group inputs are [ref_input], then an input whose load fails with
    host code 2. *)
Definition host_failing_input : Host := {|
  tx_witnesses := tx_witnesses host_minimal;
  tx_inputs := fun source =>
    tx_inputs host_minimal source ++ [{| status := 2; content := [] |}];
  tx_cells := tx_cells host_minimal;
  tx_cell_data := tx_cell_data host_minimal;
  tx_cell_fields := tx_cell_fields host_minimal;
  tx_input_fields := tx_input_fields host_minimal;
  tx_hash := tx_hash host_minimal;
  tx_script := tx_script host_minimal;
  tx_inputs_len := 1;
  tx_secp_data := (0, [])
|}.

(** The second witness of the group is one byte longer than the buffer. *)
Definition host_oversized_witness : Host := {|
  tx_witnesses := fun source =>
    match source with
    | CKB_SOURCE_GROUP_INPUT =>
        tx_witnesses host_minimal CKB_SOURCE_GROUP_INPUT
          ++ [ok (repeat 0 (Z.to_nat 32769))]
    | _ => tx_witnesses host_minimal source
    end;
  tx_inputs := tx_inputs host_minimal;
  tx_cells := tx_cells host_minimal;
  tx_cell_data := tx_cell_data host_minimal;
  tx_cell_fields := tx_cell_fields host_minimal;
  tx_input_fields := tx_input_fields host_minimal;
  tx_hash := tx_hash host_minimal;
  tx_script := tx_script host_minimal;
  tx_inputs_len := 1;
  tx_secp_data := (0, [])
|}.

(** The first witness is longer than the buffer; the first witness is not
    a [WitnessArgs]. *)
Definition with_first_witness (w : object) : Host := {|
  tx_witnesses := fun _ => [w];
  tx_inputs := tx_inputs host_minimal;
  tx_cells := tx_cells host_minimal;
  tx_cell_data := tx_cell_data host_minimal;
  tx_cell_fields := tx_cell_fields host_minimal;
  tx_input_fields := tx_input_fields host_minimal;
  tx_hash := tx_hash host_minimal;
  tx_script := tx_script host_minimal;
  tx_inputs_len := 1;
  tx_secp_data := (0, [])
|}.

Definition host_long_first_witness : Host :=
  with_first_witness (ok (repeat 0 (Z.to_nat 32769))).

Definition host_garbled_first_witness : Host :=
  with_first_witness (ok [1; 2; 3]).

(** [host_masked_output] where the host answers every read of a type
    script with [o]: with code 2 when the cells have no type script, with
    bytes that are no [Script]. *)
Definition with_type_script (o : object) : Host := {|
  tx_witnesses := tx_witnesses host_masked_output;
  tx_inputs := tx_inputs host_masked_output;
  tx_cells := tx_cells host_masked_output;
  tx_cell_data := tx_cell_data host_masked_output;
  tx_cell_fields := fun source index field =>
    match field with
    | CKB_CELL_FIELD_TYPE => o
    | _ => tx_cell_fields host_masked_output source index field
    end;
  tx_input_fields := tx_input_fields host_masked_output;
  tx_hash := tx_hash host_masked_output;
  tx_script := tx_script host_masked_output;
  tx_inputs_len := 1;
  tx_secp_data := (0, [])
|}.

Definition host_no_type_script : Host :=
  with_type_script {| status := 2; content := [] |}.

Definition host_garbled_type_script : Host :=
  with_type_script (ok [1; 2; 3]).

(** Whether one of the ops that the loop processes commits to output [k]:
    a [SIGHASH_ALL] op, whose transaction hash covers every output, or an
    [OUTPUT] op on index [k].  The ops processed are those from position
    [j] up to the first one that is [END_OF_LIST] or has an unknown label,
    within the guard of line 203. *)
Fixpoint commits_to_output (m : Machine) (fuel : nat) (witness : bytes)
    (lock_bytes_seg : mol_seg_t) (k j : Z) : bool :=
  match fuel with
  | O => false
  | S fuel' =>
      if j + 3 >? size lock_bytes_seg then false
      else
        let label := op_label m witness lock_bytes_seg j in
        if label =? LABEL_SIGHASH_ALL then true
        else if (label =? LABEL_OUTPUT)
                && (op_index_code m witness lock_bytes_seg j =? k) then true
        else if (label =? LABEL_OUTPUT) || (label =? LABEL_INPUT_CELL)
                || (label =? LABEL_INPUT_CELL_SINCE)
                || (label =? LABEL_INPUT_OUTPOINT)
        then commits_to_output m fuel' witness lock_bytes_seg k (j + 1)
        else false
  end.

(** The secp256k1 tables cannot be loaded (code 7 of the helper). *)
Definition host_no_secp_data : Host := {|
  tx_witnesses := tx_witnesses host_minimal;
  tx_inputs := tx_inputs host_minimal;
  tx_cells := tx_cells host_minimal;
  tx_cell_data := tx_cell_data host_minimal;
  tx_cell_fields := tx_cell_fields host_minimal;
  tx_input_fields := tx_input_fields host_minimal;
  tx_hash := tx_hash host_minimal;
  tx_script := tx_script host_minimal;
  tx_inputs_len := 1;
  tx_secp_data := (7, [])
|}.

(** The script cannot be loaded; the script is longer than the buffer; the
    script is not a [Script]. *)
Definition with_script_object (o : object) : Host := {|
  tx_witnesses := tx_witnesses host_minimal;
  tx_inputs := tx_inputs host_minimal;
  tx_cells := tx_cells host_minimal;
  tx_cell_data := tx_cell_data host_minimal;
  tx_cell_fields := tx_cell_fields host_minimal;
  tx_input_fields := tx_input_fields host_minimal;
  tx_hash := tx_hash host_minimal;
  tx_script := o;
  tx_inputs_len := 1;
  tx_secp_data := (0, [])
|}.

Definition host_script_refused : Host :=
  with_script_object {| status := 2; content := [] |}.

Definition host_script_too_long : Host :=
  with_script_object (ok (repeat 0 (Z.to_nat 32769))).

Definition host_script_garbled : Host := with_script_object (ok [1; 2; 3]).

(** A first witness whose [WitnessArgs] has no lock. *)
Definition host_no_lock : Host :=
  with_first_witness
    (ok (u32_bytes 16 ++ u32_bytes 16 ++ u32_bytes 16 ++ u32_bytes 16)).

(** [h] with other witnesses. *)
Definition with_witnesses (h : Host) (witnesses : Source -> list object)
  : Host := {|
  tx_witnesses := witnesses;
  tx_inputs := tx_inputs h;
  tx_cells := tx_cells h;
  tx_cell_data := tx_cell_data h;
  tx_cell_fields := tx_cell_fields h;
  tx_input_fields := tx_input_fields h;
  tx_hash := tx_hash h;
  tx_script := tx_script h;
  tx_inputs_len := tx_inputs_len h;
  tx_secp_data := tx_secp_data h
|}.

(** The witnesses of [host_minimal] with another signature in the first
    one. *)
Definition other_signature : bytes := repeat 0x55 64 ++ [2].

Definition resigned_witnesses (source : Source) : list object :=
  match source with
  | CKB_SOURCE_OUTPUT => []
  | _ => [ok (witness_args ([0xF0; 0; 0] ++ other_signature) [])]
  end.

(** Coverage with the unknown label 7 and no terminator. *)
Definition host_unknown_label : Host :=
  ref_host ([0x70; 0; 0] ++ ref_signature) [].

(** 66 zero lock bytes (22 [SIGHASH_ALL] ops) at the very end of the
    witness: what follows them in the buffer was never loaded. *)
Definition host_zero_lock : Host := ref_host (repeat 0 66) [].

(** [m] started on another stack: the same libraries, other bytes in the
    part of the witness buffer that no load wrote and behind the
    uninitialised [index_seg]. *)
Definition with_stale (m : Machine) (witness_bytes : Z -> Z)
    (index_bytes : Z -> bytes) : Machine := {|
  blake2b_hash := blake2b_hash m;
  MolReader_WitnessArgs_verify := MolReader_WitnessArgs_verify m;
  MolReader_WitnessArgs_get_lock := MolReader_WitnessArgs_get_lock m;
  MolReader_BytesOpt_is_none := MolReader_BytesOpt_is_none m;
  MolReader_Bytes_raw_bytes := MolReader_Bytes_raw_bytes m;
  MolReader_Script_verify := MolReader_Script_verify m;
  MolReader_Script_get_code_hash := MolReader_Script_get_code_hash m;
  MolReader_Script_get_args := MolReader_Script_get_args m;
  MolReader_Script_get_hash_type := MolReader_Script_get_hash_type m;
  MolReader_OutPoint_verify := MolReader_OutPoint_verify m;
  MolReader_OutPoint_get_tx_hash := MolReader_OutPoint_get_tx_hash m;
  ckb_secp256k1_custom_verify_only_initialize :=
    ckb_secp256k1_custom_verify_only_initialize m;
  secp256k1_ecdsa_recoverable_signature_parse_compact :=
    secp256k1_ecdsa_recoverable_signature_parse_compact m;
  secp256k1_ecdsa_recover := secp256k1_ecdsa_recover m;
  secp256k1_ec_pubkey_serialize := secp256k1_ec_pubkey_serialize m;
  stale_witness := witness_bytes;
  stale_since := stale_since m;
  stale_index_seg := index_bytes
|}.

Definition other_stack : Machine :=
  with_stale ref_machine (fun _ => 0xF0) (fun _ => 0xDD :: repeat 0xCC 63).

(** Whether one of the ops that the loop processes reads memory that no
    load wrote: an op that does not lie within the loaded witness, or an
    [INPUT_OUTPOINT] op that selects the index, which line 333 reads
    through the uninitialised [index_seg]. *)
Fixpoint reads_stale_memory (m : Machine) (fuel : nat) (witness : bytes)
    (lock_bytes_seg : mol_seg_t) (j : Z) : bool :=
  match fuel with
  | O => false
  | S fuel' =>
      if j + 3 >? size lock_bytes_seg then false
      else if negb ((0 <=? ptr lock_bytes_seg + j * 3)
                    && (ptr lock_bytes_seg + j * 3 + 3 <=? zlen witness))
      then true
      else
        let label := op_label m witness lock_bytes_seg j in
        let mask := op_mask m witness lock_bytes_seg j in
        if (label =? LABEL_INPUT_OUTPOINT) && (mask !=? MASK_OUTPOINT_ALL)
           && (Z.land mask MASK_OUTPOINT_INDEX !=? 0)
        then true
        else if (label =? LABEL_SIGHASH_ALL) || (label =? LABEL_OUTPUT)
                || (label =? LABEL_INPUT_CELL)
                || (label =? LABEL_INPUT_CELL_SINCE)
                || (label =? LABEL_INPUT_OUTPOINT)
        then reads_stale_memory m fuel' witness lock_bytes_seg (j + 1)
        else false
  end.

(** * Properties *)

(** ** Buffers *)

Lemma zlen_nonneg {A : Type} (l : list A) : 0 <= zlen l.
Proof. unfold zlen; lia. Qed.

Lemma zlen_app {A : Type} (l1 l2 : list A) :
  zlen (l1 ++ l2) = zlen l1 + zlen l2.
Proof. unfold zlen; rewrite length_app; lia. Qed.

Lemma firstn_zlen (l : bytes) : firstn (Z.to_nat (zlen l)) l = l.
Proof. unfold zlen; rewrite Nat2Z.id; apply firstn_all. Qed.

Lemma slice_whole (l : bytes) (n : Z) : zlen l <= n -> slice l 0 n = l.
Proof.
  intros Hn; unfold slice; simpl.
  apply firstn_all2; unfold zlen in Hn; lia.
Qed.

Lemma blake2b_update_whole (ctx data : bytes) :
  blake2b_update ctx data (zlen data) = ctx ++ data.
Proof. unfold blake2b_update; now rewrite firstn_zlen. Qed.

Lemma mem_set_from_length (buf : bytes) : forall pos addr n v,
  length (mem_set_from pos buf addr n v) = length buf.
Proof.
  induction buf as [|b rest IH]; intros; simpl; [reflexivity|].
  now rewrite IH.
Qed.

Lemma mem_set_from_nth (buf : bytes) : forall pos addr n v (k : nat),
  (k < length buf)%nat ->
  nth k (mem_set_from pos buf addr n v) 0 =
  if (addr <=? pos + Z.of_nat k) && (pos + Z.of_nat k <? addr + n)
  then v else nth k buf 0.
Proof.
  induction buf as [|b rest IH]; intros pos addr n v k Hk; simpl in Hk;
    [lia|].
  destruct k as [|k]; simpl.
  - now rewrite Z.add_0_r.
  - rewrite IH by lia.
    replace (pos + 1 + Z.of_nat k) with (pos + Z.pos (Pos.of_succ_nat k))
      by lia.
    reflexivity.
Qed.

(** Two buffers that differ only inside the zeroed range are equal after
    [mem_set]. *)
Lemma mem_set_from_erase (w1 : bytes) : forall (w2 : bytes) pos addr n v,
  length w1 = length w2 ->
  (forall k : nat, (k < length w1)%nat ->
     ~ (addr <= pos + Z.of_nat k < addr + n) -> nth k w1 0 = nth k w2 0) ->
  mem_set_from pos w1 addr n v = mem_set_from pos w2 addr n v.
Proof.
  induction w1 as [|b1 r1 IH]; intros [|b2 r2] pos addr n v Hlen Hout;
    simpl in *; try discriminate; [reflexivity|].
  f_equal.
  - destruct ((addr <=? pos) && (pos <? addr + n)) eqn:E; [reflexivity|].
    apply (Hout 0%nat); [lia|].
    apply andb_false_iff in E; destruct E as [E|E]; lia.
  - apply IH; [lia|].
    intros k Hk Hk'. apply (Hout (S k)); [lia|].
    intro; apply Hk'; lia.
Qed.

Lemma mem_read_length (buf : bytes) stale addr n :
  length (mem_read buf stale addr n) = Z.to_nat n.
Proof. unfold mem_read; now rewrite length_map, length_seq. Qed.

Lemma bytes_eqb_eq (a : bytes) : forall b, bytes_eqb a b = true <-> a = b.
Proof.
  induction a as [|x a IH]; intros [|y b]; simpl; split; intros H;
    try reflexivity; try discriminate.
  - apply andb_true_iff in H; destruct H as [Hx Hb].
    apply Z.eqb_eq in Hx; apply IH in Hb; now subst.
  - injection H as -> ->. rewrite Z.eqb_refl; simpl; now apply IH.
Qed.

(** ** Outcomes *)

Lemma bind_Continue {A B : Type} (x : outcome A) (k : A -> outcome B) b :
  bind x k = Continue b -> exists a, x = Continue a /\ k a = Continue b.
Proof. destruct x; simpl; intros H; try discriminate; eauto. Qed.

Lemma bind_Return {A B : Type} (x : outcome A) (k : A -> outcome B) c :
  bind x k = Return c ->
  x = Return c \/ exists a, x = Continue a /\ k a = Return c.
Proof.
  destruct x; simpl; intros H; try discriminate; eauto.
  injection H as ->; now left.
Qed.

(** ** The streaming hasher reads whole objects

    A loader that serves the object [o] at [index_code] of [source] makes
    [load_and_hash] absorb the whole content of [o], whatever its size, or
    return the status of [o] with the digest untouched. *)

Section Streaming.

Variable f : load_function.
Variable index_code : Z.
Variable source : Source.
Variable o : object.
Hypothesis f_serves : forall len offset,
  f len offset index_code source = syscall_load o len offset.

Lemma load_and_hash_loop_serves : forall fuel ctx offset,
  status o = CKB_SUCCESS ->
  0 <= offset <= zlen (content o) ->
  zlen (content o) - offset <= Z.of_nat fuel ->
  load_and_hash_loop fuel ctx index_code source f offset (zlen (content o))
  = Some (CKB_SUCCESS, ctx ++ skipn (Z.to_nat offset) (content o)).
Proof.
  induction fuel as [|fuel IH]; intros ctx offset Hst Hoff Hfuel.
  - simpl. assert (offset = zlen (content o)) by lia. subst offset.
    rewrite Z.ltb_irrefl. unfold zlen. rewrite Nat2Z.id, skipn_all.
    now rewrite app_nil_r.
  - cbn [load_and_hash_loop].
    destruct (offset <? zlen (content o)) eqn:Hlt.
    + apply Z.ltb_lt in Hlt.
      rewrite f_serves. unfold syscall_load. rewrite Hst. simpl negb.
      cbv iota. simpl negb. cbv iota.
      rewrite Z.max_r by lia.
      set (cr := if zlen (content o) - offset >? ONE_BATCH_SIZE
                 then ONE_BATCH_SIZE else zlen (content o) - offset).
      assert (Hcr : 1 <= cr <= ONE_BATCH_SIZE /\
                    cr <= zlen (content o) - offset).
      { unfold cr, ONE_BATCH_SIZE.
        destruct (zlen (content o) - offset >? 16384) eqn:E; lia. }
      rewrite IH by lia.
      f_equal. f_equal. unfold blake2b_update, slice.
      rewrite <- app_assoc. f_equal.
      rewrite firstn_firstn, Nat.min_l by lia.
      replace (Z.to_nat (offset + cr))
        with (Z.to_nat cr + Z.to_nat offset)%nat by lia.
      rewrite <- skipn_skipn. apply firstn_skipn.
    + apply Z.ltb_ge in Hlt.
      assert (offset = zlen (content o)) by lia. subst offset.
      unfold zlen. rewrite Nat2Z.id, skipn_all. now rewrite app_nil_r.
Qed.

Lemma load_and_hash_serves (ctx : blake2b_state) :
  load_and_hash ctx index_code source f =
  Some (if status o =? CKB_SUCCESS then (CKB_SUCCESS, ctx ++ content o)
        else (status o, ctx)).
Proof.
  unfold load_and_hash. rewrite f_serves. unfold syscall_load.
  destruct (status o =? CKB_SUCCESS) eqn:Hst; simpl negb; cbv iota.
  2: { now rewrite Hst. }
  apply Z.eqb_eq in Hst. simpl negb. cbv iota.
  pose proof (zlen_nonneg (content o)) as Hlen.
  rewrite Z.sub_0_r, Z.max_r by lia.
  set (off := if zlen (content o) >? ONE_BATCH_SIZE
              then ONE_BATCH_SIZE else zlen (content o)).
  assert (Hoff : 0 <= off <= ONE_BATCH_SIZE /\ off <= zlen (content o)).
  { unfold off, ONE_BATCH_SIZE.
    destruct (zlen (content o) >? 16384) eqn:E; lia. }
  rewrite load_and_hash_loop_serves by lia.
  f_equal. f_equal. unfold blake2b_update, slice. simpl skipn.
  rewrite <- app_assoc. f_equal.
  rewrite firstn_firstn, Nat.min_l by lia.
  apply firstn_skipn.
Qed.

End Streaming.

(** ** The digest only grows *)

Lemma extends_refl a : extends a a.
Proof. exists []; now rewrite app_nil_r. Qed.

Lemma extends_trans a b c : extends a b -> extends b c -> extends a c.
Proof.
  intros [r1 ->] [r2 ->]. exists (r1 ++ r2). now rewrite app_assoc.
Qed.

Lemma extends_app a r : extends a (a ++ r).
Proof. now exists r. Qed.

Lemma extends_update ctx data len : extends ctx (blake2b_update ctx data len).
Proof. apply extends_app. Qed.

Create HintDb digest.

#[local] Hint Resolve extends_refl extends_app extends_update : digest.

Ltac break_in H :=
  match type of H with
  | context [match ?x with _ => _ end] => destruct x eqn:?
  end.

Ltac outcome_inv :=
  repeat match goal with
  | H : bind _ _ = Continue _ |- _ =>
      apply bind_Continue in H; destruct H as (? & ? & ?)
  | H : Continue _ = Continue _ |- _ => injection H as ?; subst
  | H : (_, _) = (_, _) |- _ => injection H as ? ?; subst
  | H : Some _ = Some _ |- _ => injection H as ?; subst
  | H : Return _ = Continue _ |- _ => discriminate H
  | H : OutOfFuel = Continue _ |- _ => discriminate H
  end.

Section Facts.

Variable m : Machine.
Variable h : Host.

Lemma hash_input_eq ctx i source :
  hash_input h ctx i source =
  Some (if status (lookup (tx_inputs h source) i) =? CKB_SUCCESS
        then (CKB_SUCCESS, ctx ++ content (lookup (tx_inputs h source) i))
        else (status (lookup (tx_inputs h source) i), ctx)).
Proof. apply load_and_hash_serves; intros; reflexivity. Qed.

Lemma hash_cell_eq ctx i source :
  hash_cell h ctx i source =
  Some (if status (tx_cells h source i) =? CKB_SUCCESS
        then (CKB_SUCCESS, ctx ++ content (tx_cells h source i))
        else (status (tx_cells h source i), ctx)).
Proof. apply load_and_hash_serves; intros; reflexivity. Qed.

Lemma hash_cell_data_eq ctx i source :
  hash_cell_data h ctx i source =
  Some (if status (tx_cell_data h source i) =? CKB_SUCCESS
        then (CKB_SUCCESS, ctx ++ content (tx_cell_data h source i))
        else (status (tx_cell_data h source i), ctx)).
Proof. apply load_and_hash_serves; intros; reflexivity. Qed.

(** [call] on a hasher that served the object [o]. *)
Lemma call_served (o : object) (ctx : blake2b_state) :
  call (Some (if status o =? CKB_SUCCESS
              then (CKB_SUCCESS, ctx ++ content o) else (status o, ctx)))
  = if status o =? CKB_SUCCESS then Continue (ctx ++ content o)
    else Return (status o).
Proof.
  unfold call. destruct (status o =? CKB_SUCCESS) eqn:E; simpl.
  - reflexivity.
  - now rewrite E.
Qed.

Lemma call_Continue {A : Type} (r : option (Z * A)) a :
  call r = Continue a -> r = Some (CKB_SUCCESS, a).
Proof.
  unfold call. destruct r as [[ret x]|]; [|discriminate].
  destruct (ret =? CKB_SUCCESS) eqn:E; simpl; [|discriminate].
  intros H; injection H as ->. apply Z.eqb_eq in E. now subst.
Qed.

Lemma call_Return_nonzero {A : Type} (r : option (Z * A)) c :
  call r = Return c -> c <> 0.
Proof.
  unfold call. destruct r as [[ret x]|]; [|discriminate].
  destruct (ret =? CKB_SUCCESS) eqn:E; simpl; [discriminate|].
  intros H; injection H as ->. now apply Z.eqb_neq in E.
Qed.

Lemma hash_script_fields_extends ctx i source field masks :
  extends ctx (snd (hash_script_fields m h ctx i source field masks)).
Proof.
  unfold hash_script_fields.
  destruct (ckb_checked_load_cell_by_field h SCRIPT_SIZE 0 i source field)
    as [[ret len] script].
  destruct (ret !=? CKB_SUCCESS); [apply extends_refl|].
  destruct (_ !=? MOL_OK); [apply extends_refl|]. simpl snd.
  repeat match goal with
  | |- context [if ?c then _ else _] => destruct c
  end;
  repeat (eapply extends_trans; [|apply extends_update]);
  apply extends_refl.
Qed.

Lemma hash_script_fields_Continue ctx ctx' i source field masks :
  call (Some (hash_script_fields m h ctx i source field masks))
  = Continue ctx' -> extends ctx ctx'.
Proof.
  intros H. apply call_Continue in H. injection H as H.
  pose proof (hash_script_fields_extends ctx i source field masks) as E.
  now rewrite H in E.
Qed.

Lemma hash_cell_Continue ctx ctx' i source :
  call (hash_cell h ctx i source) = Continue ctx' -> extends ctx ctx'.
Proof.
  rewrite hash_cell_eq, call_served.
  destruct (_ =? _); intros H; outcome_inv. auto with digest.
Qed.

Lemma hash_cell_data_Continue ctx ctx' i source :
  call (hash_cell_data h ctx i source) = Continue ctx' -> extends ctx ctx'.
Proof.
  rewrite hash_cell_data_eq, call_served.
  destruct (_ =? _); intros H; outcome_inv. auto with digest.
Qed.

Lemma hash_input_Continue ctx ctx' i source :
  call (hash_input h ctx i source) = Continue ctx' -> extends ctx ctx'.
Proof.
  rewrite hash_input_eq, call_served.
  destruct (_ =? _); intros H; outcome_inv. auto with digest.
Qed.

Lemma component_sighash_all_extends ctx ctx' :
  component_sighash_all h ctx = Continue ctx' -> extends ctx ctx'.
Proof.
  unfold component_sighash_all. intros H.
  repeat break_in H; outcome_inv. auto with digest.
Qed.

Lemma hash_masked_cell_extends i mask source ctx ctx' :
  hash_masked_cell m h i mask source ctx = Continue ctx' -> extends ctx ctx'.
Proof.
  unfold hash_masked_cell. intros H.
  apply bind_Continue in H. destruct H as (c1 & H1 & H).
  apply bind_Continue in H. destruct H as (c2 & H2 & H).
  apply bind_Continue in H. destruct H as (c3 & H3 & H4).
  assert (E1 : extends ctx c1).
  { repeat break_in H1; outcome_inv; auto with digest. }
  assert (E2 : extends c1 c2).
  { destruct (_ !=? 0) in H2; outcome_inv; auto with digest.
    exact (hash_script_fields_Continue _ _ _ _ _ _ H2). }
  assert (E3 : extends c2 c3).
  { destruct (_ !=? 0) in H3; outcome_inv; auto with digest.
    exact (hash_script_fields_Continue _ _ _ _ _ _ H3). }
  assert (E4 : extends c3 ctx').
  { destruct (_ !=? 0) in H4; outcome_inv; auto with digest.
    exact (hash_cell_data_Continue _ _ _ _ H4). }
  exact (extends_trans _ _ _ E1
           (extends_trans _ _ _ E2 (extends_trans _ _ _ E3 E4))).
Qed.

Lemma component_cell_extends label i mask ctx ctx' :
  component_cell m h label i mask ctx = Continue ctx' -> extends ctx ctx'.
Proof.
  unfold component_cell. intros H.
  apply bind_Continue in H. destruct H as (c1 & H1 & H2).
  assert (E1 : extends ctx c1).
  { destruct (mask =? MASK_CELL_ALL).
    - apply bind_Continue in H1. destruct H1 as (c0 & H0 & H1).
      exact (extends_trans _ _ _ (hash_cell_Continue _ _ _ _ H0)
               (hash_cell_data_Continue _ _ _ _ H1)).
    - exact (hash_masked_cell_extends _ _ _ _ _ H1). }
  eapply extends_trans; [exact E1|].
  repeat break_in H2; outcome_inv; auto with digest.
Qed.

Lemma component_input_outpoint_extends pos i mask ctx ctx' :
  component_input_outpoint m h pos i mask ctx = Continue ctx' ->
  extends ctx ctx'.
Proof.
  unfold component_input_outpoint. intros H.
  destruct (mask =? MASK_OUTPOINT_ALL).
  { exact (hash_input_Continue _ _ _ _ H). }
  apply bind_Continue in H. destruct H as (c1 & H1 & H2).
  assert (E1 : extends ctx c1).
  { repeat break_in H1; outcome_inv; auto with digest. }
  eapply extends_trans; [exact E1|].
  destruct (ckb_checked_load_input_by_field h INPUT_SIZE 0 i
              CKB_SOURCE_INPUT CKB_INPUT_FIELD_OUT_POINT)
    as [[ret len] buf].
  destruct (ret !=? CKB_SUCCESS); [discriminate|].
  destruct (_ !=? MOL_OK); [discriminate|].
  outcome_inv.
  repeat match goal with
  | |- context [if ?c then _ else _] => destruct c
  end;
  repeat (eapply extends_trans; [|apply extends_update]);
  apply extends_refl.
Qed.

Lemma process_component_extends pos label i mask ctx more ctx' :
  process_component m h pos label i mask ctx = Continue (more, ctx') ->
  extends ctx ctx'.
Proof.
  unfold process_component. intros H.
  destruct (label =? LABEL_SIGHASH_ALL).
  { apply bind_Continue in H. destruct H as (c & H1 & H2).
    injection H2 as _ <-. exact (component_sighash_all_extends _ _ H1). }
  destruct (_ || _).
  { apply bind_Continue in H. destruct H as (c & H1 & H2).
    injection H2 as _ <-. exact (component_cell_extends _ _ _ _ _ H1). }
  destruct (label =? LABEL_INPUT_OUTPOINT).
  { apply bind_Continue in H. destruct H as (c & H1 & H2).
    injection H2 as _ <-.
    exact (component_input_outpoint_extends _ _ _ _ _ H1). }
  destruct (label =? LABEL_END_OF_LIST); [|discriminate].
  injection H as _ <-. apply extends_refl.
Qed.

Lemma process_sighash_array_extends witness seg :
  forall fuel i ctx i' ctx',
  process_sighash_array m h fuel witness seg i ctx = Continue (i', ctx') ->
  extends ctx ctx'.
Proof.
  induction fuel as [|fuel IH]; intros i ctx i' ctx' H;
    cbn [process_sighash_array] in H;
    destruct (i + 3 >? size seg); try discriminate.
  apply bind_Continue in H. destruct H as ([more c1] & H1 & H2).
  apply process_component_extends in H1.
  destruct more.
  - exact (extends_trans _ _ _ H1 (IH _ _ _ _ H2)).
  - injection H2 as _ <-. assumption.
Qed.

Lemma digest_witnesses_extends source :
  forall fuel i ctx ctx',
  digest_witnesses h fuel source i ctx = Continue ctx' -> extends ctx ctx'.
Proof.
  induction fuel as [|fuel IH]; intros i ctx ctx' H;
    cbn [digest_witnesses] in H; [discriminate|].
  destruct (ckb_load_witness h WITNESS_SIZE 0 i source) as [[ret len] temp].
  destruct (ret =? CKB_INDEX_OUT_OF_BOUND).
  { outcome_inv. apply extends_refl. }
  destruct (ret !=? CKB_SUCCESS); [discriminate|].
  destruct (len >? WITNESS_SIZE); [discriminate|].
  apply IH in H.
  eapply extends_trans; [|exact H].
  eapply extends_trans; apply extends_update.
Qed.

End Facts.

(** ** Phases end, and fail only with a non-zero code *)

Lemma proper_bind {A B : Type} (x : outcome A) (k : A -> outcome B) :
  proper x -> (forall a, proper (k a)) -> proper (bind x k).
Proof. destruct x; simpl; auto. Qed.

Lemma proper_call_served {A : Type} (r : Z * A) : proper (call (Some r)).
Proof.
  destruct r as [ret a]. unfold call. destruct (ret !=? CKB_SUCCESS) eqn:E; simpl; [|exact I].
  apply negb_true_iff, Z.eqb_neq in E. exact E.
Qed.

Lemma proper_Return {A : Type} (ret : Z) :
  (ret !=? CKB_SUCCESS) = true -> proper (@Return A ret).
Proof. intros E. apply negb_true_iff, Z.eqb_neq in E. exact E. Qed.

Lemma lookup_ok_range (l : list object) (i : Z) :
  status (lookup l i) = CKB_SUCCESS -> 0 <= i < zlen l.
Proof.
  unfold lookup. destruct (Z.ltb_spec i 0); [discriminate|].
  intros Hst. split; [assumption|].
  destruct (Z.ltb_spec i (zlen l)) as [?|Hge]; [assumption|].
  rewrite nth_overflow in Hst; [discriminate|].
  unfold zlen in Hge. lia.
Qed.

Lemma skipn_lookup (l : list object) (i : Z) :
  0 <= i < zlen l ->
  skipn (Z.to_nat i) l = lookup l i :: skipn (Z.to_nat (i + 1)) l.
Proof.
  intros Hi. unfold lookup.
  destruct (Z.ltb_spec i 0); [lia|].
  replace (Z.to_nat (i + 1)) with (S (Z.to_nat i)) by lia.
  assert (Hn : (Z.to_nat i < length l)%nat) by (unfold zlen in Hi; lia).
  revert Hn. generalize (Z.to_nat i) as n. clear.
  induction l as [|x l IH]; intros [|n] Hn; simpl in *; try lia;
    [reflexivity|].
  apply IH. lia.
Qed.

Ltac proper_cases :=
  repeat match goal with
  | |- proper (Continue _) => exact I
  | |- proper (Return ?c) =>
      first [ now (unfold c; simpl; discriminate)
            | now (apply proper_Return; assumption) ]
  | |- proper (call (Some _)) => apply proper_call_served
  | |- proper (bind _ _) => apply proper_bind; [|intros ?]
  | |- proper (let '(_, _) := ?x in _) => destruct x
  | |- proper (if ?c then _ else _) => destruct c eqn:?
  | |- proper (match ?x with _ => _ end) => destruct x eqn:?
  end.

Section Proper.

Variable m : Machine.
Variable h : Host.

Lemma proper_hash_input ctx i source :
  proper (call (hash_input h ctx i source)).
Proof.
  rewrite hash_input_eq. destruct (_ =? _); apply proper_call_served.
Qed.

Lemma proper_hash_cell ctx i source : proper (call (hash_cell h ctx i source)).
Proof.
  rewrite hash_cell_eq. destruct (_ =? _); apply proper_call_served.
Qed.

Lemma proper_hash_cell_data ctx i source :
  proper (call (hash_cell_data h ctx i source)).
Proof.
  rewrite hash_cell_data_eq. destruct (_ =? _); apply proper_call_served.
Qed.

Lemma proper_component_sighash_all ctx : proper (component_sighash_all h ctx).
Proof. unfold component_sighash_all. proper_cases. Qed.

Lemma proper_hash_masked_cell i mask source ctx :
  proper (hash_masked_cell m h i mask source ctx).
Proof.
  unfold hash_masked_cell.
  apply proper_bind; [proper_cases|intros c1].
  apply proper_bind; [proper_cases|intros c2].
  apply proper_bind; [proper_cases|intros c3].
  destruct (_ !=? 0); [apply proper_hash_cell_data|exact I].
Qed.

Lemma proper_component_cell label i mask ctx :
  proper (component_cell m h label i mask ctx).
Proof.
  unfold component_cell.
  apply proper_bind.
  - destruct (mask =? MASK_CELL_ALL).
    + apply proper_bind; [apply proper_hash_cell|intros c].
      apply proper_hash_cell_data.
    + apply proper_hash_masked_cell.
  - intros c. proper_cases.
Qed.

Lemma proper_component_input_outpoint pos i mask ctx :
  proper (component_input_outpoint m h pos i mask ctx).
Proof.
  unfold component_input_outpoint.
  destruct (mask =? MASK_OUTPOINT_ALL); [apply proper_hash_input|].
  apply proper_bind; [proper_cases|intros c1].
  proper_cases.
Qed.

Lemma proper_process_component pos label i mask ctx :
  proper (process_component m h pos label i mask ctx).
Proof.
  unfold process_component.
  destruct (label =? LABEL_SIGHASH_ALL).
  { apply proper_bind; [apply proper_component_sighash_all|intros; exact I]. }
  destruct (_ || _).
  { apply proper_bind; [apply proper_component_cell|intros; exact I]. }
  destruct (label =? LABEL_INPUT_OUTPOINT).
  { apply proper_bind; [apply proper_component_input_outpoint|intros; exact I]. }
  destruct (label =? LABEL_END_OF_LIST); [exact I|].
  unfold ERROR_INVALID_LABEL. simpl. discriminate.
Qed.

Lemma proper_process_sighash_array witness seg :
  forall fuel i ctx,
  size seg - i - 2 <= Z.of_nat fuel ->
  proper (process_sighash_array m h fuel witness seg i ctx).
Proof.
  induction fuel as [|fuel IH]; intros i ctx Hfuel;
    cbn [process_sighash_array];
    destruct (i + 3 >? size seg) eqn:G;
    try (unfold ERROR_INVALID_LABEL; simpl; discriminate).
  - exfalso. lia.
  - apply proper_bind; [apply proper_process_component|].
    intros [more c]. destruct more; [|exact I].
    apply IH. lia.
Qed.

Lemma proper_hash_group_inputs :
  forall fuel i ctx,
  0 <= i <= zlen (tx_inputs h CKB_SOURCE_GROUP_INPUT) ->
  zlen (tx_inputs h CKB_SOURCE_GROUP_INPUT) - i < Z.of_nat fuel ->
  proper (hash_group_inputs h fuel i ctx).
Proof.
  induction fuel as [|fuel IH]; intros i ctx Hi Hfuel; [lia|].
  cbn [hash_group_inputs]. rewrite hash_input_eq.
  set (o := lookup (tx_inputs h CKB_SOURCE_GROUP_INPUT) i).
  destruct (status o =? CKB_SUCCESS) eqn:Hst.
  - apply Z.eqb_eq in Hst. rewrite Z.eqb_refl. simpl. 
    pose proof (lookup_ok_range _ _ Hst) as Hin.
    apply IH; lia.
  - destruct (status o =? CKB_INDEX_OUT_OF_BOUND); [exact I|].
    rewrite Hst. simpl. now apply Z.eqb_neq in Hst.
Qed.

Lemma proper_digest_witnesses source :
  forall fuel i ctx,
  (1 <= fuel)%nat ->
  (0 <= i -> zlen (tx_witnesses h source) - i < Z.of_nat fuel) ->
  proper (digest_witnesses h fuel source i ctx).
Proof.
  induction fuel as [|fuel IH]; intros i ctx Hpos Hfuel; [lia|].
  cbn [digest_witnesses]. unfold ckb_load_witness, syscall_load.
  set (o := lookup (tx_witnesses h source) i).
  destruct (status o =? CKB_SUCCESS) eqn:Hst; simpl negb; cbv iota.
  - apply Z.eqb_eq in Hst. pose proof (lookup_ok_range _ _ Hst) as Hin.
    change (CKB_SUCCESS =? CKB_INDEX_OUT_OF_BOUND) with false. cbv iota.
    simpl negb. cbv iota.
    destruct (_ >? WITNESS_SIZE).
    + unfold ERROR_WITNESS_SIZE; simpl; discriminate.
    + apply IH; lia.
  - destruct (status o =? CKB_INDEX_OUT_OF_BOUND); [exact I|].
    rewrite Hst. simpl. unfold ERROR_SYSCALL. discriminate.
Qed.

End Proper.

(** ** [main] as a whole *)

Section MainFacts.

Variable m : Machine.
Variable h : Host.

Lemma proper_load_first_witness : proper (load_first_witness m h).
Proof.
  unfold load_first_witness. proper_cases.
Qed.

Lemma proper_digest_first_witness witness witness_len seg i ctx :
  proper (digest_first_witness m witness witness_len seg i ctx).
Proof. unfold digest_first_witness. proper_cases. Qed.

Lemma proper_main_absorb : proper (main_absorb m h).
Proof.
  unfold main_absorb.
  apply proper_bind; [apply proper_load_first_witness|].
  intros [[witness witness_len] seg].
  apply proper_bind.
  { apply proper_hash_group_inputs; unfold zlen; lia. }
  intros g.
  apply proper_bind.
  { apply proper_process_sighash_array. lia. }
  intros [i c1].
  apply proper_bind; [apply proper_digest_first_witness|].
  intros [[signature_bytes w'] c2].
  apply proper_bind.
  { apply proper_digest_witnesses; unfold zlen; lia. }
  intros c3.
  apply proper_bind; [|intros; exact I].
  apply proper_digest_witnesses; unfold zlen; lia.
Qed.

Lemma verify_signature_returns signature_bytes message :
  exists code, verify_signature m h signature_bytes message = Return code.
Proof.
  unfold verify_signature.
  repeat match goal with
  | |- exists _, (let '(_, _) := ?x in _) = _ => destruct x
  | |- exists _, (if ?c then _ else _) = _ => destruct c
  | |- exists _, (match ?x with _ => _ end) = _ => destruct x
  end; eexists; reflexivity.
Qed.

(** The verifier always returns: no loop of the program runs past its
    bound. *)
Lemma main_returns : exists code, main m h = Return code.
Proof.
  unfold main, main_message.
  pose proof proper_main_absorb as P.
  destruct (main_absorb m h) as [[signature_bytes ctx]|code|]; simpl in *.
  - apply verify_signature_returns.
  - eauto.
  - contradiction.
Qed.

(** A successful digest went through every phase. *)
Lemma main_absorb_inv signature_bytes ctx :
  main_absorb m h = Continue (signature_bytes, ctx) ->
  exists witness witness_len seg g i c1 w' c2 c3,
    load_first_witness m h = Continue (witness, witness_len, seg) /\
    hash_group_inputs h (S (length (tx_inputs h CKB_SOURCE_GROUP_INPUT))) 0
      (blake2b_init BLAKE2B_BLOCK_SIZE) = Continue g /\
    process_sighash_array m h (Z.to_nat (size seg)) witness seg 0 g
      = Continue (i, c1) /\
    digest_first_witness m witness witness_len seg i c1
      = Continue (signature_bytes, w', c2) /\
    digest_witnesses h (S (length (tx_witnesses h CKB_SOURCE_GROUP_INPUT)))
      CKB_SOURCE_GROUP_INPUT 1 c2 = Continue c3 /\
    digest_witnesses h (S (length (tx_witnesses h CKB_SOURCE_INPUT)))
      CKB_SOURCE_INPUT (ckb_calculate_inputs_len h) c3 = Continue ctx.
Proof.
  unfold main_absorb. intros H.
  apply bind_Continue in H. destruct H as ([[witness witness_len] seg] & H0 & H).
  apply bind_Continue in H. destruct H as (g & H1 & H).
  apply bind_Continue in H. destruct H as ([i c1] & H2 & H).
  apply bind_Continue in H. destruct H as ([[sg w'] c2] & H3 & H).
  apply bind_Continue in H. destruct H as (c3 & H4 & H).
  apply bind_Continue in H. destruct H as (c4 & H5 & H).
  injection H as -> ->.
  exists witness, witness_len, seg, g, i, c1, w', c2, c3. auto 10.
Qed.

(** [main] returns 0 only at its last statement. *)
Lemma main_success_inv :
  main m h = Return 0 ->
  exists signature_bytes ctx,
    main_absorb m h = Continue (signature_bytes, ctx) /\
    verify_signature m h signature_bytes
      (blake2b_final m ctx BLAKE2B_BLOCK_SIZE) = Return 0.
Proof.
  unfold main, main_message. intros H.
  pose proof proper_main_absorb as P.
  destruct (main_absorb m h) as [[signature_bytes ctx]|code|]; simpl in *.
  - eauto.
  - injection H as ->. contradiction.
  - contradiction.
Qed.

Lemma process_component_more pos label i mask ctx more ctx' :
  process_component m h pos label i mask ctx = Continue (more, ctx') ->
  more = negb (label =? LABEL_END_OF_LIST).
Proof.
  unfold process_component. intros H.
  destruct (label =? LABEL_SIGHASH_ALL) eqn:E0.
  { apply Z.eqb_eq in E0; subst label. outcome_inv. reflexivity. }
  destruct (_ || _) eqn:E1.
  { outcome_inv.
    destruct (label =? LABEL_END_OF_LIST) eqn:E; [|reflexivity].
    apply Z.eqb_eq in E; subst label. discriminate E1. }
  destruct (label =? LABEL_INPUT_OUTPOINT) eqn:E2.
  { apply Z.eqb_eq in E2; subst label. outcome_inv. reflexivity. }
  destruct (label =? LABEL_END_OF_LIST); [|discriminate].
  outcome_inv. reflexivity.
Qed.

(** When the loop ends normally the last op read is the first
    [END_OF_LIST], and the guard of line 203 held for it. *)
Lemma process_sighash_array_ends witness seg :
  forall fuel i ctx i' ctx',
  process_sighash_array m h fuel witness seg i ctx = Continue (i', ctx') ->
  i < i' /\ (i' - 1) + 3 <= size seg /\
  op_label m witness seg (i' - 1) = LABEL_END_OF_LIST /\
  (forall j, i <= j < i' - 1 -> op_label m witness seg j <> LABEL_END_OF_LIST).
Proof.
  induction fuel as [|fuel IH]; intros i ctx i' ctx' H;
    cbn [process_sighash_array] in H;
    destruct (i + 3 >? size seg) eqn:G; try discriminate.
  apply bind_Continue in H. destruct H as ([more c1] & H1 & H2).
  apply process_component_more in H1.
  destruct more.
  - apply IH in H2. destruct H2 as (Hlt & Hg & Hend & Hbefore).
    repeat split; try assumption; try lia.
    intros j Hj. destruct (Z.eq_dec j i) as [->|Hne].
    + unfold op_label. intros E. rewrite E in H1. discriminate H1.
    + apply Hbefore. lia.
  - injection H2 as <- <-.
    replace (i + 1 - 1) with i by lia.
    repeat split; try lia.
    unfold op_label.
    destruct (_ =? LABEL_END_OF_LIST) eqn:E in H1; [|discriminate].
    now apply Z.eqb_eq in E.
Qed.

End MainFacts.

(** ** The size equation and the terminator *)

Lemma digest_first_witness_size (m : Machine) witness witness_len seg i ctx r :
  digest_first_witness m witness witness_len seg i ctx = Continue r ->
  size seg = 3 * i + SIGNATURE_SIZE.
Proof.
  unfold digest_first_witness.
  destruct (size seg =? i * 3 + SIGNATURE_SIZE) eqn:E; simpl negb; cbv iota;
    [|discriminate].
  intros _. apply Z.eqb_eq in E. lia.
Qed.

(** A run that returns 0 ended its coverage loop on an [END_OF_LIST] at
    position [i - 1], with the lock bytes [3 * i + 65] long. *)
Lemma main_success_ops (m : Machine) (h : Host) :
  main m h = Return 0 ->
  exists witness witness_len seg g i ctx,
    load_first_witness m h = Continue (witness, witness_len, seg) /\
    process_sighash_array m h (Z.to_nat (size seg)) witness seg 0 g
      = Continue (i, ctx) /\
    op_label m witness seg (i - 1) = LABEL_END_OF_LIST /\
    size seg = 3 * i + SIGNATURE_SIZE.
Proof.
  intros H. apply main_success_inv in H.
  destruct H as (sg & ctx & Habs & _).
  apply main_absorb_inv in Habs.
  destruct Habs as (witness & witness_len & seg & g & i & c1 & w' & c2 & c3
                    & H0 & H1 & H2 & H3 & _).
  exists witness, witness_len, seg, g, i, c1.
  pose proof (process_sighash_array_ends _ _ _ _ _ _ _ _ _ H2)
    as (_ & _ & Hend & _).
  repeat split; try assumption.
  eapply digest_first_witness_size; eauto.
Qed.

(** A coverage loop that ends with [i] ops consumed on lock bytes of
    another size than [3 * i + 65] makes [main] return
    [ERROR_ARGUMENTS_LEN]. *)
Lemma main_size_mismatch (m : Machine) (h : Host)
    witness witness_len seg g i ctx :
  load_first_witness m h = Continue (witness, witness_len, seg) ->
  hash_group_inputs h (S (length (tx_inputs h CKB_SOURCE_GROUP_INPUT))) 0
    (blake2b_init BLAKE2B_BLOCK_SIZE) = Continue g ->
  process_sighash_array m h (Z.to_nat (size seg)) witness seg 0 g
    = Continue (i, ctx) ->
  size seg <> 3 * i + SIGNATURE_SIZE ->
  main m h = Return ERROR_ARGUMENTS_LEN.
Proof.
  intros H0 H1 H2 Hne.
  unfold main, main_message, main_absorb.
  rewrite H0. cbv beta iota zeta delta [bind].
  rewrite H1. cbv beta iota zeta delta [bind].
  rewrite H2. cbv beta iota zeta delta [bind].
  unfold digest_first_witness.
  destruct (size seg =? i * 3 + SIGNATURE_SIZE) eqn:E; cbn [negb].
  - apply Z.eqb_eq in E. lia.
  - reflexivity.
Qed.

(** C4. The verifier succeeds only when the lock bytes are exactly the ops
    consumed, terminator included, followed by the 65 signature bytes;
    lock bytes of at most 65 bytes are refused with [ERROR_ARGUMENTS_LEN]
    by the first phase, before the digest session is opened; and when the
    coverage loop ends with [i] ops consumed and
    [size <> 3 * i + 65], [main] returns [ERROR_ARGUMENTS_LEN]. *)
Theorem size_equation (m : Machine) (h : Host) :
  (main m h = Return 0 ->
   exists witness witness_len seg g i ctx,
     load_first_witness m h = Continue (witness, witness_len, seg) /\
     process_sighash_array m h (Z.to_nat (size seg)) witness seg 0 g
       = Continue (i, ctx) /\
     op_label m witness seg (i - 1) = LABEL_END_OF_LIST /\
     size seg = 3 * i + SIGNATURE_SIZE) /\
  (forall witness witness_len seg,
     ckb_load_witness h WITNESS_SIZE 0 0 CKB_SOURCE_GROUP_INPUT
       = (CKB_SUCCESS, witness_len, witness) ->
     witness_len <= WITNESS_SIZE ->
     extract_witness_lock m witness witness_len = (CKB_SUCCESS, seg) ->
     size seg <= SIGNATURE_SIZE ->
     load_first_witness m h = Return ERROR_ARGUMENTS_LEN /\
     main m h = Return ERROR_ARGUMENTS_LEN) /\
  (forall witness witness_len seg g i ctx,
     load_first_witness m h = Continue (witness, witness_len, seg) ->
     hash_group_inputs h (S (length (tx_inputs h CKB_SOURCE_GROUP_INPUT))) 0
       (blake2b_init BLAKE2B_BLOCK_SIZE) = Continue g ->
     process_sighash_array m h (Z.to_nat (size seg)) witness seg 0 g
       = Continue (i, ctx) ->
     size seg <> 3 * i + SIGNATURE_SIZE ->
     main m h = Return ERROR_ARGUMENTS_LEN).
Proof.
  split; [|split].
  - apply main_success_ops.
  - intros witness witness_len seg Hload Hlen Hlock Hsize.
    assert (L : load_first_witness m h = Return ERROR_ARGUMENTS_LEN).
    { unfold load_first_witness. rewrite Hload. simpl negb. cbv iota.
      destruct (witness_len >? WITNESS_SIZE) eqn:E; [lia|].
      rewrite Hlock. simpl negb. cbv iota.
      destruct (size seg <=? SIGNATURE_SIZE) eqn:E'; [reflexivity|lia]. }
    split; [exact L|].
    unfold main, main_message, main_absorb. now rewrite L.
  - apply main_size_mismatch.
Qed.

Lemma size_equation_witness :
  (exists witness witness_len seg g i ctx,
     load_first_witness ref_machine host_minimal
       = Continue (witness, witness_len, seg) /\
     process_sighash_array ref_machine host_minimal (Z.to_nat (size seg))
       witness seg 0 g = Continue (i, ctx) /\
     op_label ref_machine witness seg (i - 1) = LABEL_END_OF_LIST /\
     size seg = 3 * i + SIGNATURE_SIZE) /\
  main ref_machine host_short_lock = Return ERROR_ARGUMENTS_LEN /\
  main ref_machine host_size_mismatch = Return ERROR_ARGUMENTS_LEN.
Proof.
  split; [|split].
  - apply (proj1 (size_equation ref_machine host_minimal)).
    vm_compute. reflexivity.
  - eapply (proj1 (proj2 (size_equation ref_machine host_short_lock))).
    + vm_compute. reflexivity.
    + vm_compute. discriminate.
    + vm_compute. reflexivity.
    + vm_compute. discriminate.
  - eapply (proj2 (proj2 (size_equation ref_machine host_size_mismatch))).
    + vm_compute. reflexivity.
    + vm_compute. reflexivity.
    + vm_compute. reflexivity.
    + vm_compute. discriminate.
Defined.

(** C5, as stated, fails: the coverage region of these lock bytes holds one
    [SIGHASH_ALL] op and no [END_OF_LIST]; the loop goes on into the
    signature, whose first byte reads as [END_OF_LIST], and [main] returns
    [ERROR_ARGUMENTS_LEN], not [ERROR_INVALID_LABEL]. *)
Lemma terminator_found_in_signature :
  exists witness witness_len seg,
    load_first_witness ref_machine host_terminator_in_signature
      = Continue (witness, witness_len, seg) /\
    size seg = 68 /\
    has_terminator ref_machine witness seg = false /\
    main ref_machine host_terminator_in_signature
      = Return ERROR_ARGUMENTS_LEN /\
    main ref_machine host_terminator_in_signature
      <> Return ERROR_INVALID_LABEL.
Proof.
  do 3 eexists. split; [vm_compute; reflexivity|].
  split; [vm_compute; reflexivity|].
  split; [vm_compute; reflexivity|].
  split; [vm_compute; reflexivity|].
  vm_compute. discriminate.
Qed.

Lemma has_terminator_at (m : Machine) witness seg (j : Z) :
  0 <= j < coverage_ops seg ->
  op_label m witness seg j = LABEL_END_OF_LIST ->
  has_terminator m witness seg = true.
Proof.
  intros Hj Hlabel. unfold has_terminator.
  apply existsb_exists. exists (Z.to_nat j). split.
  - apply in_seq. lia.
  - rewrite Z2Nat.id by lia. now apply Z.eqb_eq.
Qed.

(** ** Witness loads *)

Lemma digest_witnesses_fails (h : Host) (source : Source) :
  forall (n fuel : nat) i ctx,
  0 <= i ->
  (forall j, (j < n)%nat ->
     status (lookup (tx_witnesses h source) (i + Z.of_nat j)) = CKB_SUCCESS /\
     zlen (content (lookup (tx_witnesses h source) (i + Z.of_nat j)))
       <= WITNESS_SIZE) ->
  status (lookup (tx_witnesses h source) (i + Z.of_nat n)) <> CKB_SUCCESS ->
  status (lookup (tx_witnesses h source) (i + Z.of_nat n))
    <> CKB_INDEX_OUT_OF_BOUND ->
  (n < fuel)%nat ->
  digest_witnesses h fuel source i ctx = Return ERROR_SYSCALL.
Proof.
  induction n as [|n IH]; intros fuel i ctx Hi Hok Hfail Hnot Hfuel;
    (destruct fuel as [|fuel]; [lia|]);
    cbn [digest_witnesses]; unfold ckb_load_witness, syscall_load.
  - rewrite Z.add_0_r in Hfail, Hnot.
    apply Z.eqb_neq in Hfail, Hnot. rewrite Hfail. simpl negb. cbv iota.
    rewrite Hnot, Hfail. reflexivity.
  - destruct (Hok 0%nat ltac:(lia)) as [Hst Hlen].
    rewrite Z.add_0_r in Hst, Hlen. rewrite Hst.
    change (CKB_SUCCESS !=? CKB_SUCCESS) with false. cbv iota.
    change (CKB_SUCCESS =? CKB_INDEX_OUT_OF_BOUND) with false. cbv iota.
    change (CKB_SUCCESS !=? CKB_SUCCESS) with false. cbv iota.
    rewrite Z.sub_0_r, Z.max_r by apply zlen_nonneg.
    destruct (_ >? WITNESS_SIZE) eqn:E; [lia|].
    apply IH; try lia.
    + intros j Hj. specialize (Hok (S j) ltac:(lia)).
      now replace (i + 1 + Z.of_nat j) with (i + Z.of_nat (S j)) by lia.
    + now replace (i + 1 + Z.of_nat n) with (i + Z.of_nat (S n)) by lia.
    + now replace (i + 1 + Z.of_nat n) with (i + Z.of_nat (S n)) by lia.
Qed.

Lemma digest_witnesses_codes (h : Host) (source : Source) :
  forall fuel i ctx code,
  digest_witnesses h fuel source i ctx = Return code ->
  code = ERROR_SYSCALL \/ code = ERROR_WITNESS_SIZE.
Proof.
  induction fuel as [|fuel IH]; intros i ctx code H;
    cbn [digest_witnesses] in H; [discriminate|].
  destruct (ckb_load_witness h WITNESS_SIZE 0 i source) as [[ret len] temp].
  destruct (ret =? CKB_INDEX_OUT_OF_BOUND); [discriminate|].
  destruct (ret !=? CKB_SUCCESS); [injection H as <-; now left|].
  destruct (len >? WITNESS_SIZE); [injection H as <-; now right|].
  eapply IH; eauto.
Qed.

(** C10. A first witness that does not load, for whatever reason, makes
    [main] return [ERROR_SYSCALL]; this includes a group without a first
    witness, for which the host answers [CKB_INDEX_OUT_OF_BOUND].  In the
    two witness loops a load that fails with a code other than
    [CKB_INDEX_OUT_OF_BOUND], after [n] witnesses that loaded and fit the
    buffer, ends the loop with [ERROR_SYSCALL]; the loops return no other
    code than [ERROR_SYSCALL] and [ERROR_WITNESS_SIZE], so the code of the
    host is never passed on. *)
Theorem witness_load_failures (m : Machine) (h : Host) :
  (status (lookup (tx_witnesses h CKB_SOURCE_GROUP_INPUT) 0) <> CKB_SUCCESS ->
   main m h = Return ERROR_SYSCALL) /\
  (status (lookup (tx_witnesses h CKB_SOURCE_GROUP_INPUT) 0)
     = CKB_INDEX_OUT_OF_BOUND ->
   main m h = Return ERROR_SYSCALL) /\
  (forall source (n fuel : nat) i ctx,
     0 <= i ->
     (forall j, (j < n)%nat ->
        status (lookup (tx_witnesses h source) (i + Z.of_nat j))
          = CKB_SUCCESS /\
        zlen (content (lookup (tx_witnesses h source) (i + Z.of_nat j)))
          <= WITNESS_SIZE) ->
     status (lookup (tx_witnesses h source) (i + Z.of_nat n))
       <> CKB_SUCCESS ->
     status (lookup (tx_witnesses h source) (i + Z.of_nat n))
       <> CKB_INDEX_OUT_OF_BOUND ->
     (n < fuel)%nat ->
     digest_witnesses h fuel source i ctx = Return ERROR_SYSCALL) /\
  (forall source fuel i ctx code,
     digest_witnesses h fuel source i ctx = Return code ->
     code = ERROR_SYSCALL \/ code = ERROR_WITNESS_SIZE).
Proof.
  assert (First : status (lookup (tx_witnesses h CKB_SOURCE_GROUP_INPUT) 0)
                    <> CKB_SUCCESS -> main m h = Return ERROR_SYSCALL).
  { intros Hst. unfold main, main_message, main_absorb, load_first_witness.
    unfold ckb_load_witness, syscall_load.
    apply Z.eqb_neq in Hst. rewrite Hst. simpl negb. cbv iota.
    rewrite Hst. reflexivity. }
  split; [exact First|].
  split.
  { intros Hst. apply First. rewrite Hst. discriminate. }
  split.
  - intros source. apply digest_witnesses_fails.
  - intros source. apply digest_witnesses_codes.
Qed.

Lemma witness_load_failures_witness :
  main ref_machine host_no_witness = Return ERROR_SYSCALL /\
  main ref_machine host_no_witness = Return ERROR_SYSCALL /\
  digest_witnesses host_failing_witness 2 CKB_SOURCE_GROUP_INPUT 1 []
    = Return ERROR_SYSCALL /\
  (ERROR_SYSCALL = ERROR_SYSCALL \/ ERROR_SYSCALL = ERROR_WITNESS_SIZE).
Proof.
  destruct (witness_load_failures ref_machine host_no_witness)
    as (First & Absent & _ & _).
  destruct (witness_load_failures ref_machine host_failing_witness)
    as (_ & _ & Loop & Codes).
  split; [|split; [|split]].
  - apply First. vm_compute. discriminate.
  - apply Absent. vm_compute. reflexivity.
  - apply (Loop CKB_SOURCE_GROUP_INPUT 0%nat 2%nat 1 []).
    + lia.
    + intros j Hj. lia.
    + vm_compute. discriminate.
    + vm_compute. discriminate.
    + lia.
  - apply (Codes CKB_SOURCE_GROUP_INPUT 2%nat 1 [] ERROR_SYSCALL).
    vm_compute. reflexivity.
Defined.

(** ** The guard of the coverage loop *)

(** C2, on the program. The guard of line 203 compares [i + 3], not
    [(i + 1) * 3], with the size of the lock bytes.  With 66 lock bytes
    the op at position 22 lies at offsets 66..68, past their end; the guard
    lets it through, the op is read from the bytes that follow the lock in
    the witness, it is an [END_OF_LIST], and [main] returns
    [ERROR_ARGUMENTS_LEN] instead of [ERROR_INVALID_LABEL]. *)
Lemma guard_reads_past_lock_bytes :
  exists witness witness_len seg g ctx,
    load_first_witness ref_machine host_trailing_op
      = Continue (witness, witness_len, seg) /\
    size seg = 66 /\
    (22 + 1) * 3 > size seg /\
    (22 + 3 >? size seg) = false /\
    hash_group_inputs host_trailing_op 2 0 [] = Continue g /\
    process_sighash_array ref_machine host_trailing_op
      (Z.to_nat (size seg)) witness seg 0 g = Continue (23, ctx) /\
    main ref_machine host_trailing_op = Return ERROR_ARGUMENTS_LEN.
Proof.
  do 5 eexists.
  split; [vm_compute; reflexivity|].
  split; [vm_compute; reflexivity|].
  split; [vm_compute; reflexivity|].
  split; [vm_compute; reflexivity|].
  split; [vm_compute; reflexivity|].
  split; [vm_compute; reflexivity|].
  vm_compute. reflexivity.
Qed.

(** The guard in general: the loop refuses the op at position [i] exactly
    when [i + 3] exceeds the size. *)
Lemma guard_of_line_203 (m : Machine) (h : Host) fuel witness seg i ctx :
  i + 3 > size seg ->
  process_sighash_array m h fuel witness seg i ctx
    = Return ERROR_INVALID_LABEL.
Proof.
  intros Hi. destruct fuel; cbn [process_sighash_array];
    destruct (i + 3 >? size seg) eqn:E; try reflexivity; lia.
Qed.

(** ** The index of an outpoint *)

(** C1, on the program. With the index bit alone in the mask of an
    [INPUT_OUTPOINT] op, the digest receives the 32 bytes found behind the
    uninitialised [index_seg]; the four index bytes [07 00 00 00] of the
    outpoint are not absorbed. *)
Lemma outpoint_index_not_absorbed :
  content (tx_input_fields host_outpoint_index CKB_SOURCE_INPUT 0
             CKB_INPUT_FIELD_OUT_POINT)
    = repeat 0x11 32 ++ [7; 0; 0; 0] /\
  component_input_outpoint ref_machine host_outpoint_index 0 0
    MASK_OUTPOINT_INDEX [] = Continue (repeat 0xCC 32) /\
  component_input_outpoint ref_machine host_outpoint_index 0 0
    MASK_OUTPOINT_INDEX [] <> Continue [7; 0; 0; 0].
Proof.
  split; [reflexivity|].
  split; [vm_compute; reflexivity|].
  vm_compute. discriminate.
Qed.

(** Whatever the machine and the transaction, the bytes absorbed for the
    index bit are read through [stale_index_seg], never from the
    outpoint. *)
Lemma outpoint_index_from_stale_memory (m : Machine) (h : Host)
    pos index_code mask ctx ctx' :
  mask <> MASK_OUTPOINT_ALL ->
  Z.land mask MASK_OUTPOINT_SINCE = 0 ->
  Z.land mask MASK_OUTPOINT_TX_HASH = 0 ->
  Z.land mask MASK_OUTPOINT_INDEX <> 0 ->
  component_input_outpoint m h pos index_code mask ctx = Continue ctx' ->
  ctx' = ctx ++ seg_bytes (stale_index_seg m pos)
                  (MolReader_OutPoint_get_tx_hash m (stale_index_seg m pos)).
Proof.
  intros Hall Hsince Htx Hidx. unfold component_input_outpoint.
  apply Z.eqb_neq in Hall, Hidx. rewrite Hall, Hsince, Htx, Hidx.
  simpl negb. cbv iota. simpl bind.
  destruct (ckb_checked_load_input_by_field h INPUT_SIZE 0 index_code
              CKB_SOURCE_INPUT CKB_INPUT_FIELD_OUT_POINT)
    as [[ret len] buf].
  destruct (ret !=? CKB_SUCCESS); [discriminate|].
  destruct (_ !=? MOL_OK); [discriminate|].
  intros H. injection H as <-. reflexivity.
Qed.

(** ** The inputs of the script group *)

Lemma hash_group_inputs_spec (h : Host) :
  forall fuel i ctx ctx',
  0 <= i ->
  hash_group_inputs h fuel i ctx = Continue ctx' ->
  exists k : nat,
    (forall j, (j < k)%nat ->
       status (lookup (tx_inputs h CKB_SOURCE_GROUP_INPUT) (i + Z.of_nat j))
         = CKB_SUCCESS) /\
    status (lookup (tx_inputs h CKB_SOURCE_GROUP_INPUT) (i + Z.of_nat k))
      = CKB_INDEX_OUT_OF_BOUND /\
    ctx' = ctx ++ concat (map content
                     (firstn k (skipn (Z.to_nat i)
                                  (tx_inputs h CKB_SOURCE_GROUP_INPUT)))).
Proof.
  induction fuel as [|fuel IH]; intros i ctx ctx' Hi H;
    cbn [hash_group_inputs] in H; [discriminate|].
  rewrite hash_input_eq in H.
  set (l := tx_inputs h CKB_SOURCE_GROUP_INPUT) in *.
  destruct (status (lookup l i) =? CKB_SUCCESS) eqn:Hst.
  - apply Z.eqb_eq in Hst.
    change (CKB_SUCCESS =? CKB_INDEX_OUT_OF_BOUND) with false in H.
    change (CKB_SUCCESS !=? CKB_SUCCESS) with false in H. cbv iota in H.
    apply IH in H; [|lia]. destruct H as (k & Hok & Hend & Hctx).
    pose proof (lookup_ok_range _ _ Hst) as Hin.
    exists (S k). repeat split.
    + intros [|j] Hj.
      * now rewrite Z.add_0_r.
      * replace (i + Z.of_nat (S j)) with (i + 1 + Z.of_nat j) by lia.
        apply Hok. lia.
    + now replace (i + Z.of_nat (S k)) with (i + 1 + Z.of_nat k) by lia.
    + rewrite Hctx, (skipn_lookup l i Hin). simpl.
      now rewrite <- app_assoc.
  - destruct (status (lookup l i) =? CKB_INDEX_OUT_OF_BOUND) eqn:Hoob.
    + injection H as <-. exists 0%nat. repeat split.
      * intros j Hj. lia.
      * rewrite Z.add_0_r. now apply Z.eqb_eq.
      * simpl. now rewrite app_nil_r.
    + rewrite Hst in H. discriminate.
Qed.

(** C3. Whenever a digest is produced, whatever the coverage array, the
    session first absorbed the whole content of the group inputs
    [0 .. k - 1], where [k] is the first index for which the host answers
    [CKB_INDEX_OUT_OF_BOUND]; the coverage loop starts from exactly these
    bytes, and the final digest input begins with them. *)
Theorem group_inputs_absorbed_first (m : Machine) (h : Host)
    signature_bytes ctx :
  main_absorb m h = Continue (signature_bytes, ctx) ->
  exists (k : nat) witness witness_len seg i ctx1 rest,
    (forall j, (j < k)%nat ->
       status (lookup (tx_inputs h CKB_SOURCE_GROUP_INPUT) (Z.of_nat j))
         = CKB_SUCCESS) /\
    status (lookup (tx_inputs h CKB_SOURCE_GROUP_INPUT) (Z.of_nat k))
      = CKB_INDEX_OUT_OF_BOUND /\
    hash_group_inputs h (S (length (tx_inputs h CKB_SOURCE_GROUP_INPUT))) 0
      (blake2b_init BLAKE2B_BLOCK_SIZE) = Continue (group_inputs_bytes h k) /\
    load_first_witness m h = Continue (witness, witness_len, seg) /\
    process_sighash_array m h (Z.to_nat (size seg)) witness seg 0
      (group_inputs_bytes h k) = Continue (i, ctx1) /\
    ctx = group_inputs_bytes h k ++ rest.
Proof.
  intros H. apply main_absorb_inv in H.
  destruct H as (witness & witness_len & seg & g & i & c1 & w' & c2 & c3
                 & H0 & H1 & H2 & H3 & H4 & H5).
  pose proof (hash_group_inputs_spec h _ _ _ _ (Z.le_refl 0) H1)
    as (k & Hok & Hend & Hg).
  simpl in Hg. fold (group_inputs_bytes h k) in Hg. subst g.
  assert (E : extends (group_inputs_bytes h k) ctx).
  { eapply extends_trans; [eapply process_sighash_array_extends; eauto|].
    eapply extends_trans; [|eapply digest_witnesses_extends; eauto].
    eapply extends_trans; [|eapply digest_witnesses_extends; eauto].
    unfold digest_first_witness in H3.
    destruct (_ !=? _) in H3; [discriminate|]. injection H3 as _ _ <-.
    eapply extends_trans; apply extends_update. }
  destruct E as [rest ->].
  exists k, witness, witness_len, seg, i, c1, rest.
  repeat split; assumption.
Qed.

Lemma group_inputs_absorbed_first_witness :
  exists rest,
    main_absorb ref_machine host_minimal
      = Continue (ref_signature, ref_input ++ rest).
Proof.
  destruct (group_inputs_absorbed_first ref_machine host_minimal
              ref_signature
              (ref_input ++ u64_bytes 88
                 ++ witness_args ([0xF0; 0; 0] ++ repeat 0 65) []))
    as (k & witness & witness_len & seg & i & ctx1 & rest
        & Hok & Hend & Hloop & Hload & Hcov & Hctx).
  { vm_compute. reflexivity. }
  assert (Hk : k = 1%nat).
  { destruct k as [|[|k]].
    - exfalso. revert Hend. vm_compute. discriminate.
    - reflexivity.
    - exfalso. specialize (Hok 1%nat ltac:(lia)). revert Hok.
      vm_compute. discriminate. }
  subst k.
  exists rest.
  change (ref_input ++ rest) with (group_inputs_bytes host_minimal 1 ++ rest).
  rewrite <- Hctx. vm_compute. reflexivity.
Defined.

(** ** The first witness and its signature *)

Lemma load_first_witness_inv (m : Machine) (h : Host) witness witness_len seg :
  load_first_witness m h = Continue (witness, witness_len, seg) ->
  status (lookup (tx_witnesses h CKB_SOURCE_GROUP_INPUT) 0) = CKB_SUCCESS /\
  witness = content (lookup (tx_witnesses h CKB_SOURCE_GROUP_INPUT) 0) /\
  witness_len = zlen witness /\
  witness_len <= WITNESS_SIZE /\
  extract_witness_lock m witness witness_len = (CKB_SUCCESS, seg) /\
  SIGNATURE_SIZE < size seg.
Proof.
  unfold load_first_witness, ckb_load_witness, syscall_load.
  set (o := lookup (tx_witnesses h CKB_SOURCE_GROUP_INPUT) 0).
  destruct (status o =? CKB_SUCCESS) eqn:Hst; simpl negb; cbv iota.
  2: { rewrite Hst. discriminate. }
  simpl negb. cbv iota.
  rewrite Z.sub_0_r, Z.max_r by apply zlen_nonneg.
  destruct (zlen (content o) >? WITNESS_SIZE) eqn:Hlen; [discriminate|].
  rewrite slice_whole by lia.
  destruct (extract_witness_lock m (content o) (zlen (content o)))
    as [ret sg] eqn:Hlock.
  destruct (ret =? 0) eqn:Hret; simpl; [|discriminate].
  destruct (size sg <=? SIGNATURE_SIZE) eqn:Hsz; [discriminate|].
  intros H. injection H as <- <- <-.
  apply Z.eqb_eq in Hst, Hret. subst ret.
  repeat split; try assumption; try reflexivity; lia.
Qed.

Lemma u64_bytes_update ctx n :
  blake2b_update ctx (u64_bytes n) 8 = ctx ++ u64_bytes n.
Proof. reflexivity. Qed.

(** ** The signature verifier *)

Lemma ckb_load_script_ok (h : Host) :
  status (tx_script h) = CKB_SUCCESS ->
  zlen (content (tx_script h)) <= SCRIPT_SIZE ->
  ckb_load_script h SCRIPT_SIZE 0
  = (CKB_SUCCESS, zlen (content (tx_script h)), content (tx_script h)).
Proof.
  intros Hst Hlen. unfold ckb_load_script, syscall_load.
  rewrite Hst. simpl negb. cbv iota.
  rewrite Z.sub_0_r, Z.max_r by apply zlen_nonneg.
  now rewrite slice_whole by lia.
Qed.

(** C7. With the secp256k1 tables loaded and the context initialised, the
    verifier parses bytes 0..63 of the signature with the recovery id of
    byte 64, recovers the public key over the message, serialises it, and
    hashes the serialised key; each failure has its own code.  With the
    script loaded and well formed, [Args] must be 20 bytes long, else
    [ERROR_ARGUMENTS_LEN]; the result is [ERROR_PUBKEY_BLAKE160_HASH]
    exactly when the first 20 bytes of the hash differ from [Args], and 0
    otherwise. *)
Theorem signature_verifier (m : Machine) (h : Host)
    (signature_bytes message secp_data context : bytes) :
  ckb_secp256k1_custom_load_data h = (0, secp_data) ->
  ckb_secp256k1_custom_verify_only_initialize m secp_data = (0, context) ->
  let verdict := verify_signature m h signature_bytes message in
  let parsed :=
    secp256k1_ecdsa_recoverable_signature_parse_compact m context
      (firstn 64 signature_bytes) (nth 64 signature_bytes 0) in
  let recovered := secp256k1_ecdsa_recover m context (snd parsed) message in
  let serialized := secp256k1_ec_pubkey_serialize m context (snd recovered) in
  let hash20 := firstn 20 (blake2b_hash m (snd serialized)) in
  let script := content (tx_script h) in
  let args_seg := MolReader_Script_get_args m script in
  let args_bytes_seg :=
    sub_seg args_seg (MolReader_Bytes_raw_bytes m (seg_bytes script args_seg)) in
  let Args := slice script (ptr args_bytes_seg) 20 in
  (fst parsed = 0 -> verdict = Return ERROR_SECP_PARSE_SIGNATURE) /\
  (fst parsed <> 0 -> fst recovered <> 1 ->
   verdict = Return ERROR_SECP_RECOVER_PUBKEY) /\
  (fst parsed <> 0 -> fst recovered = 1 -> fst serialized <> 1 ->
   verdict = Return ERROR_SECP_SERIALIZE_PUBKEY) /\
  (fst parsed <> 0 -> fst recovered = 1 -> fst serialized = 1 ->
   status (tx_script h) = CKB_SUCCESS ->
   zlen script <= SCRIPT_SIZE ->
   MolReader_Script_verify m script = MOL_OK ->
   (size args_bytes_seg <> 20 -> verdict = Return ERROR_ARGUMENTS_LEN) /\
   (size args_bytes_seg = 20 ->
    (verdict = Return ERROR_PUBKEY_BLAKE160_HASH <-> Args <> hash20) /\
    (verdict <> Return ERROR_PUBKEY_BLAKE160_HASH -> verdict = Return 0))).
Proof.
  intros Hdata Hinit. cbv zeta.
  unfold verify_signature. rewrite Hdata. cbn [negb Z.eqb].
  rewrite Hinit. cbn [negb Z.eqb].
  change (Z.to_nat RECID_INDEX) with 64%nat.
  destruct (secp256k1_ecdsa_recoverable_signature_parse_compact m context
              (firstn 64 signature_bytes) (nth 64 signature_bytes 0))
    as [ok1 signature]. cbn [fst snd].
  destruct (secp256k1_ecdsa_recover m context signature message)
    as [ok2 pubkey]. cbn [fst snd].
  destruct (secp256k1_ec_pubkey_serialize m context pubkey)
    as [ok3 temp]. cbn [fst snd].
  split; [|split; [|split]].
  - intros ->. reflexivity.
  - intros H1 H2. apply Z.eqb_neq in H1, H2. now rewrite H1, H2.
  - intros H1 -> H3. apply Z.eqb_neq in H1, H3. now rewrite H1, H3.
  - intros H1 -> -> Hst Hlen Hverify. apply Z.eqb_neq in H1. rewrite H1.
    cbn [negb Z.eqb Pos.eqb].
    rewrite (ckb_load_script_ok h Hst Hlen).
    change (CKB_SUCCESS !=? CKB_SUCCESS) with false. cbv iota.
    destruct (zlen (content (tx_script h)) >? SCRIPT_SIZE) eqn:E; [lia|].
    unfold blake2b_init, blake2b_final. rewrite blake2b_update_whole.
    cbn [app].
    set (script := content (tx_script h)) in *.
    replace (seg_bytes script {| ptr := 0; size := zlen script |})
      with script
      by (unfold seg_bytes; cbn [ptr size]; now rewrite slice_whole by lia).
    rewrite Hverify. change (MOL_OK !=? MOL_OK) with false. cbv iota.
    set (args_seg := MolReader_Script_get_args m script).
    replace (sub_seg {| ptr := 0; size := zlen script |} args_seg)
      with args_seg by (destruct args_seg; reflexivity).
    set (args_bytes_seg := sub_seg args_seg _).
    change (Z.to_nat BLAKE160_SIZE) with 20%nat.
    change BLAKE160_SIZE with 20.
    split.
    + intros Hne. apply Z.eqb_neq in Hne. now rewrite Hne.
    + intros Heq. rewrite Heq. change (20 !=? 20) with false. cbv iota.
      destruct (bytes_eqb (slice script (ptr args_bytes_seg) 20)
                  (firstn 20 (blake2b_hash m temp))) eqn:Eq;
        cbn [negb].
      * apply bytes_eqb_eq in Eq. split; [split|].
        -- discriminate.
        -- intros Hne. contradiction.
        -- reflexivity.
      * assert (Hne : slice script (ptr args_bytes_seg) 20
                      <> firstn 20 (blake2b_hash m temp)).
        { intros Heq'. apply bytes_eqb_eq in Heq'. congruence. }
        split; [split|].
        -- intros _. exact Hne.
        -- reflexivity.
        -- intros Hc. now contradiction Hc.
Qed.

Lemma signature_verifier_witness :
  verify_signature ref_machine host_minimal signature_bad_recid []
    = Return ERROR_SECP_PARSE_SIGNATURE /\
  verify_signature (machine_with 0 1) host_minimal ref_signature []
    = Return ERROR_SECP_RECOVER_PUBKEY /\
  verify_signature (machine_with 1 0) host_minimal ref_signature []
    = Return ERROR_SECP_SERIALIZE_PUBKEY /\
  verify_signature ref_machine host_long_args ref_signature []
    = Return ERROR_ARGUMENTS_LEN /\
  verify_signature ref_machine host_wrong_key ref_signature []
    = Return ERROR_PUBKEY_BLAKE160_HASH /\
  verify_signature ref_machine host_minimal ref_signature [] = Return 0.
Proof.
  split; [|split; [|split; [|split; [|split]]]].
  - apply (proj1 (signature_verifier ref_machine host_minimal
                    signature_bad_recid [] [] [] eq_refl eq_refl)).
    vm_compute. reflexivity.
  - apply (proj1 (proj2 (signature_verifier (machine_with 0 1) host_minimal
                           ref_signature [] [] [] eq_refl eq_refl))).
    + vm_compute. discriminate.
    + vm_compute. discriminate.
  - apply (proj1 (proj2 (proj2
             (signature_verifier (machine_with 1 0) host_minimal
                ref_signature [] [] [] eq_refl eq_refl)))).
    + vm_compute. discriminate.
    + vm_compute. reflexivity.
    + vm_compute. discriminate.
  - apply (proj2 (proj2 (proj2
             (signature_verifier ref_machine host_long_args
                ref_signature [] [] [] eq_refl eq_refl)))).
    + vm_compute. discriminate.
    + vm_compute. reflexivity.
    + vm_compute. reflexivity.
    + vm_compute. reflexivity.
    + vm_compute. discriminate.
    + vm_compute. reflexivity.
    + vm_compute. discriminate.
  - apply (proj2 (proj2 (proj2
             (signature_verifier ref_machine host_wrong_key
                ref_signature [] [] [] eq_refl eq_refl)))).
    + vm_compute. discriminate.
    + vm_compute. reflexivity.
    + vm_compute. reflexivity.
    + vm_compute. reflexivity.
    + vm_compute. discriminate.
    + vm_compute. reflexivity.
    + vm_compute. reflexivity.
    + vm_compute. discriminate.
  - apply (proj2 (proj2 (proj2
             (signature_verifier ref_machine host_minimal
                ref_signature [] [] [] eq_refl eq_refl)))).
    + vm_compute. discriminate.
    + vm_compute. reflexivity.
    + vm_compute. reflexivity.
    + vm_compute. reflexivity.
    + vm_compute. discriminate.
    + vm_compute. reflexivity.
    + vm_compute. reflexivity.
    + vm_compute. discriminate.
Defined.

(** ** Masks of the cell labels *)

Lemma land_bit_test (mask k : Z) :
  0 <= k -> (Z.land mask (2 ^ k) !=? 0) = Z.testbit mask k.
Proof.
  intros Hk. destruct (Z.testbit mask k) eqn:T.
  - apply negb_true_iff, Z.eqb_neq. intros E.
    assert (B : Z.testbit (Z.land mask (2 ^ k)) k = true).
    { rewrite Z.land_spec, T, Z.pow2_bits_true by assumption. reflexivity. }
    rewrite E, Z.bits_0 in B. discriminate.
  - apply negb_false_iff, Z.eqb_eq. apply Z.bits_inj'. intros n Hn.
    rewrite Z.land_spec, Z.bits_0, Z.pow2_bits_eqb by assumption.
    destruct (Z.eqb_spec k n) as [->|_].
    + now rewrite T.
    + apply andb_false_r.
Qed.

Lemma lor_neqb (x y : Z) :
  (Z.lor x y !=? 0) = (x !=? 0) || (y !=? 0).
Proof.
  destruct (Z.eqb_spec (Z.lor x y) 0) as [E|E]; cbn [negb].
  - apply Z.lor_eq_0_iff in E. destruct E as [-> ->]. reflexivity.
  - destruct (Z.eqb_spec x 0) as [->|]; cbn [negb orb]; [|reflexivity].
    destruct (Z.eqb_spec y 0) as [->|]; cbn [negb]; [|reflexivity].
    now contradiction E.
Qed.

Lemma land_any_test (mask : Z) (a b c : Z) :
  0 <= a -> 0 <= b -> 0 <= c ->
  (Z.land mask (Z.lor (Z.lor (2 ^ a) (2 ^ b)) (2 ^ c)) !=? 0)
  = Z.testbit mask a || Z.testbit mask b || Z.testbit mask c.
Proof.
  intros Ha Hb Hc.
  rewrite !Z.land_lor_distr_r, !lor_neqb, !land_bit_test by assumption.
  reflexivity.
Qed.

Section CellMask.

Variable m : Machine.
Variable h : Host.

Lemma checked_load_ok (o : object) (len : Z) ret len' written :
  0 <= len ->
  checked len (syscall_load o len 0) = (ret, len', written) ->
  ret = CKB_SUCCESS ->
  len' = zlen (content o) /\ written = content o.
Proof.
  intros Hlen. unfold checked, syscall_load.
  destruct (status o =? CKB_SUCCESS) eqn:Hst; cbn [negb].
  - change (CKB_SUCCESS =? CKB_SUCCESS) with true. cbn [andb].
    rewrite Z.sub_0_r, Z.max_r by apply zlen_nonneg.
    destruct (zlen (content o) >? len) eqn:E.
    + intros H ->. injection H as H _ _. discriminate H.
    + intros H _. injection H as _ <- <-.
      split; [reflexivity|]. apply slice_whole. lia.
  - rewrite Hst. cbn [andb]. intros H ->. injection H as H _ _.
    apply Z.eqb_neq in Hst. now contradiction Hst.
Qed.

Lemma hash_script_fields_closed ctx i source field masks ctx' :
  hash_script_fields m h ctx i source field masks = (CKB_SUCCESS, ctx') ->
  ctx' = ctx ++ script_fields m (content (tx_cell_fields h source i field))
                  (Z.testbit masks 4) (Z.testbit masks 5)
                  (Z.testbit masks 6).
Proof.
  unfold hash_script_fields, ckb_checked_load_cell_by_field,
    ckb_load_cell_by_field.
  set (o := tx_cell_fields h source i field).
  destruct (checked SCRIPT_SIZE (syscall_load o SCRIPT_SIZE 0))
    as [[ret len] script] eqn:Hload.
  destruct (ret =? CKB_SUCCESS) eqn:Hret; cbn [negb].
  2: { intros H. injection H as H _. apply Z.eqb_neq in Hret.
       now contradiction Hret. }
  apply Z.eqb_eq in Hret.
  destruct (checked_load_ok o SCRIPT_SIZE ret len script
              ltac:(unfold SCRIPT_SIZE; lia) Hload Hret) as [-> ->].
  replace (seg_bytes (content o) {| ptr := 0; size := zlen (content o) |})
    with (content o)
    by (unfold seg_bytes; cbn [ptr size]; now rewrite slice_whole by lia).
  destruct (MolReader_Script_verify m (content o) =? MOL_OK); cbn [negb];
    [|intros H; discriminate H].
  intros H. injection H as <-.
  change MASK_CELL_LOCK_CODE_HASH with (2 ^ 4).
  change MASK_CELL_LOCK_ARGS with (2 ^ 5).
  change MASK_CELL_LOCK_HASH_TYPE with (2 ^ 6).
  rewrite !land_bit_test by lia.
  unfold script_fields, blake2b_update, seg_bytes, slice, sub_seg.
  cbn [ptr size Z.add].
  destruct (Z.testbit masks 4), (Z.testbit masks 5), (Z.testbit masks 6);
    cbn [app]; rewrite ?app_nil_r, <- ?app_assoc; reflexivity.
Qed.

Lemma hash_masked_cell_closed index_code mask source ctx ctx' :
  hash_masked_cell m h index_code mask source ctx = Continue ctx' ->
  ctx' = ctx
    ++ (if Z.testbit mask 0
        then capacity_bytes
               (content (tx_cell_fields h source index_code
                           CKB_CELL_FIELD_CAPACITY))
        else [])
    ++ script_fields m
         (content (tx_cell_fields h source index_code CKB_CELL_FIELD_TYPE))
         (Z.testbit mask 1) (Z.testbit mask 2) (Z.testbit mask 3)
    ++ script_fields m
         (content (tx_cell_fields h source index_code CKB_CELL_FIELD_LOCK))
         (Z.testbit mask 4) (Z.testbit mask 5) (Z.testbit mask 6)
    ++ (if Z.testbit mask 7
        then content (tx_cell_data h source index_code) else []).
Proof.
  unfold hash_masked_cell. intros H.
  apply bind_Continue in H. destruct H as (c1 & H1 & H).
  apply bind_Continue in H. destruct H as (c2 & H2 & H).
  apply bind_Continue in H. destruct H as (c3 & H3 & H4).
  change MASK_CELL_CAPACITY with (2 ^ 0) in H1.
  change MASK_CELL_ANY_TYPE with (Z.lor (Z.lor (2 ^ 1) (2 ^ 2)) (2 ^ 3)) in H2.
  change MASK_CELL_TYPE_CODE_HASH with (2 ^ 1) in H2.
  change MASK_CELL_TYPE_ARGS with (2 ^ 2) in H2.
  change MASK_CELL_TYPE_HASH_TYPE with (2 ^ 3) in H2.
  change MASK_CELL_ANY_LOCK with (Z.lor (Z.lor (2 ^ 4) (2 ^ 5)) (2 ^ 6)) in H3.
  change MASK_CELL_DATA with (2 ^ 7) in H4.
  rewrite land_bit_test in H1, H4 by lia.
  rewrite land_any_test in H2, H3 by lia.
  rewrite !land_bit_test in H2 by lia.
  assert (E1 : c1 = ctx ++
            (if Z.testbit mask 0
             then capacity_bytes
                    (content (tx_cell_fields h source index_code
                                CKB_CELL_FIELD_CAPACITY))
             else [])).
  { destruct (Z.testbit mask 0).
    - unfold ckb_load_cell_by_field, syscall_load in H1.
      destruct (status _ =? CKB_SUCCESS) eqn:Hst in H1; cbn [negb] in H1.
      + change (CKB_SUCCESS =? CKB_SUCCESS) with true in H1.
        cbn [negb] in H1. injection H1 as <-. reflexivity.
      + rewrite Hst in H1. discriminate H1.
    - injection H1 as <-. now rewrite app_nil_r. }
  assert (E2 : c2 = c1 ++ script_fields m
            (content (tx_cell_fields h source index_code CKB_CELL_FIELD_TYPE))
            (Z.testbit mask 1) (Z.testbit mask 2) (Z.testbit mask 3)).
  { destruct (Z.testbit mask 1) eqn:B1, (Z.testbit mask 2) eqn:B2,
      (Z.testbit mask 3) eqn:B3; cbn [orb] in H2;
      try (apply call_Continue in H2; injection H2 as H2;
           apply hash_script_fields_closed in H2; exact H2).
    injection H2 as <-. unfold script_fields. cbn [app].
    now rewrite app_nil_r. }
  assert (E3 : c3 = c2 ++ script_fields m
            (content (tx_cell_fields h source index_code CKB_CELL_FIELD_LOCK))
            (Z.testbit mask 4) (Z.testbit mask 5) (Z.testbit mask 6)).
  { destruct (Z.testbit mask 4 || Z.testbit mask 5 || Z.testbit mask 6)
      eqn:B.
    - apply call_Continue in H3. injection H3 as H3.
      now apply hash_script_fields_closed in H3.
    - apply orb_false_iff in B. destruct B as [B B6].
      apply orb_false_iff in B. destruct B as [B4 B5].
      rewrite B4, B5, B6. injection H3 as <-. unfold script_fields.
      cbn [app]. now rewrite app_nil_r. }
  assert (E4 : ctx' = c3 ++
            (if Z.testbit mask 7
             then content (tx_cell_data h source index_code) else [])).
  { destruct (Z.testbit mask 7).
    - rewrite hash_cell_data_eq, call_served in H4.
      destruct (_ =? _) in H4; [|discriminate H4]. now injection H4 as <-.
    - injection H4 as <-. now rewrite app_nil_r. }
  rewrite E4, E3, E2, E1. now rewrite <- !app_assoc.
Qed.

End CellMask.

(** C8. For a cell label with a mask other than [0xFF], the digest receives
    the capacity (bit [0x01]), then the selected fields of the type script
    (bits [0x02], [0x04], [0x08]), then those of the lock script (bits
    [0x10], [0x20], [0x40]), then the data (bit [0x80]), and for
    [INPUT_CELL_SINCE] the since bytes.  Both scripts go through
    [hash_script_fields], which absorbs [code_hash], [args], [hash_type] in
    this order and looks at bits [0x10], [0x20], [0x40] of its mask
    only. *)
Theorem masked_cell_order (m : Machine) (h : Host)
    (label index_code mask : Z) (ctx ctx' : blake2b_state) :
  mask <> MASK_CELL_ALL ->
  component_cell m h label index_code mask ctx = Continue ctx' ->
  let source :=
    if label =? LABEL_OUTPUT then CKB_SOURCE_OUTPUT else CKB_SOURCE_INPUT in
  let field := fun f => content (tx_cell_fields h source index_code f) in
  ctx' = ctx
    ++ (if Z.testbit mask 0
        then capacity_bytes (field CKB_CELL_FIELD_CAPACITY) else [])
    ++ script_fields m (field CKB_CELL_FIELD_TYPE)
         (Z.testbit mask 1) (Z.testbit mask 2) (Z.testbit mask 3)
    ++ script_fields m (field CKB_CELL_FIELD_LOCK)
         (Z.testbit mask 4) (Z.testbit mask 5) (Z.testbit mask 6)
    ++ (if Z.testbit mask 7
        then content (tx_cell_data h source index_code) else [])
    ++ (if label =? LABEL_INPUT_CELL_SINCE
        then since_bytes m label
               (content (tx_input_fields h source index_code
                           CKB_INPUT_FIELD_SINCE))
        else [])
  /\
  (forall field_id masks c c',
     hash_script_fields m h c index_code source field_id masks
       = (CKB_SUCCESS, c') ->
     c' = c ++ script_fields m (field field_id)
                 (Z.testbit masks 4) (Z.testbit masks 5) (Z.testbit masks 6)).
Proof.
  intros Hmask H. cbv zeta. split.
  - unfold component_cell in H.
    apply Z.eqb_neq in Hmask. rewrite Hmask in H.
    apply bind_Continue in H. destruct H as (c1 & H1 & H2).
    apply hash_masked_cell_closed in H1.
    assert (E : ctx' = c1 ++
              (if label =? LABEL_INPUT_CELL_SINCE
               then since_bytes m label
                      (content (tx_input_fields h
                                  (if label =? LABEL_OUTPUT
                                   then CKB_SOURCE_OUTPUT
                                   else CKB_SOURCE_INPUT)
                                  index_code CKB_INPUT_FIELD_SINCE))
               else [])).
    { destruct (label =? LABEL_INPUT_CELL_SINCE).
      - unfold ckb_checked_load_input_by_field in H2.
        destruct (checked 8 (syscall_load _ 8 0)) as [[ret len] written]
          eqn:Hload in H2.
        destruct (ret =? CKB_SUCCESS) eqn:Hret; cbn [negb] in H2;
          [|discriminate H2].
        apply Z.eqb_eq in Hret.
        destruct (checked_load_ok _ 8 ret len written ltac:(lia) Hload Hret)
          as [_ ->].
        injection H2 as <-. reflexivity.
      - injection H2 as <-. now rewrite app_nil_r. }
    rewrite E, H1. now rewrite <- !app_assoc.
  - intros field_id masks c c'. apply hash_script_fields_closed.
Qed.

Lemma masked_cell_order_witness :
  component_cell ref_machine host_masked_output LABEL_OUTPUT 0 0x7F []
    = Continue (u64_bytes 6100000000
                  ++ (repeat 0x51 32 ++ [1; 0; 0; 0; 0x61] ++ [2])
                  ++ (repeat 0x31 32 ++ [2; 0; 0; 0; 0x41; 0x42] ++ [1])) /\
  u64_bytes 6100000000
    ++ (repeat 0x51 32 ++ [1; 0; 0; 0; 0x61] ++ [2])
    ++ (repeat 0x31 32 ++ [2; 0; 0; 0; 0x41; 0x42] ++ [1])
  = capacity_bytes (u64_bytes 6100000000)
      ++ script_fields ref_machine ref_type_script true true true
      ++ script_fields ref_machine ref_lock_script true true true
      ++ [] ++ [].
Proof.
  assert (Run : component_cell ref_machine host_masked_output LABEL_OUTPUT 0
                  0x7F []
                = Continue (u64_bytes 6100000000
                    ++ (repeat 0x51 32 ++ [1; 0; 0; 0; 0x61] ++ [2])
                    ++ (repeat 0x31 32 ++ [2; 0; 0; 0; 0x41; 0x42] ++ [1]))).
  { vm_compute. reflexivity. }
  split; [exact Run|].
  apply (proj1 (masked_cell_order ref_machine host_masked_output LABEL_OUTPUT
                  0 0x7F [] _ ltac:(discriminate) Run)).
Defined.

(** ** Determinism *)

Lemma bind_ext {A B : Type} (x1 x2 : outcome A) (k1 k2 : A -> outcome B) :
  x1 = x2 -> (forall a, k1 a = k2 a) -> bind x1 k1 = bind x2 k2.
Proof. intros -> Hk. destruct x2; simpl; auto. Qed.

Lemma load_and_hash_loop_ext (f1 f2 : load_function) index_code source :
  (forall len offset,
     f1 len offset index_code source = f2 len offset index_code source) ->
  forall fuel ctx offset len,
  load_and_hash_loop fuel ctx index_code source f1 offset len
  = load_and_hash_loop fuel ctx index_code source f2 offset len.
Proof.
  intros Hf. induction fuel as [|fuel IH]; intros ctx offset len;
    cbn [load_and_hash_loop]; [reflexivity|].
  rewrite Hf.
  destruct (f2 ONE_BATCH_SIZE offset index_code source) as [[ret cl] temp].
  destruct (offset <? len); [|reflexivity].
  destruct (ret !=? CKB_SUCCESS); [reflexivity|]. apply IH.
Qed.

Lemma load_and_hash_ext (f1 f2 : load_function) ctx index_code source :
  (forall len offset,
     f1 len offset index_code source = f2 len offset index_code source) ->
  load_and_hash ctx index_code source f1
  = load_and_hash ctx index_code source f2.
Proof.
  intros Hf. unfold load_and_hash. rewrite Hf.
  destruct (f2 ONE_BATCH_SIZE 0 index_code source) as [[ret len] temp].
  destruct (ret !=? CKB_SUCCESS); [reflexivity|].
  now apply load_and_hash_loop_ext.
Qed.

Lemma hash_group_inputs_fuel (h : Host) :
  forall fuel fuel' i ctx,
  (fuel <= fuel')%nat ->
  hash_group_inputs h fuel i ctx <> OutOfFuel ->
  hash_group_inputs h fuel' i ctx = hash_group_inputs h fuel i ctx.
Proof.
  induction fuel as [|fuel IH]; intros fuel' i ctx Hle Hne;
    [now contradiction Hne|].
  destruct fuel' as [|fuel']; [lia|].
  cbn [hash_group_inputs] in *.
  destruct (hash_input h ctx i CKB_SOURCE_GROUP_INPUT) as [[ret c]|];
    [|reflexivity].
  destruct (ret =? CKB_INDEX_OUT_OF_BOUND); [reflexivity|].
  destruct (ret !=? CKB_SUCCESS); [reflexivity|].
  apply IH; [lia|assumption].
Qed.

Lemma digest_witnesses_fuel (h : Host) (source : Source) :
  forall fuel fuel' i ctx,
  (fuel <= fuel')%nat ->
  digest_witnesses h fuel source i ctx <> OutOfFuel ->
  digest_witnesses h fuel' source i ctx = digest_witnesses h fuel source i ctx.
Proof.
  induction fuel as [|fuel IH]; intros fuel' i ctx Hle Hne;
    [now contradiction Hne|].
  destruct fuel' as [|fuel']; [lia|].
  cbn [digest_witnesses] in *.
  destruct (ckb_load_witness h WITNESS_SIZE 0 i source) as [[ret len] temp].
  destruct (ret =? CKB_INDEX_OUT_OF_BOUND); [reflexivity|].
  destruct (ret !=? CKB_SUCCESS); [reflexivity|].
  destruct (len >? WITNESS_SIZE); [reflexivity|].
  apply IH; [lia|assumption].
Qed.

Lemma proper_not_stuck {A : Type} (r : outcome A) : proper r -> r <> OutOfFuel.
Proof. intros P ->. exact P. Qed.

Section Determinism.

Variable m : Machine.
Variables h1 h2 : Host.
Hypothesis R : same_reads h1 h2.

Lemma hash_input_same ctx i source :
  hash_input h1 ctx i source = hash_input h2 ctx i source.
Proof. apply load_and_hash_ext. intros. apply (same_input _ _ R). Qed.

Lemma hash_cell_same ctx i source :
  hash_cell h1 ctx i source = hash_cell h2 ctx i source.
Proof. apply load_and_hash_ext. intros. apply (same_cell _ _ R). Qed.

Lemma hash_cell_data_same ctx i source :
  hash_cell_data h1 ctx i source = hash_cell_data h2 ctx i source.
Proof. apply load_and_hash_ext. intros. apply (same_cell_data _ _ R). Qed.

Lemma hash_script_fields_same ctx i source field masks :
  hash_script_fields m h1 ctx i source field masks
  = hash_script_fields m h2 ctx i source field masks.
Proof.
  unfold hash_script_fields, ckb_checked_load_cell_by_field.
  now rewrite (same_cell_by_field _ _ R).
Qed.

Lemma component_sighash_all_same ctx :
  component_sighash_all h1 ctx = component_sighash_all h2 ctx.
Proof.
  unfold component_sighash_all. now rewrite (same_tx_hash _ _ R).
Qed.

Lemma hash_masked_cell_same i mask source ctx :
  hash_masked_cell m h1 i mask source ctx
  = hash_masked_cell m h2 i mask source ctx.
Proof.
  unfold hash_masked_cell.
  apply bind_ext; [now rewrite (same_cell_by_field _ _ R)|intros c1].
  apply bind_ext; [now rewrite hash_script_fields_same|intros c2].
  apply bind_ext; [now rewrite hash_script_fields_same|intros c3].
  now rewrite hash_cell_data_same.
Qed.

Lemma component_cell_same label i mask ctx :
  component_cell m h1 label i mask ctx = component_cell m h2 label i mask ctx.
Proof.
  unfold component_cell. apply bind_ext.
  - destruct (mask =? MASK_CELL_ALL).
    + apply bind_ext; [now rewrite hash_cell_same|intros c].
      now rewrite hash_cell_data_same.
    + apply hash_masked_cell_same.
  - intros c. now rewrite (same_input_by_field _ _ R).
Qed.

Lemma component_input_outpoint_same pos i mask ctx :
  component_input_outpoint m h1 pos i mask ctx
  = component_input_outpoint m h2 pos i mask ctx.
Proof.
  unfold component_input_outpoint.
  destruct (mask =? MASK_OUTPOINT_ALL); [now rewrite hash_input_same|].
  apply bind_ext; [now rewrite (same_input_by_field _ _ R)|intros c].
  now rewrite (same_input_by_field _ _ R).
Qed.

Lemma process_component_same pos label i mask ctx :
  process_component m h1 pos label i mask ctx
  = process_component m h2 pos label i mask ctx.
Proof.
  unfold process_component.
  now rewrite component_sighash_all_same, component_cell_same,
    component_input_outpoint_same.
Qed.

Lemma process_sighash_array_same witness seg :
  forall fuel i ctx,
  process_sighash_array m h1 fuel witness seg i ctx
  = process_sighash_array m h2 fuel witness seg i ctx.
Proof.
  induction fuel as [|fuel IH]; intros i ctx; cbn [process_sighash_array];
    [reflexivity|].
  destruct (i + 3 >? size seg); [reflexivity|].
  apply bind_ext; [apply process_component_same|].
  intros [more c]. destruct more; [apply IH|reflexivity].
Qed.

Lemma hash_group_inputs_same_fuel :
  forall fuel i ctx,
  hash_group_inputs h1 fuel i ctx = hash_group_inputs h2 fuel i ctx.
Proof.
  induction fuel as [|fuel IH]; intros i ctx; cbn [hash_group_inputs];
    [reflexivity|].
  rewrite hash_input_same.
  destruct (hash_input h2 ctx i CKB_SOURCE_GROUP_INPUT) as [[ret c]|];
    [|reflexivity].
  destruct (ret =? CKB_INDEX_OUT_OF_BOUND); [reflexivity|].
  destruct (ret !=? CKB_SUCCESS); [reflexivity|]. apply IH.
Qed.

Lemma digest_witnesses_same_fuel source :
  forall fuel i ctx,
  digest_witnesses h1 fuel source i ctx = digest_witnesses h2 fuel source i ctx.
Proof.
  induction fuel as [|fuel IH]; intros i ctx; cbn [digest_witnesses];
    [reflexivity|].
  rewrite (same_witness _ _ R).
  destruct (ckb_load_witness h2 WITNESS_SIZE 0 i source) as [[ret len] temp].
  destruct (ret =? CKB_INDEX_OUT_OF_BOUND); [reflexivity|].
  destruct (ret !=? CKB_SUCCESS); [reflexivity|].
  destruct (len >? WITNESS_SIZE); [reflexivity|]. apply IH.
Qed.

(** The bounds of the loops are taken from the host; two hosts that read
    alike may give different bounds, both large enough. *)
Lemma hash_group_inputs_same ctx :
  hash_group_inputs h1 (S (length (tx_inputs h1 CKB_SOURCE_GROUP_INPUT))) 0 ctx
  = hash_group_inputs h2 (S (length (tx_inputs h2 CKB_SOURCE_GROUP_INPUT)))
      0 ctx.
Proof.
  set (n1 := S (length (tx_inputs h1 CKB_SOURCE_GROUP_INPUT))).
  set (n2 := S (length (tx_inputs h2 CKB_SOURCE_GROUP_INPUT))).
  assert (P1 : proper (hash_group_inputs h1 n1 0 ctx)).
  { apply proper_hash_group_inputs; unfold n1, zlen; lia. }
  assert (P2 : proper (hash_group_inputs h2 n2 0 ctx)).
  { apply proper_hash_group_inputs; unfold n2, zlen; lia. }
  rewrite hash_group_inputs_same_fuel in P1 |- *.
  rewrite <- (hash_group_inputs_fuel h2 n1 (Nat.max n1 n2) 0 ctx
                (Nat.le_max_l _ _) (proper_not_stuck _ P1)).
  apply (hash_group_inputs_fuel h2 n2 (Nat.max n1 n2) 0 ctx
           (Nat.le_max_r _ _) (proper_not_stuck _ P2)).
Qed.

Lemma digest_witnesses_same source i ctx :
  digest_witnesses h1 (S (length (tx_witnesses h1 source))) source i ctx
  = digest_witnesses h2 (S (length (tx_witnesses h2 source))) source i ctx.
Proof.
  set (n1 := S (length (tx_witnesses h1 source))).
  set (n2 := S (length (tx_witnesses h2 source))).
  assert (P1 : proper (digest_witnesses h1 n1 source i ctx)).
  { apply proper_digest_witnesses; unfold n1, zlen; lia. }
  assert (P2 : proper (digest_witnesses h2 n2 source i ctx)).
  { apply proper_digest_witnesses; unfold n2, zlen; lia. }
  rewrite digest_witnesses_same_fuel in P1 |- *.
  rewrite <- (digest_witnesses_fuel h2 source n1 (Nat.max n1 n2) i ctx
                (Nat.le_max_l _ _) (proper_not_stuck _ P1)).
  apply (digest_witnesses_fuel h2 source n2 (Nat.max n1 n2) i ctx
           (Nat.le_max_r _ _) (proper_not_stuck _ P2)).
Qed.

Lemma main_absorb_same : main_absorb m h1 = main_absorb m h2.
Proof.
  unfold main_absorb. apply bind_ext.
  { unfold load_first_witness. now rewrite (same_witness _ _ R). }
  intros [[witness witness_len] seg].
  apply bind_ext; [apply hash_group_inputs_same|intros g].
  apply bind_ext; [apply process_sighash_array_same|intros [i c1]].
  apply bind_ext; [reflexivity|intros [[sg w'] c2]].
  apply bind_ext; [apply digest_witnesses_same|intros c3].
  apply bind_ext; [|reflexivity].
  rewrite (same_inputs_len _ _ R). apply digest_witnesses_same.
Qed.

Lemma verify_signature_same signature_bytes message :
  verify_signature m h1 signature_bytes message
  = verify_signature m h2 signature_bytes message.
Proof.
  unfold verify_signature.
  now rewrite (same_secp_data _ _ R), (same_script _ _ R).
Qed.

End Determinism.

(** On one machine, that is with the same libraries and the same contents
    of the memory that no host read wrote, hosts that answer every read
    alike give the same message (with the same signature bytes) and the
    same exit code. *)
Theorem verifier_deterministic (m : Machine) (h1 h2 : Host) :
  same_reads h1 h2 ->
  main_message m h1 = main_message m h2 /\ main m h1 = main m h2.
Proof.
  intros R.
  assert (E : main_message m h1 = main_message m h2).
  { unfold main_message. now rewrite (main_absorb_same m h1 h2 R). }
  split; [exact E|].
  unfold main. rewrite E. apply bind_ext; [reflexivity|].
  intros [sg msg]. now apply verify_signature_same.
Qed.

Lemma lookup_padded (l : list object) (i : Z) :
  lookup (l ++ [out_of_bound]) i = lookup l i.
Proof.
  unfold lookup. destruct (i <? 0); [reflexivity|].
  destruct (Nat.lt_ge_cases (Z.to_nat i) (length l)) as [Hlt|Hge].
  - now apply app_nth1.
  - rewrite (nth_overflow l) by assumption.
    rewrite app_nth2 by assumption.
    destruct (Z.to_nat i - length l)%nat as [|[|n]]; reflexivity.
Qed.

Lemma verifier_deterministic_witness :
  main_message ref_machine host_minimal = main_message ref_machine host_padded
  /\ main ref_machine host_minimal = main ref_machine host_padded.
Proof.
  apply (verifier_deterministic ref_machine host_minimal host_padded).
  constructor; intros; try reflexivity.
  - unfold ckb_load_witness. cbn [tx_witnesses host_padded].
    now rewrite lookup_padded.
  - unfold ckb_load_input. cbn [tx_inputs host_padded].
    now rewrite lookup_padded.
Defined.

(** * Further properties of the program *)

(** ** The streaming hasher *)

(** X1. [load_and_hash] (lines 88-110) on a loader that serves an object:
    the object is absorbed whole, in order, whatever its size relative to
    the 16 KiB batch, and the result is [CKB_SUCCESS]; when the host
    refuses the object its status is returned and nothing is absorbed. *)
Theorem load_and_hash_whole_object (f : load_function) (index_code : Z)
    (source : Source) (o : object) (ctx : blake2b_state) :
  (forall len offset,
     f len offset index_code source = syscall_load o len offset) ->
  load_and_hash ctx index_code source f
  = Some (if status o =? CKB_SUCCESS
          then (CKB_SUCCESS, ctx ++ content o)
          else (status o, ctx)).
Proof. intros Hf. now apply load_and_hash_serves. Qed.

Lemma load_and_hash_whole_object_witness :
  load_and_hash [1; 2] 0 CKB_SOURCE_INPUT (serve big_object)
  = Some (CKB_SUCCESS, [1; 2] ++ repeat 7 (Z.to_nat 40000)).
Proof.
  apply (load_and_hash_whole_object (serve big_object) 0 CKB_SOURCE_INPUT
           big_object [1; 2]).
  intros len offset. reflexivity.
Defined.

(** ** The loops over inputs and witnesses *)

Lemma hash_group_inputs_fails (h : Host) :
  forall (n fuel : nat) i ctx,
  0 <= i ->
  (forall j, (j < n)%nat ->
     status (lookup (tx_inputs h CKB_SOURCE_GROUP_INPUT) (i + Z.of_nat j))
       = CKB_SUCCESS) ->
  status (lookup (tx_inputs h CKB_SOURCE_GROUP_INPUT) (i + Z.of_nat n))
    <> CKB_SUCCESS ->
  status (lookup (tx_inputs h CKB_SOURCE_GROUP_INPUT) (i + Z.of_nat n))
    <> CKB_INDEX_OUT_OF_BOUND ->
  (n < fuel)%nat ->
  hash_group_inputs h fuel i ctx
  = Return (status (lookup (tx_inputs h CKB_SOURCE_GROUP_INPUT)
                      (i + Z.of_nat n))).
Proof.
  induction n as [|n IH]; intros fuel i ctx Hi Hok Hfail Hnot Hfuel;
    (destruct fuel as [|fuel]; [lia|]);
    cbn [hash_group_inputs]; rewrite hash_input_eq.
  - rewrite Z.add_0_r in *.
    apply Z.eqb_neq in Hfail, Hnot. rewrite Hfail, Hnot, Hfail. reflexivity.
  - pose proof (Hok 0%nat ltac:(lia)) as Hst.
    rewrite Z.add_0_r in Hst. rewrite Hst.
    change (CKB_SUCCESS =? CKB_SUCCESS) with true. cbv iota.
    change (CKB_SUCCESS =? CKB_INDEX_OUT_OF_BOUND) with false. cbv iota.
    change (CKB_SUCCESS !=? CKB_SUCCESS) with false. cbv iota.
    replace (i + Z.of_nat (S n)) with (i + 1 + Z.of_nat n) by lia.
    apply IH; try lia.
    + intros j Hj. specialize (Hok (S j) ltac:(lia)).
      now replace (i + 1 + Z.of_nat j) with (i + Z.of_nat (S j)) by lia.
    + now replace (i + 1 + Z.of_nat n) with (i + Z.of_nat (S n)) by lia.
    + now replace (i + 1 + Z.of_nat n) with (i + Z.of_nat (S n)) by lia.
Qed.

(** X2. Unlike a witness, a group input that fails to load with a code
    other than [CKB_INDEX_OUT_OF_BOUND] makes [main] return the code of the
    host itself (lines 188-194), once the first witness is accepted. *)
Theorem group_input_failure_propagated (m : Machine) (h : Host)
    (n : nat) witness witness_len seg :
  load_first_witness m h = Continue (witness, witness_len, seg) ->
  (forall j, (j < n)%nat ->
     status (lookup (tx_inputs h CKB_SOURCE_GROUP_INPUT) (Z.of_nat j))
       = CKB_SUCCESS) ->
  status (lookup (tx_inputs h CKB_SOURCE_GROUP_INPUT) (Z.of_nat n))
    <> CKB_SUCCESS ->
  status (lookup (tx_inputs h CKB_SOURCE_GROUP_INPUT) (Z.of_nat n))
    <> CKB_INDEX_OUT_OF_BOUND ->
  main m h
  = Return (status (lookup (tx_inputs h CKB_SOURCE_GROUP_INPUT)
                      (Z.of_nat n))).
Proof.
  intros Hload Hok Hfail Hnot.
  assert (Hn : (n < length (tx_inputs h CKB_SOURCE_GROUP_INPUT))%nat).
  { destruct (Nat.lt_ge_cases n (length (tx_inputs h CKB_SOURCE_GROUP_INPUT)))
      as [?|Hge]; [assumption|].
    exfalso. apply Hnot. unfold lookup.
    destruct (Z.of_nat n <? 0) eqn:E; [reflexivity|].
    rewrite nth_overflow by lia. reflexivity. }
  unfold main, main_message, main_absorb.
  rewrite Hload. cbv beta iota zeta delta [bind].
  rewrite (hash_group_inputs_fails h n _ 0 _ (Z.le_refl 0)); try assumption.
  - reflexivity.
  - lia.
Qed.

Lemma group_input_failure_propagated_witness :
  main ref_machine host_failing_input = Return 2.
Proof.
  eapply (group_input_failure_propagated ref_machine host_failing_input 1).
  - vm_compute. reflexivity.
  - intros j Hj. assert (j = 0%nat) by lia. subst j. reflexivity.
  - vm_compute. discriminate.
  - vm_compute. discriminate.
Defined.

Lemma digest_witnesses_spec (h : Host) (source : Source) :
  forall fuel i ctx ctx',
  digest_witnesses h fuel source i ctx = Continue ctx' ->
  exists k : nat,
    (forall j, (j < k)%nat ->
       status (lookup (tx_witnesses h source) (i + Z.of_nat j)) = CKB_SUCCESS
       /\ zlen (content (lookup (tx_witnesses h source) (i + Z.of_nat j)))
          <= WITNESS_SIZE) /\
    status (lookup (tx_witnesses h source) (i + Z.of_nat k))
      = CKB_INDEX_OUT_OF_BOUND /\
    ctx' = ctx ++ framed_witnesses
                    (firstn k (skipn (Z.to_nat i) (tx_witnesses h source))).
Proof.
  induction fuel as [|fuel IH]; intros i ctx ctx' H;
    cbn [digest_witnesses] in H; [discriminate|].
  unfold ckb_load_witness, syscall_load in H.
  set (l := tx_witnesses h source) in *.
  destruct (status (lookup l i) =? CKB_SUCCESS) eqn:Hst; cbn [negb] in H.
  - apply Z.eqb_eq in Hst.
    change (CKB_SUCCESS =? CKB_INDEX_OUT_OF_BOUND) with false in H.
    change (CKB_SUCCESS !=? CKB_SUCCESS) with false in H. cbv iota in H.
    rewrite Z.sub_0_r, Z.max_r in H by apply zlen_nonneg.
    destruct (zlen (content (lookup l i)) >? WITNESS_SIZE) eqn:Hlen;
      [discriminate|].
    rewrite slice_whole in H by lia.
    rewrite u64_bytes_update, blake2b_update_whole in H.
    apply IH in H. destruct H as (k & Hok & Hend & Hctx).
    pose proof (lookup_ok_range _ _ Hst) as Hin.
    exists (S k). split; [|split].
    + intros [|j] Hj.
      * rewrite Z.add_0_r. split; [assumption|lia].
      * replace (i + Z.of_nat (S j)) with (i + 1 + Z.of_nat j) by lia.
        apply Hok. lia.
    + now replace (i + Z.of_nat (S k)) with (i + 1 + Z.of_nat k) by lia.
    + rewrite Hctx, (skipn_lookup l i Hin). unfold framed_witnesses.
      cbn [firstn map concat]. now rewrite <- !app_assoc.
  - destruct (status (lookup l i) =? CKB_INDEX_OUT_OF_BOUND) eqn:Hoob.
    + injection H as <-. exists 0%nat. split; [|split].
      * intros j Hj. lia.
      * rewrite Z.add_0_r. now apply Z.eqb_eq.
      * unfold framed_witnesses. cbn [firstn map concat].
        now rewrite app_nil_r.
    + rewrite Hst in H. discriminate.
Qed.

(** X3. A witness loop (lines 362-377, 380-395) that ends normally from
    index [i] absorbed the witnesses [i .. i + k - 1], each as its 8-byte
    length followed by its bytes, all of them loaded and at most 32 KiB
    long, and stopped at the first index answered
    [CKB_INDEX_OUT_OF_BOUND]. *)
Theorem witness_loop_framing (h : Host) (source : Source) (fuel : nat)
    (i : Z) (ctx ctx' : blake2b_state) :
  digest_witnesses h fuel source i ctx = Continue ctx' ->
  exists k : nat,
    (forall j, (j < k)%nat ->
       status (lookup (tx_witnesses h source) (i + Z.of_nat j)) = CKB_SUCCESS
       /\ zlen (content (lookup (tx_witnesses h source) (i + Z.of_nat j)))
          <= WITNESS_SIZE) /\
    status (lookup (tx_witnesses h source) (i + Z.of_nat k))
      = CKB_INDEX_OUT_OF_BOUND /\
    ctx' = ctx ++ framed_witnesses
                    (firstn k (skipn (Z.to_nat i) (tx_witnesses h source))).
Proof. apply digest_witnesses_spec. Qed.

Lemma witness_loop_framing_witness :
  exists k : nat,
    status (lookup (tx_witnesses host_more_witnesses CKB_SOURCE_GROUP_INPUT)
              (1 + Z.of_nat k)) = CKB_INDEX_OUT_OF_BOUND /\
    [5] ++ u64_bytes 3 ++ [1; 2; 3] ++ u64_bytes 0
    = [5] ++ framed_witnesses
               (firstn k (skipn (Z.to_nat 1)
                  (tx_witnesses host_more_witnesses CKB_SOURCE_GROUP_INPUT))).
Proof.
  destruct (witness_loop_framing host_more_witnesses CKB_SOURCE_GROUP_INPUT
              4 1 [5] ([5] ++ u64_bytes 3 ++ [1; 2; 3] ++ u64_bytes 0))
    as (k & _ & Hend & Hctx).
  { vm_compute. reflexivity. }
  exists k. split; assumption.
Defined.

(** X4. A witness that loads but is longer than the 32 KiB buffer is
    refused with [ERROR_WITNESS_SIZE]: the first witness by [main] (lines
    165-167), the others by the witness loops (lines 371-373, 389-391). *)
Theorem oversized_witness_refused (m : Machine) (h : Host) :
  (status (lookup (tx_witnesses h CKB_SOURCE_GROUP_INPUT) 0) = CKB_SUCCESS ->
   WITNESS_SIZE
     < zlen (content (lookup (tx_witnesses h CKB_SOURCE_GROUP_INPUT) 0)) ->
   main m h = Return ERROR_WITNESS_SIZE) /\
  (forall source fuel i ctx,
     status (lookup (tx_witnesses h source) i) = CKB_SUCCESS ->
     WITNESS_SIZE < zlen (content (lookup (tx_witnesses h source) i)) ->
     digest_witnesses h (S fuel) source i ctx = Return ERROR_WITNESS_SIZE).
Proof.
  split.
  - intros Hst Hlen.
    unfold main, main_message, main_absorb, load_first_witness.
    unfold ckb_load_witness, syscall_load. rewrite Hst.
    change (CKB_SUCCESS !=? CKB_SUCCESS) with false. cbv iota.
    change (CKB_SUCCESS !=? CKB_SUCCESS) with false. cbv iota.
    rewrite Z.sub_0_r, Z.max_r by apply zlen_nonneg.
    destruct (_ >? WITNESS_SIZE) eqn:E; [reflexivity|lia].
  - intros source fuel i ctx Hst Hlen. cbn [digest_witnesses].
    unfold ckb_load_witness, syscall_load. rewrite Hst.
    change (CKB_SUCCESS !=? CKB_SUCCESS) with false. cbv iota.
    change (CKB_SUCCESS =? CKB_INDEX_OUT_OF_BOUND) with false. cbv iota.
    change (CKB_SUCCESS !=? CKB_SUCCESS) with false. cbv iota.
    rewrite Z.sub_0_r, Z.max_r by apply zlen_nonneg.
    destruct (_ >? WITNESS_SIZE) eqn:E; [reflexivity|lia].
Qed.

Lemma oversized_witness_refused_witness :
  main ref_machine host_long_first_witness = Return ERROR_WITNESS_SIZE /\
  digest_witnesses host_oversized_witness 3 CKB_SOURCE_GROUP_INPUT 1 []
    = Return ERROR_WITNESS_SIZE.
Proof.
  split.
  - apply (proj1 (oversized_witness_refused ref_machine
                    host_long_first_witness)).
    + vm_compute. reflexivity.
    + vm_compute. reflexivity.
  - apply (proj2 (oversized_witness_refused ref_machine
                    host_oversized_witness)).
    + vm_compute. reflexivity.
    + vm_compute. reflexivity.
Defined.

(** ** The ops of the coverage array *)

Lemma Continue_inj {A : Type} (a b : A) : Continue a = Continue b -> a = b.
Proof. intros H. now injection H. Qed.

(** X5. [SIGHASH_ALL] (lines 213-224): a failing load returns the code of
    the host, a transaction hash that is not 32 bytes long returns
    [ERROR_SYSCALL], and otherwise the 32 bytes are absorbed. *)
Theorem sighash_all_absorbs_tx_hash (h : Host) (ctx : blake2b_state) :
  component_sighash_all h ctx
  = if status (tx_hash h) !=? CKB_SUCCESS then Return (status (tx_hash h))
    else if zlen (content (tx_hash h)) !=? BLAKE2B_BLOCK_SIZE
         then Return ERROR_SYSCALL
         else Continue (ctx ++ content (tx_hash h)).
Proof.
  unfold component_sighash_all, ckb_load_tx_hash, syscall_load.
  destruct (status (tx_hash h) =? CKB_SUCCESS) eqn:Hst; cbn [negb].
  - change (CKB_SUCCESS =? CKB_SUCCESS) with true. cbn [negb].
    rewrite Z.sub_0_r, Z.max_r by apply zlen_nonneg.
    destruct (zlen (content (tx_hash h)) =? BLAKE2B_BLOCK_SIZE) eqn:E;
      cbn [negb]; [|reflexivity].
    apply Z.eqb_eq in E.
    rewrite slice_whole by lia. rewrite <- E.
    now rewrite blake2b_update_whole.
  - now rewrite Hst.
Qed.

(** X6. The fast path of the cell labels (lines 230-238, 282-291): with
    mask [0xFF] the digest receives the whole serialized cell, then its
    whole data, then for [INPUT_CELL_SINCE] the since bytes; a cell or a
    cell data that the host refuses ends [main] with the code of the
    host. *)
Theorem cell_fast_path (m : Machine) (h : Host) (label index_code : Z)
    (ctx : blake2b_state) :
  let source :=
    if label =? LABEL_OUTPUT then CKB_SOURCE_OUTPUT else CKB_SOURCE_INPUT in
  let cell := tx_cells h source index_code in
  let data := tx_cell_data h source index_code in
  (forall ctx',
     component_cell m h label index_code MASK_CELL_ALL ctx = Continue ctx' ->
     ctx' = ctx ++ content cell ++ content data
              ++ (if label =? LABEL_INPUT_CELL_SINCE
                  then since_bytes m label
                         (content (tx_input_fields h source index_code
                                     CKB_INPUT_FIELD_SINCE))
                  else [])) /\
  (status cell <> CKB_SUCCESS ->
   component_cell m h label index_code MASK_CELL_ALL ctx
   = Return (status cell)) /\
  (status cell = CKB_SUCCESS -> status data <> CKB_SUCCESS ->
   component_cell m h label index_code MASK_CELL_ALL ctx
   = Return (status data)).
Proof.
  cbv zeta. unfold component_cell.
  change (MASK_CELL_ALL =? MASK_CELL_ALL) with true. cbv iota.
  set (source := if label =? LABEL_OUTPUT then CKB_SOURCE_OUTPUT
                 else CKB_SOURCE_INPUT).
  rewrite hash_cell_eq, call_served.
  split; [|split].
  - intros ctx' H.
    destruct (status (tx_cells h source index_code) =? CKB_SUCCESS);
      cbn [bind] in H; [|discriminate H].
    rewrite hash_cell_data_eq, call_served in H.
    destruct (status (tx_cell_data h source index_code) =? CKB_SUCCESS);
      cbn [bind] in H; [|discriminate H].
    destruct (label =? LABEL_INPUT_CELL_SINCE).
    + unfold ckb_checked_load_input_by_field in H.
      destruct (checked 8 (syscall_load _ 8 0)) as [[ret len] written]
        eqn:Hload in H.
      destruct (ret =? CKB_SUCCESS) eqn:Hret; cbn [negb] in H;
        [|discriminate H].
      apply Z.eqb_eq in Hret.
      destruct (checked_load_ok _ 8 ret len written ltac:(lia) Hload Hret)
        as [_ ->].
      injection H as <-. unfold since_bytes, blake2b_update.
      now rewrite <- !app_assoc.
    + injection H as <-. now rewrite app_nil_r, <- app_assoc.
  - intros Hst. apply Z.eqb_neq in Hst. rewrite Hst. reflexivity.
  - intros Hst Hd. rewrite Hst.
    change (CKB_SUCCESS =? CKB_SUCCESS) with true. cbn [bind].
    rewrite hash_cell_data_eq, call_served.
    apply Z.eqb_neq in Hd. rewrite Hd. reflexivity.
Qed.

Lemma cell_fast_path_witness :
  component_cell ref_machine host_whole_input_cell LABEL_INPUT_CELL_SINCE 0
    MASK_CELL_ALL [5]
  = Continue ([5] ++ repeat 0x71 61 ++ [0x81; 0x82; 0x83] ++ repeat 0 8) /\
  [5] ++ repeat 0x71 61 ++ [0x81; 0x82; 0x83] ++ repeat 0 8
  = [5] ++ content (tx_cells host_whole_input_cell CKB_SOURCE_INPUT 0)
      ++ content (tx_cell_data host_whole_input_cell CKB_SOURCE_INPUT 0)
      ++ since_bytes ref_machine LABEL_INPUT_CELL_SINCE
           (content (tx_input_fields host_whole_input_cell CKB_SOURCE_INPUT 0
                       CKB_INPUT_FIELD_SINCE)) /\
  component_cell ref_machine host_whole_output LABEL_OUTPUT 7 MASK_CELL_ALL [5]
  = Return CKB_INDEX_OUT_OF_BOUND.
Proof.
  assert (Run : component_cell ref_machine host_whole_input_cell
                  LABEL_INPUT_CELL_SINCE 0 MASK_CELL_ALL [5]
                = Continue ([5] ++ repeat 0x71 61 ++ [0x81; 0x82; 0x83]
                              ++ repeat 0 8)).
  { vm_compute. reflexivity. }
  split; [exact Run|]. split.
  - apply (proj1 (cell_fast_path ref_machine host_whole_input_cell
                    LABEL_INPUT_CELL_SINCE 0 [5]) _ Run).
  - apply (proj1 (proj2 (cell_fast_path ref_machine host_whole_output
                           LABEL_OUTPUT 7 [5]))).
    vm_compute. discriminate.
Defined.

(** X7. [INPUT_OUTPOINT] with a mask other than [0xFF] (lines 300-335):
    the digest receives the since bytes (bit [0x04]), then the [tx_hash] of
    the outpoint (bit [0x01]), then for bit [0x02] the bytes behind
    [index_seg]; the other bits are ignored.  Whatever the mask, the
    outpoint was loaded within the 4 KiB buffer and verified: an op that
    selects nothing still fails when the input does not exist. *)
Theorem outpoint_selection (m : Machine) (h : Host)
    (pos index_code mask : Z) (ctx ctx' : blake2b_state) :
  mask <> MASK_OUTPOINT_ALL ->
  component_input_outpoint m h pos index_code mask ctx = Continue ctx' ->
  let outpoint :=
    tx_input_fields h CKB_SOURCE_INPUT index_code CKB_INPUT_FIELD_OUT_POINT in
  status outpoint = CKB_SUCCESS /\
  zlen (content outpoint) <= INPUT_SIZE /\
  MolReader_OutPoint_verify m (content outpoint) = MOL_OK /\
  ctx' = ctx
    ++ (if Z.testbit mask 2
        then since_bytes m LABEL_INPUT_OUTPOINT
               (content (tx_input_fields h CKB_SOURCE_INPUT index_code
                           CKB_INPUT_FIELD_SINCE))
        else [])
    ++ (if Z.testbit mask 0
        then seg_bytes (content outpoint)
               (MolReader_OutPoint_get_tx_hash m (content outpoint))
        else [])
    ++ (if Z.testbit mask 1
        then seg_bytes (stale_index_seg m pos)
               (MolReader_OutPoint_get_tx_hash m (stale_index_seg m pos))
        else []).
Proof.
  intros Hall H. cbv zeta. unfold component_input_outpoint in H.
  apply Z.eqb_neq in Hall. rewrite Hall in H.
  apply bind_Continue in H. destruct H as (c1 & H1 & H2).
  change MASK_OUTPOINT_SINCE with (2 ^ 2) in H1.
  rewrite land_bit_test in H1 by lia.
  assert (E1 : c1 = ctx ++
            (if Z.testbit mask 2
             then since_bytes m LABEL_INPUT_OUTPOINT
                    (content (tx_input_fields h CKB_SOURCE_INPUT index_code
                                CKB_INPUT_FIELD_SINCE))
             else [])).
  { destruct (Z.testbit mask 2).
    - unfold ckb_checked_load_input_by_field in H1.
      destruct (checked 8 (syscall_load _ 8 0)) as [[ret len] written]
        eqn:Hload in H1.
      destruct (ret =? CKB_SUCCESS) eqn:Hret; cbn [negb] in H1;
        [|discriminate H1].
      apply Z.eqb_eq in Hret.
      destruct (checked_load_ok _ 8 ret len written ltac:(lia) Hload Hret)
        as [_ ->].
      injection H1 as <-. reflexivity.
    - injection H1 as <-. now rewrite app_nil_r. }
  unfold ckb_checked_load_input_by_field in H2.
  set (o := tx_input_fields h CKB_SOURCE_INPUT index_code
              CKB_INPUT_FIELD_OUT_POINT) in *.
  destruct (checked INPUT_SIZE (syscall_load o INPUT_SIZE 0))
    as [[ret len] buf] eqn:Hload.
  destruct (ret =? CKB_SUCCESS) eqn:Hret; cbn [negb] in H2;
    [|discriminate H2].
  apply Z.eqb_eq in Hret.
  assert (Hst : status o = CKB_SUCCESS /\ zlen (content o) <= INPUT_SIZE).
  { revert Hload. unfold checked, syscall_load.
    destruct (status o =? CKB_SUCCESS) eqn:Hst; cbn [negb].
    - change (CKB_SUCCESS =? CKB_SUCCESS) with true. cbn [andb].
      rewrite Z.sub_0_r, Z.max_r by apply zlen_nonneg.
      destruct (zlen (content o) >? INPUT_SIZE) eqn:E.
      + intros Hc. injection Hc as Hc _ _. rewrite Hret in Hc.
        discriminate Hc.
      + intros _. apply Z.eqb_eq in Hst. split; [assumption|lia].
    - rewrite Hst. cbn [andb]. intros Hc. injection Hc as Hc _ _.
      apply Z.eqb_neq in Hst. rewrite Hret in Hc. now contradiction Hst. }
  destruct (checked_load_ok o INPUT_SIZE ret len buf
              ltac:(unfold INPUT_SIZE; lia) Hload Hret) as [-> ->].
  replace (seg_bytes (content o) {| ptr := 0; size := zlen (content o) |})
    with (content o) in H2
    by (unfold seg_bytes; cbn [ptr size]; now rewrite slice_whole by lia).
  destruct (MolReader_OutPoint_verify m (content o) =? MOL_OK) eqn:Hv;
    cbn [negb] in H2; [|discriminate H2].
  apply Z.eqb_eq in Hv.
  change MASK_OUTPOINT_TX_HASH with (2 ^ 0) in H2.
  change MASK_OUTPOINT_INDEX with (2 ^ 1) in H2.
  rewrite !land_bit_test in H2 by lia.
  apply Continue_inj in H2. rewrite <- H2.
  destruct Hst as [Hst Hlen].
  split; [assumption|]. split; [assumption|]. split; [assumption|].
  rewrite E1.
  destruct (Z.testbit mask 0), (Z.testbit mask 1);
    unfold blake2b_update, seg_bytes, slice, sub_seg;
    cbn [ptr size Z.add];
    rewrite ?app_nil_r, <- ?app_assoc; reflexivity.
Qed.

Lemma outpoint_selection_witness :
  component_input_outpoint ref_machine host_outpoint_index 0 0 5 [9]
  = Continue ([9] ++ repeat 0 8 ++ repeat 0x11 32 ++ []) /\
  status (tx_input_fields host_outpoint_index CKB_SOURCE_INPUT 0
            CKB_INPUT_FIELD_OUT_POINT) = CKB_SUCCESS /\
  [9] ++ repeat 0 8 ++ repeat 0x11 32 ++ []
  = [9] ++ since_bytes ref_machine LABEL_INPUT_OUTPOINT (repeat 0 8)
      ++ seg_bytes ref_outpoint
           (MolReader_OutPoint_get_tx_hash ref_machine ref_outpoint)
      ++ [].
Proof.
  assert (Run : component_input_outpoint ref_machine host_outpoint_index
                  0 0 5 [9]
                = Continue ([9] ++ repeat 0 8 ++ repeat 0x11 32 ++ [])).
  { vm_compute. reflexivity. }
  split; [exact Run|].
  destruct (outpoint_selection ref_machine host_outpoint_index 0 0 5 [9] _
              ltac:(discriminate) Run) as (Hst & _ & _ & Hctx).
  split; [exact Hst|exact Hctx].
Defined.

(** X8. The fast path of [INPUT_OUTPOINT] (lines 294-298): with mask
    [0xFF] the whole serialized input is absorbed, or the code of the host
    is returned. *)
Theorem outpoint_fast_path (m : Machine) (h : Host)
    (pos index_code : Z) (ctx : blake2b_state) :
  component_input_outpoint m h pos index_code MASK_OUTPOINT_ALL ctx
  = if status (lookup (tx_inputs h CKB_SOURCE_INPUT) index_code)
       =? CKB_SUCCESS
    then Continue
           (ctx ++ content (lookup (tx_inputs h CKB_SOURCE_INPUT) index_code))
    else Return (status (lookup (tx_inputs h CKB_SOURCE_INPUT) index_code)).
Proof.
  unfold component_input_outpoint.
  change (MASK_OUTPOINT_ALL =? MASK_OUTPOINT_ALL) with true. cbv iota.
  now rewrite hash_input_eq, call_served.
Qed.

(** X9. A cell op with mask 0 on [OUTPUT] or [INPUT_CELL] reads nothing
    and leaves the digest as it is (lines 240-280): it is accepted even
    when no cell exists at its index. *)
Theorem cell_mask_zero_reads_nothing (m : Machine) (h : Host)
    (label index_code : Z) (ctx : blake2b_state) :
  label <> LABEL_INPUT_CELL_SINCE ->
  component_cell m h label index_code 0 ctx = Continue ctx.
Proof.
  intros Hl. apply Z.eqb_neq in Hl.
  unfold component_cell, hash_masked_cell. rewrite Hl. reflexivity.
Qed.

Lemma cell_mask_zero_reads_nothing_witness :
  component_cell ref_machine host_minimal LABEL_OUTPUT 4095 0 [1; 2]
  = Continue [1; 2].
Proof.
  apply (cell_mask_zero_reads_nothing ref_machine host_minimal LABEL_OUTPUT
           4095 [1; 2]).
  discriminate.
Defined.

(** X10. Selecting a field of the type script (mask bits [0x02], [0x04],
    [0x08], capacity not selected) of a cell whose type script the host
    does not serve ends with the code of the host; a type script that
    loads but does not verify ends with [ERROR_ENCODING] (lines 128-138,
    251-267). *)
Theorem type_script_selection_failures (m : Machine) (h : Host)
    (label index_code mask : Z) (ctx : blake2b_state) :
  let source :=
    if label =? LABEL_OUTPUT then CKB_SOURCE_OUTPUT else CKB_SOURCE_INPUT in
  let type_script :=
    tx_cell_fields h source index_code CKB_CELL_FIELD_TYPE in
  mask <> MASK_CELL_ALL ->
  Z.testbit mask 0 = false ->
  Z.testbit mask 1 || Z.testbit mask 2 || Z.testbit mask 3 = true ->
  (status type_script <> CKB_SUCCESS ->
   component_cell m h label index_code mask ctx
   = Return (status type_script)) /\
  (status type_script = CKB_SUCCESS ->
   zlen (content type_script) <= SCRIPT_SIZE ->
   MolReader_Script_verify m (content type_script) <> MOL_OK ->
   component_cell m h label index_code mask ctx = Return ERROR_ENCODING).
Proof.
  cbv zeta. intros Hall Hcap Hany.
  remember (if label =? LABEL_OUTPUT then CKB_SOURCE_OUTPUT
            else CKB_SOURCE_INPUT) as source eqn:Hsource.
  assert (Step : forall r,
            hash_script_fields m h ctx index_code source CKB_CELL_FIELD_TYPE
              (if Z.testbit mask 3
               then Z.lor
                      (if Z.testbit mask 2
                       then Z.lor
                              (if Z.testbit mask 1
                               then Z.lor 0 MASK_CELL_LOCK_CODE_HASH else 0)
                              MASK_CELL_LOCK_ARGS
                       else if Z.testbit mask 1
                            then Z.lor 0 MASK_CELL_LOCK_CODE_HASH else 0)
                      MASK_CELL_LOCK_HASH_TYPE
               else if Z.testbit mask 2
                    then Z.lor
                           (if Z.testbit mask 1
                            then Z.lor 0 MASK_CELL_LOCK_CODE_HASH else 0)
                           MASK_CELL_LOCK_ARGS
                    else if Z.testbit mask 1
                         then Z.lor 0 MASK_CELL_LOCK_CODE_HASH else 0)
            = (r, ctx) ->
            r <> 0 ->
            component_cell m h label index_code mask ctx = Return r).
  { intros r Hr Hnz. unfold component_cell, hash_masked_cell.
    apply Z.eqb_neq in Hall. rewrite Hall. rewrite <- Hsource.
    change MASK_CELL_CAPACITY with (2 ^ 0).
    change MASK_CELL_ANY_TYPE with (Z.lor (Z.lor (2 ^ 1) (2 ^ 2)) (2 ^ 3)).
    change MASK_CELL_TYPE_CODE_HASH with (2 ^ 1).
    change MASK_CELL_TYPE_ARGS with (2 ^ 2).
    change MASK_CELL_TYPE_HASH_TYPE with (2 ^ 3).
    rewrite land_any_test by lia. rewrite !land_bit_test by lia.
    rewrite Hcap, Hany. cbn [bind]. rewrite Hr.
    unfold call. apply Z.eqb_neq in Hnz.
    change CKB_SUCCESS with 0. rewrite Hnz. reflexivity. }
  split.
  - intros Hst. apply Step; [|assumption].
    unfold hash_script_fields, ckb_checked_load_cell_by_field,
      ckb_load_cell_by_field, checked, syscall_load.
    apply Z.eqb_neq in Hst.
    repeat (rewrite Hst; cbv beta iota zeta delta [negb andb]).
    reflexivity.
  - intros Hst Hlen Hv. apply Step; [|discriminate].
    unfold hash_script_fields, ckb_checked_load_cell_by_field,
      ckb_load_cell_by_field, checked, syscall_load.
    rewrite Hst.
    change (CKB_SUCCESS !=? CKB_SUCCESS) with false. cbv iota.
    change (CKB_SUCCESS =? CKB_SUCCESS) with true. cbn [andb].
    rewrite Z.sub_0_r, Z.max_r by apply zlen_nonneg.
    destruct (_ >? SCRIPT_SIZE) eqn:E; [lia|].
    rewrite (slice_whole _ SCRIPT_SIZE) by lia.
    change (CKB_SUCCESS !=? CKB_SUCCESS) with false. cbv iota.
    unfold seg_bytes. cbn [ptr size]. rewrite !slice_whole by lia.
    apply Z.eqb_neq in Hv. rewrite Hv. reflexivity.
Qed.

Lemma type_script_selection_failures_witness :
  component_cell ref_machine host_no_type_script LABEL_OUTPUT 0 0x0E [5]
  = Return 2 /\
  component_cell ref_machine host_garbled_type_script LABEL_OUTPUT 0 0x0E [5]
  = Return ERROR_ENCODING.
Proof.
  split.
  - apply (proj1 (type_script_selection_failures ref_machine
                    host_no_type_script LABEL_OUTPUT 0 0x0E [5]
                    ltac:(discriminate) eq_refl eq_refl)).
    vm_compute. discriminate.
  - apply (proj2 (type_script_selection_failures ref_machine
                    host_garbled_type_script LABEL_OUTPUT 0 0x0E [5]
                    ltac:(discriminate) eq_refl eq_refl)).
    + vm_compute. reflexivity.
    + vm_compute. discriminate.
    + vm_compute. discriminate.
Defined.

(** ** The coverage loop *)

Lemma process_sighash_array_step (m : Machine) (h : Host) (fuel : nat)
    witness seg (i : Z) (ctx : blake2b_state) :
  i + 3 <= size seg ->
  process_sighash_array m h (S fuel) witness seg i ctx
  = bind (process_component m h i (op_label m witness seg i)
            (op_index_code m witness seg i) (op_mask m witness seg i) ctx)
      (fun r =>
         let '(has_more, ctx) := r in
         if has_more
         then process_sighash_array m h fuel witness seg (i + 1) ctx
         else Continue (i + 1, ctx)).
Proof.
  intros Hi. cbn [process_sighash_array].
  destruct (i + 3 >? size seg) eqn:G; [lia|]. reflexivity.
Qed.

(** X11. An op whose label is none of 0..4 and 15 ends the coverage loop
    with [ERROR_INVALID_LABEL], whatever the host holds (lines 341-342);
    for a first byte in [0x50 .. 0xEF] the label is such. *)
Theorem unknown_label_rejected (m : Machine) (h : Host) (fuel : nat)
    witness seg (i : Z) (ctx : blake2b_state) :
  i + 3 <= size seg ->
  0x50 <= sighash_array m witness seg (i * 3 + 0) <= 0xEF ->
  5 <= op_label m witness seg i <= 14 /\
  process_sighash_array m h (S fuel) witness seg i ctx
  = Return ERROR_INVALID_LABEL.
Proof.
  intros Hi Hb.
  assert (Hl : 5 <= op_label m witness seg i <= 14).
  { unfold op_label. rewrite Z.shiftr_div_pow2 by lia.
    change (2 ^ 4) with 16.
    split.
    - apply Z.div_le_lower_bound; lia.
    - apply Z.lt_succ_r. apply Z.div_lt_upper_bound; lia. }
  split; [exact Hl|].
  rewrite process_sighash_array_step by assumption.
  unfold process_component.
  unfold LABEL_SIGHASH_ALL, LABEL_OUTPUT, LABEL_INPUT_CELL,
    LABEL_INPUT_CELL_SINCE, LABEL_INPUT_OUTPOINT, LABEL_END_OF_LIST.
  destruct (Z.eqb_spec (op_label m witness seg i) 0); [lia|].
  destruct (Z.eqb_spec (op_label m witness seg i) 1); [lia|].
  destruct (Z.eqb_spec (op_label m witness seg i) 2); [lia|].
  destruct (Z.eqb_spec (op_label m witness seg i) 3); [lia|].
  destruct (Z.eqb_spec (op_label m witness seg i) 4); [lia|].
  destruct (Z.eqb_spec (op_label m witness seg i) 15); [lia|].
  reflexivity.
Qed.

Lemma unknown_label_rejected_witness :
  main ref_machine host_bad_label = Return ERROR_INVALID_LABEL /\
  process_sighash_array ref_machine host_bad_label 1
    (witness_args ([0x70; 0; 0; 0xF0; 0; 0] ++ ref_signature) [])
    {| ptr := 20; size := 71 |} 0 [] = Return ERROR_INVALID_LABEL.
Proof.
  split; [vm_compute; reflexivity|].
  apply (unknown_label_rejected ref_machine host_bad_label 0
           (witness_args ([0x70; 0; 0; 0xF0; 0; 0] ++ ref_signature) [])
           {| ptr := 20; size := 71 |} 0 []).
  - vm_compute. discriminate.
  - vm_compute. split; discriminate.
Defined.

Lemma lor_disjoint_add (q r : Z) :
  0 <= q -> 0 <= r < 256 -> Z.lor (Z.shiftl q 8) r = q * 256 + r.
Proof.
  intros Hq Hr.
  rewrite Z.shiftl_mul_pow2 by lia. change (2 ^ 8) with 256.
  rewrite <- Z.lxor_lor.
  - symmetry. apply Z.add_nocarry_lxor.
    apply Z.bits_inj'. intros n Hn. rewrite Z.land_spec, Z.bits_0.
    destruct (Z.ltb_spec n 8).
    + replace (q * 256) with (q * 2 ^ 8) by reflexivity.
      rewrite Z.mul_pow2_bits_low by lia. reflexivity.
    + replace (Z.testbit r n) with false; [apply andb_false_r|].
      symmetry. destruct (Z.eq_dec r 0) as [->|Hne].
      * apply Z.bits_0.
      * apply Z.bits_above_log2; [lia|].
        apply Z.log2_lt_pow2; [lia|].
        apply Z.lt_le_trans with (2 ^ 8); [change (2 ^ 8) with 256; lia|].
        apply Z.pow_le_mono_r; lia.
  - apply Z.bits_inj'. intros n Hn. rewrite Z.land_spec, Z.bits_0.
    destruct (Z.ltb_spec n 8).
    + replace (q * 256) with (q * 2 ^ 8) by reflexivity.
      rewrite Z.mul_pow2_bits_low by lia. reflexivity.
    + replace (Z.testbit r n) with false; [apply andb_false_r|].
      symmetry. destruct (Z.eq_dec r 0) as [->|Hne].
      * apply Z.bits_0.
      * apply Z.bits_above_log2; [lia|].
        apply Z.log2_lt_pow2; [lia|].
        apply Z.lt_le_trans with (2 ^ 8); [change (2 ^ 8) with 256; lia|].
        apply Z.pow_le_mono_r; lia.
Qed.

(** X12. The bit packing of an op (lines 207-210): when the first two
    bytes of the op at position [i] are [16 * label + index / 256] and
    [index mod 256], with [label < 16] and [index < 4096], the loop
    dispatches this very label and this very index. *)
Theorem op_decoding (m : Machine) (witness : bytes) (seg : mol_seg_t)
    (i label index : Z) :
  0 <= label < 16 ->
  0 <= index < 4096 ->
  sighash_array m witness seg (i * 3 + 0) = 16 * label + index / 256 ->
  sighash_array m witness seg (i * 3 + 1) = index mod 256 ->
  op_label m witness seg i = label /\
  op_index_code m witness seg i = index /\
  (forall (h : Host) fuel ctx,
     i + 3 <= size seg ->
     process_sighash_array m h (S fuel) witness seg i ctx
     = bind (process_component m h i label index (op_mask m witness seg i)
               ctx)
         (fun r =>
            let '(has_more, ctx) := r in
            if has_more
            then process_sighash_array m h fuel witness seg (i + 1) ctx
            else Continue (i + 1, ctx))).
Proof.
  intros Hl Hi H0 H1.
  assert (Hq : 0 <= index / 256 < 16).
  { split; [apply Z.div_pos; lia|apply Z.div_lt_upper_bound; lia]. }
  assert (El : op_label m witness seg i = label).
  { unfold op_label. rewrite H0, Z.shiftr_div_pow2 by lia.
    change (2 ^ 4) with 16.
    rewrite Z.mul_comm, Z.div_add_l by lia.
    rewrite Z.div_small by lia. lia. }
  assert (Ei : op_index_code m witness seg i = index).
  { unfold op_index_code. rewrite H0, H1.
    change 0xF with (Z.ones 4). rewrite Z.land_ones by lia.
    change (2 ^ 4) with 16.
    rewrite Z.add_comm, Z.mul_comm, Z.mod_add by lia.
    rewrite Z.mod_small by lia.
    rewrite lor_disjoint_add.
    - pose proof (Z.div_mod index 256 ltac:(lia)). lia.
    - lia.
    - apply Z.mod_pos_bound. lia. }
  split; [exact El|]. split; [exact Ei|].
  intros h fuel ctx Hg.
  rewrite process_sighash_array_step by assumption.
  now rewrite El, Ei.
Qed.

Lemma op_decoding_witness :
  op_label ref_machine
    (witness_args ([0x4A; 0xBC; 1; 0xF0; 0; 0] ++ ref_signature) [])
    {| ptr := 20; size := 71 |} 0 = 4 /\
  op_index_code ref_machine
    (witness_args ([0x4A; 0xBC; 1; 0xF0; 0; 0] ++ ref_signature) [])
    {| ptr := 20; size := 71 |} 0 = 0xABC.
Proof.
  destruct (op_decoding ref_machine
              (witness_args ([0x4A; 0xBC; 1; 0xF0; 0; 0] ++ ref_signature) [])
              {| ptr := 20; size := 71 |} 0 4 0xABC)
    as (El & Ei & _).
  - lia.
  - lia.
  - vm_compute. reflexivity.
  - vm_compute. reflexivity.
  - split; assumption.
Defined.

(** X13. Lock bytes that are accepted are at least 68 bytes long, their
    coverage region is a whole number of ops, and the loop consumed
    exactly these ops: the last one is the first [END_OF_LIST] of the
    array (lines 202-212, 338-349). *)
Theorem accepted_lock_sizes (m : Machine) (h : Host)
    witness witness_len seg :
  main m h = Return 0 ->
  load_first_witness m h = Continue (witness, witness_len, seg) ->
  68 <= size seg /\
  (size seg - SIGNATURE_SIZE) mod 3 = 0 /\
  op_label m witness seg (coverage_ops seg - 1) = LABEL_END_OF_LIST /\
  (forall j, 0 <= j < coverage_ops seg - 1 ->
     op_label m witness seg j <> LABEL_END_OF_LIST).
Proof.
  intros Hmain Hload.
  apply main_success_inv in Hmain. destruct Hmain as (sg & ctx & Habs & _).
  apply main_absorb_inv in Habs.
  destruct Habs as (w & wl & sg' & g & i & c1 & w' & c2 & c3
                    & H0 & H1 & H2 & H3 & _).
  rewrite Hload in H0. injection H0 as <- <- <-.
  apply digest_first_witness_size in H3.
  apply process_sighash_array_ends in H2.
  destruct H2 as (Hpos & _ & Hend & Hbefore).
  assert (Hops : coverage_ops seg = i).
  { unfold coverage_ops. rewrite H3.
    replace (3 * i + SIGNATURE_SIZE - SIGNATURE_SIZE) with (i * 3) by lia.
    apply Z.div_mul. lia. }
  rewrite Hops. unfold SIGNATURE_SIZE in *.
  repeat split.
  - lia.
  - rewrite H3. replace (3 * i + 65 - 65) with (i * 3) by lia.
    apply Z.mod_mul. lia.
  - assumption.
  - intros j Hj. apply Hbefore. lia.
Qed.

Lemma accepted_lock_sizes_witness :
  68 <= 68 /\ (68 - SIGNATURE_SIZE) mod 3 = 0 /\
  op_label ref_machine (witness_args ([0xF0; 0; 0] ++ ref_signature) [])
    {| ptr := 20; size := 68 |} 0 = LABEL_END_OF_LIST.
Proof.
  destruct (accepted_lock_sizes ref_machine host_minimal
              (witness_args ([0xF0; 0; 0] ++ ref_signature) []) 88
              {| ptr := 20; size := 68 |})
    as (Hmin & Hmod & Hend & _).
  - vm_compute. reflexivity.
  - vm_compute. reflexivity.
  - split; [exact Hmin|]. split; [exact Hmod|exact Hend].
Defined.

(** ** The first witness, the digest and the verdict *)

(** X14. For ops made of bytes, the label is below 16 and the index below
    4096 (lines 207-209): an op cannot name an index beyond 4095. *)
Theorem op_fields_bounded (m : Machine) (witness : bytes) (seg : mol_seg_t)
    (i : Z) :
  0 <= sighash_array m witness seg (i * 3 + 0) < 256 ->
  0 <= sighash_array m witness seg (i * 3 + 1) < 256 ->
  0 <= op_label m witness seg i < 16 /\
  0 <= op_index_code m witness seg i < 4096.
Proof.
  intros H0 H1. split.
  - unfold op_label. rewrite Z.shiftr_div_pow2 by lia. change (2 ^ 4) with 16.
    split; [apply Z.div_pos; lia|apply Z.div_lt_upper_bound; lia].
  - unfold op_index_code.
    change 0xF with (Z.ones 4). rewrite Z.land_ones by lia.
    change (2 ^ 4) with 16.
    pose proof (Z.mod_pos_bound (sighash_array m witness seg (i * 3 + 0)) 16
                  ltac:(lia)) as Hq.
    rewrite lor_disjoint_add by lia. lia.
Qed.

Lemma op_fields_bounded_witness :
  0 <= op_label ref_machine
         (witness_args ([0xFF; 0xFF; 1; 0xF0; 0; 0] ++ ref_signature) [])
         {| ptr := 20; size := 71 |} 0 < 16 /\
  0 <= op_index_code ref_machine
         (witness_args ([0xFF; 0xFF; 1; 0xF0; 0; 0] ++ ref_signature) [])
         {| ptr := 20; size := 71 |} 0 < 4096.
Proof.
  apply (op_fields_bounded ref_machine
           (witness_args ([0xFF; 0xFF; 1; 0xF0; 0; 0] ++ ref_signature) [])
           {| ptr := 20; size := 71 |} 0).
  - vm_compute. split; [discriminate|reflexivity].
  - vm_compute. split; [discriminate|reflexivity].
Defined.

(** X15. A first witness that loads and fits the buffer but is no valid
    [WitnessArgs], or has no lock, makes [main] return [ERROR_ENCODING]
    (lines 74-81, 171-174). *)
Theorem first_witness_encoding (m : Machine) (h : Host) :
  let witness :=
    content (lookup (tx_witnesses h CKB_SOURCE_GROUP_INPUT) 0) in
  status (lookup (tx_witnesses h CKB_SOURCE_GROUP_INPUT) 0) = CKB_SUCCESS ->
  zlen witness <= WITNESS_SIZE ->
  (MolReader_WitnessArgs_verify m witness <> MOL_OK ->
   main m h = Return ERROR_ENCODING) /\
  (MolReader_WitnessArgs_verify m witness = MOL_OK ->
   MolReader_BytesOpt_is_none m
     (seg_bytes witness (MolReader_WitnessArgs_get_lock m witness)) = true ->
   main m h = Return ERROR_ENCODING).
Proof.
  cbv zeta. intros Hst Hlen.
  set (witness := content (lookup (tx_witnesses h CKB_SOURCE_GROUP_INPUT) 0))
    in *.
  assert (Hload : ckb_load_witness h WITNESS_SIZE 0 0 CKB_SOURCE_GROUP_INPUT
                  = (CKB_SUCCESS, zlen witness, witness)).
  { unfold ckb_load_witness, syscall_load. rewrite Hst.
    change (CKB_SUCCESS !=? CKB_SUCCESS) with false. cbv iota.
    fold witness.
    rewrite Z.sub_0_r, Z.max_r by apply zlen_nonneg.
    now rewrite slice_whole by lia. }
  assert (Hwhole : seg_bytes witness {| ptr := 0; size := zlen witness |}
                   = witness).
  { unfold seg_bytes. cbn [ptr size]. apply slice_whole. lia. }
  assert (Step : fst (extract_witness_lock m witness (zlen witness))
                 = ERROR_ENCODING ->
                 main m h = Return ERROR_ENCODING).
  { intros He. unfold main, main_message, main_absorb, load_first_witness.
    rewrite Hload.
    change (CKB_SUCCESS !=? CKB_SUCCESS) with false. cbv iota.
    destruct (zlen witness >? WITNESS_SIZE) eqn:E; [lia|].
    destruct (extract_witness_lock m witness (zlen witness)) as [ret sg].
    cbn [fst] in He. subst ret. reflexivity. }
  split.
  - intros Hv. apply Step. unfold extract_witness_lock. rewrite Hwhole.
    apply Z.eqb_neq in Hv. rewrite Hv. reflexivity.
  - intros Hv Hnone. apply Step. unfold extract_witness_lock.
    rewrite Hwhole, Hv.
    change (MOL_OK !=? MOL_OK) with false. cbv iota.
    replace (sub_seg {| ptr := 0; size := zlen witness |}
               (MolReader_WitnessArgs_get_lock m witness))
      with (MolReader_WitnessArgs_get_lock m witness)
      by (destruct (MolReader_WitnessArgs_get_lock m witness); reflexivity).
    rewrite Hnone. reflexivity.
Qed.

Lemma first_witness_encoding_witness :
  main ref_machine host_garbled_first_witness = Return ERROR_ENCODING /\
  main ref_machine host_no_lock = Return ERROR_ENCODING.
Proof.
  split.
  - apply (proj1 (first_witness_encoding ref_machine
                    host_garbled_first_witness eq_refl
                    ltac:(vm_compute; discriminate))).
    vm_compute. discriminate.
  - apply (proj2 (first_witness_encoding ref_machine host_no_lock eq_refl
                    ltac:(vm_compute; discriminate))).
    + vm_compute. reflexivity.
    + vm_compute. reflexivity.
Defined.

(** X16. The input of the hash, in full.  When a message is produced, the
    digest session absorbed, in this order: the group inputs up to the
    first index out of bound; what the coverage ops selected; the 8-byte
    length of the first witness and the first witness with its signature
    zeroed; the other witnesses of the group, from index 1, each with its
    length; the witnesses from index [ckb_calculate_inputs_len] on, each
    with its length (lines 184-397). *)
Theorem digest_layout (m : Machine) (h : Host) signature_bytes ctx :
  main_absorb m h = Continue (signature_bytes, ctx) ->
  exists (k kg kt : nat) witness seg i ctx0 covered,
    load_first_witness m h = Continue (witness, zlen witness, seg) /\
    status (lookup (tx_inputs h CKB_SOURCE_GROUP_INPUT) (Z.of_nat k))
      = CKB_INDEX_OUT_OF_BOUND /\
    process_sighash_array m h (Z.to_nat (size seg)) witness seg 0
      (group_inputs_bytes h k) = Continue (i, ctx0) /\
    ctx0 = group_inputs_bytes h k ++ covered /\
    status (lookup (tx_witnesses h CKB_SOURCE_GROUP_INPUT)
              (1 + Z.of_nat kg)) = CKB_INDEX_OUT_OF_BOUND /\
    status (lookup (tx_witnesses h CKB_SOURCE_INPUT)
              (ckb_calculate_inputs_len h + Z.of_nat kt))
      = CKB_INDEX_OUT_OF_BOUND /\
    ctx = group_inputs_bytes h k ++ covered
            ++ u64_bytes (zlen witness)
            ++ mem_set witness (ptr seg + i * 3) SIGNATURE_SIZE 0
            ++ framed_witnesses
                 (firstn kg (skipn 1 (tx_witnesses h CKB_SOURCE_GROUP_INPUT)))
            ++ framed_witnesses
                 (firstn kt
                    (skipn (Z.to_nat (ckb_calculate_inputs_len h))
                       (tx_witnesses h CKB_SOURCE_INPUT))).
Proof.
  intros H. apply main_absorb_inv in H.
  destruct H as (witness & witness_len & seg & g & i & c1 & w' & c2 & c3
                 & H0 & H1 & H2 & H3 & H4 & H5).
  pose proof (load_first_witness_inv _ _ _ _ _ H0)
    as (_ & _ & Hlen & _ & _ & _).
  subst witness_len.
  pose proof (hash_group_inputs_spec h _ _ _ _ (Z.le_refl 0) H1)
    as (k & _ & Hend & Hg).
  cbn [Z.to_nat skipn app blake2b_init] in Hg.
  fold (group_inputs_bytes h k) in Hg. subst g.
  destruct (process_sighash_array_extends _ _ _ _ _ _ _ _ _ H2)
    as [covered Hcov].
  apply digest_witnesses_spec in H4. destruct H4 as (kg & _ & Hg1 & Hc3).
  apply digest_witnesses_spec in H5. destruct H5 as (kt & _ & Hg2 & Hctx).
  unfold digest_first_witness in H3.
  destruct (_ !=? _) in H3; [discriminate|].
  apply Continue_inj in H3. injection H3 as _ _ Hc2.
  exists k, kg, kt, witness, seg, i, c1, covered.
  repeat split; try assumption.
  rewrite Hctx, Hc3, <- Hc2, u64_bytes_update. unfold blake2b_update.
  replace (firstn (Z.to_nat (zlen witness))
             (mem_set witness (ptr seg + i * 3) SIGNATURE_SIZE 0))
    with (mem_set witness (ptr seg + i * 3) SIGNATURE_SIZE 0).
  - rewrite Hcov. change (Z.to_nat 1) with 1%nat.
    now rewrite <- !app_assoc.
  - symmetry. apply firstn_all2. unfold mem_set, zlen.
    rewrite mem_set_from_length. lia.
Qed.

Lemma digest_layout_witness :
  exists (k kg kt : nat) witness seg i covered,
    load_first_witness ref_machine host_more_witnesses
      = Continue (witness, zlen witness, seg) /\
    ref_input ++ u64_bytes 88
      ++ witness_args ([0xF0; 0; 0] ++ repeat 0 65) []
      ++ (u64_bytes 3 ++ [1; 2; 3] ++ u64_bytes 0)
      ++ (u64_bytes 2 ++ [9; 9])
    = group_inputs_bytes host_more_witnesses k ++ covered
        ++ u64_bytes (zlen witness)
        ++ mem_set witness (ptr seg + i * 3) SIGNATURE_SIZE 0
        ++ framed_witnesses
             (firstn kg
                (skipn 1
                   (tx_witnesses host_more_witnesses CKB_SOURCE_GROUP_INPUT)))
        ++ framed_witnesses
             (firstn kt
                (skipn (Z.to_nat (ckb_calculate_inputs_len host_more_witnesses))
                   (tx_witnesses host_more_witnesses CKB_SOURCE_INPUT))).
Proof.
  destruct (digest_layout ref_machine host_more_witnesses ref_signature
              (ref_input ++ u64_bytes 88
                 ++ witness_args ([0xF0; 0; 0] ++ repeat 0 65) []
                 ++ (u64_bytes 3 ++ [1; 2; 3] ++ u64_bytes 0)
                 ++ (u64_bytes 2 ++ [9; 9])))
    as (k & kg & kt & witness & seg & i & ctx0 & covered
        & Hload & _ & _ & _ & _ & _ & Hctx).
  { vm_compute. reflexivity. }
  exists k, kg, kt, witness, seg, i, covered. split; assumption.
Defined.

(** ** Acceptance *)

Lemma Return_inj (a b : Z) : @Return Z a = Return b -> a = b.
Proof. intros H. now injection H. Qed.

Lemma verify_signature_accepts (m : Machine) (h : Host) signature_bytes message :
  verify_signature m h signature_bytes message = Return 0 ->
  exists secp_data context ok signature pubkey serialized,
    ckb_secp256k1_custom_load_data h = (0, secp_data) /\
    ckb_secp256k1_custom_verify_only_initialize m secp_data = (0, context) /\
    secp256k1_ecdsa_recoverable_signature_parse_compact m context
      (firstn 64 signature_bytes) (nth 64 signature_bytes 0)
      = (ok, signature) /\ ok <> 0 /\
    secp256k1_ecdsa_recover m context signature message = (1, pubkey) /\
    secp256k1_ec_pubkey_serialize m context pubkey = (1, serialized) /\
    status (tx_script h) = CKB_SUCCESS /\
    zlen (content (tx_script h)) <= SCRIPT_SIZE /\
    MolReader_Script_verify m (content (tx_script h)) = MOL_OK /\
    let script := content (tx_script h) in
    let args_seg := MolReader_Script_get_args m script in
    let args_bytes_seg :=
      sub_seg args_seg
        (MolReader_Bytes_raw_bytes m (seg_bytes script args_seg)) in
    size args_bytes_seg = BLAKE160_SIZE /\
    slice script (ptr args_bytes_seg) BLAKE160_SIZE
    = firstn 20 (blake2b_hash m serialized).
Proof.
  unfold verify_signature. intros H.
  destruct (ckb_secp256k1_custom_load_data h) as [ret0 secp_data] eqn:E0.
  destruct (Z.eqb_spec ret0 0) as [->|Hne]; cbn [negb] in H.
  2: { apply Return_inj in H. contradiction. }
  destruct (ckb_secp256k1_custom_verify_only_initialize m secp_data)
    as [ret1 context] eqn:E1.
  destruct (Z.eqb_spec ret1 0) as [->|Hne]; cbn [negb] in H.
  2: { apply Return_inj in H. contradiction. }
  change (Z.to_nat RECID_INDEX) with 64%nat in H.
  destruct (secp256k1_ecdsa_recoverable_signature_parse_compact m context
              (firstn 64 signature_bytes) (nth 64 signature_bytes 0))
    as [ok1 signature] eqn:E2.
  destruct (Z.eqb_spec ok1 0) as [->|Hok1]; cbv iota in H;
    [(apply Return_inj in H; discriminate H)|].
  destruct (secp256k1_ecdsa_recover m context signature message)
    as [ok2 pubkey] eqn:E3.
  destruct (Z.eqb_spec ok2 1) as [->|Hne]; cbn [negb] in H;
    [|(apply Return_inj in H; discriminate H)].
  destruct (secp256k1_ec_pubkey_serialize m context pubkey)
    as [ok3 serialized] eqn:E4.
  destruct (Z.eqb_spec ok3 1) as [->|Hne]; cbn [negb] in H;
    [|(apply Return_inj in H; discriminate H)].
  unfold blake2b_init, blake2b_final in H.
  rewrite blake2b_update_whole in H. cbn [app] in H.
  unfold ckb_load_script, syscall_load in H.
  destruct (Z.eqb_spec (status (tx_script h)) CKB_SUCCESS) as [Hst|Hne];
    cbn [negb] in H.
  2: { apply Z.eqb_neq in Hne. rewrite Hne in H. cbn [negb] in H.
       apply Return_inj in H. discriminate H. }
  change (CKB_SUCCESS =? CKB_SUCCESS) with true in H. cbn [negb] in H.
  rewrite Z.sub_0_r, Z.max_r in H by apply zlen_nonneg.
  set (script := content (tx_script h)) in *.
  destruct (zlen script >? SCRIPT_SIZE) eqn:Hlen; [(apply Return_inj in H; discriminate H)|].
  assert (Hlen' : zlen script <= SCRIPT_SIZE) by lia.
  rewrite (slice_whole script SCRIPT_SIZE Hlen') in H.
  replace (seg_bytes script {| ptr := 0; size := zlen script |})
    with script in H
    by (unfold seg_bytes; cbn [ptr size]; now rewrite slice_whole by lia).
  destruct (Z.eqb_spec (MolReader_Script_verify m script) MOL_OK)
    as [Hv|Hne]; cbn [negb] in H; [|(apply Return_inj in H; discriminate H)].
  set (args_seg := MolReader_Script_get_args m script) in *.
  replace (sub_seg {| ptr := 0; size := zlen script |} args_seg)
    with args_seg in H by (destruct args_seg; reflexivity).
  set (args_bytes_seg := sub_seg args_seg _) in *.
  destruct (Z.eqb_spec (size args_bytes_seg) BLAKE160_SIZE) as [Hsz|Hne];
    cbn [negb] in H; [|(apply Return_inj in H; discriminate H)].
  change (Z.to_nat BLAKE160_SIZE) with 20%nat in H.
  destruct (bytes_eqb (slice script (ptr args_bytes_seg) BLAKE160_SIZE)
              (firstn 20 (blake2b_hash m serialized))) eqn:Eq;
    cbn [negb] in H; [|(apply Return_inj in H; discriminate H)].
  apply bytes_eqb_eq in Eq.
  exists secp_data, context, ok1, signature, pubkey, serialized.
  repeat (split; [solve [assumption | reflexivity]|]).
  exact Eq.
Qed.

(** X17. What success means.  When [main] returns 0 a message was
    produced, the signature bytes parsed, a public key was recovered from
    them over that very message and serialized, the script loaded and
    verified, its arguments are 20 bytes long and they are the first 20
    bytes of the hash of the serialized key (lines 396-463).  No failure of
    a load or of a check leads to 0. *)
Theorem accepted_means_key_matches (m : Machine) (h : Host) :
  main m h = Return 0 ->
  exists signature_bytes ctx secp_data context ok signature pubkey serialized,
    main_absorb m h = Continue (signature_bytes, ctx) /\
    ckb_secp256k1_custom_load_data h = (0, secp_data) /\
    ckb_secp256k1_custom_verify_only_initialize m secp_data = (0, context) /\
    secp256k1_ecdsa_recoverable_signature_parse_compact m context
      (firstn 64 signature_bytes) (nth 64 signature_bytes 0)
      = (ok, signature) /\ ok <> 0 /\
    secp256k1_ecdsa_recover m context signature (blake2b_hash m ctx)
      = (1, pubkey) /\
    secp256k1_ec_pubkey_serialize m context pubkey = (1, serialized) /\
    status (tx_script h) = CKB_SUCCESS /\
    MolReader_Script_verify m (content (tx_script h)) = MOL_OK /\
    let script := content (tx_script h) in
    let args_seg := MolReader_Script_get_args m script in
    let args_bytes_seg :=
      sub_seg args_seg
        (MolReader_Bytes_raw_bytes m (seg_bytes script args_seg)) in
    size args_bytes_seg = BLAKE160_SIZE /\
    slice script (ptr args_bytes_seg) BLAKE160_SIZE
    = firstn 20 (blake2b_hash m serialized).
Proof.
  intros H. apply main_success_inv in H.
  destruct H as (sg & ctx & Habs & Hv).
  apply verify_signature_accepts in Hv.
  destruct Hv as (secp_data & context & ok1 & signature & pubkey & serialized
                  & H1 & H2 & H3 & H4 & H5 & H6 & H7 & _ & H9 & H10).
  exists sg, ctx, secp_data, context, ok1, signature, pubkey, serialized.
  unfold blake2b_final in H5. auto 12.
Qed.

Lemma accepted_means_key_matches_witness :
  exists signature_bytes ctx serialized,
    main_absorb ref_machine host_minimal = Continue (signature_bytes, ctx) /\
    ref_args = firstn 20 (blake2b_hash ref_machine serialized).
Proof.
  destruct (accepted_means_key_matches ref_machine host_minimal)
    as (sg & ctx & secp_data & context & ok1 & signature & pubkey
        & serialized & Habs & _ & _ & _ & _ & _ & _ & _ & _ & Hsz & Hargs).
  { vm_compute. reflexivity. }
  exists sg, ctx, serialized. split; [exact Habs|].
  rewrite <- Hargs. vm_compute. reflexivity.
Defined.

(** X18. Failures before the comparison of the key hash (lines 402-451):
    a failure to load the secp256k1 tables or to initialise the context is
    returned as it is; with the public key recovered and serialized, a
    script that the host refuses gives [ERROR_SYSCALL], a script longer
    than 32 KiB [ERROR_SCRIPT_TOO_LONG], a script that does not verify
    [ERROR_ENCODING]. *)
Theorem verifier_setup_failures (m : Machine) (h : Host)
    (signature_bytes message : bytes) :
  let verdict := verify_signature m h signature_bytes message in
  (fst (ckb_secp256k1_custom_load_data h) <> 0 ->
   verdict = Return (fst (ckb_secp256k1_custom_load_data h))) /\
  (fst (ckb_secp256k1_custom_load_data h) = 0 ->
   fst (ckb_secp256k1_custom_verify_only_initialize m
          (snd (ckb_secp256k1_custom_load_data h))) <> 0 ->
   verdict = Return (fst (ckb_secp256k1_custom_verify_only_initialize m
                            (snd (ckb_secp256k1_custom_load_data h))))) /\
  (forall secp_data context ok signature pubkey serialized,
     ckb_secp256k1_custom_load_data h = (0, secp_data) ->
     ckb_secp256k1_custom_verify_only_initialize m secp_data = (0, context) ->
     secp256k1_ecdsa_recoverable_signature_parse_compact m context
       (firstn 64 signature_bytes) (nth 64 signature_bytes 0)
       = (ok, signature) ->
     ok <> 0 ->
     secp256k1_ecdsa_recover m context signature message = (1, pubkey) ->
     secp256k1_ec_pubkey_serialize m context pubkey = (1, serialized) ->
     (status (tx_script h) <> CKB_SUCCESS -> verdict = Return ERROR_SYSCALL) /\
     (status (tx_script h) = CKB_SUCCESS ->
      SCRIPT_SIZE < zlen (content (tx_script h)) ->
      verdict = Return ERROR_SCRIPT_TOO_LONG) /\
     (status (tx_script h) = CKB_SUCCESS ->
      zlen (content (tx_script h)) <= SCRIPT_SIZE ->
      MolReader_Script_verify m (content (tx_script h)) <> MOL_OK ->
      verdict = Return ERROR_ENCODING)).
Proof.
  cbv zeta. unfold verify_signature. split; [|split].
  - destruct (ckb_secp256k1_custom_load_data h) as [ret d]. cbn [fst].
    intros Hne. apply Z.eqb_neq in Hne. now rewrite Hne.
  - destruct (ckb_secp256k1_custom_load_data h) as [ret d]. cbn [fst snd].
    intros ->. change (0 !=? 0) with false. cbv iota.
    destruct (ckb_secp256k1_custom_verify_only_initialize m d) as [ret c].
    cbn [fst]. intros Hne. apply Z.eqb_neq in Hne. now rewrite Hne.
  - intros secp_data context ok1 signature pubkey serialized
      H1 H2 H3 Hok H4 H5.
    rewrite H1. change (0 !=? 0) with false. cbv iota.
    rewrite H2. change (0 !=? 0) with false. cbv iota.
    change (Z.to_nat RECID_INDEX) with 64%nat. rewrite H3.
    apply Z.eqb_neq in Hok. rewrite Hok. rewrite H4.
    change (1 !=? 1) with false. cbv iota. rewrite H5.
    change (1 !=? 1) with false. cbv iota.
    unfold ckb_load_script, syscall_load.
    split; [|split].
    + intros Hst. apply Z.eqb_neq in Hst.
      repeat (rewrite Hst; cbv beta iota zeta delta [negb]). reflexivity.
    + intros Hst Hlen. rewrite Hst.
      change (CKB_SUCCESS !=? CKB_SUCCESS) with false. cbv iota.
      change (CKB_SUCCESS !=? CKB_SUCCESS) with false. cbv iota.
      rewrite Z.sub_0_r, Z.max_r by apply zlen_nonneg.
      destruct (_ >? SCRIPT_SIZE) eqn:E; [reflexivity|lia].
    + intros Hst Hlen Hv. rewrite Hst.
      change (CKB_SUCCESS !=? CKB_SUCCESS) with false. cbv iota.
      change (CKB_SUCCESS !=? CKB_SUCCESS) with false. cbv iota.
      rewrite Z.sub_0_r, Z.max_r by apply zlen_nonneg.
      destruct (_ >? SCRIPT_SIZE) eqn:E; [lia|].
      rewrite (slice_whole _ SCRIPT_SIZE) by lia.
      unfold seg_bytes at 1. cbn [ptr size].
      rewrite (slice_whole _ (zlen (content (tx_script h)))) by lia.
      apply Z.eqb_neq in Hv. rewrite Hv. reflexivity.
Qed.

Lemma verifier_setup_failures_witness :
  verify_signature ref_machine host_no_secp_data ref_signature [] = Return 7
  /\ verify_signature ref_machine host_script_refused ref_signature []
     = Return ERROR_SYSCALL
  /\ verify_signature ref_machine host_script_too_long ref_signature []
     = Return ERROR_SCRIPT_TOO_LONG
  /\ verify_signature ref_machine host_script_garbled ref_signature []
     = Return ERROR_ENCODING.
Proof.
  split; [|split; [|split]].
  - apply (proj1 (verifier_setup_failures ref_machine host_no_secp_data
                    ref_signature [])).
    vm_compute. discriminate.
  - eapply (proj2 (proj2 (verifier_setup_failures ref_machine
                            host_script_refused ref_signature []))
              [] [] 1 (firstn 64 ref_signature ++ [1])
              (firstn 33 (firstn 64 ref_signature ++ [1]))
              (firstn 33 (firstn 64 ref_signature ++ [1]))).
    + reflexivity.
    + reflexivity.
    + vm_compute. reflexivity.
    + discriminate.
    + vm_compute. reflexivity.
    + vm_compute. reflexivity.
    + vm_compute. discriminate.
  - eapply (proj1 (proj2 (proj2 (proj2 (verifier_setup_failures ref_machine
                            host_script_too_long ref_signature []))
              [] [] 1 (firstn 64 ref_signature ++ [1])
              (firstn 33 (firstn 64 ref_signature ++ [1]))
              (firstn 33 (firstn 64 ref_signature ++ [1]))
              eq_refl eq_refl eq_refl ltac:(discriminate) eq_refl eq_refl))).
    + vm_compute. reflexivity.
    + vm_compute. reflexivity.
  - eapply (proj2 (proj2 (proj2 (proj2 (verifier_setup_failures ref_machine
                            host_script_garbled ref_signature []))
              [] [] 1 (firstn 64 ref_signature ++ [1])
              (firstn 33 (firstn 64 ref_signature ++ [1]))
              (firstn 33 (firstn 64 ref_signature ++ [1]))
              eq_refl eq_refl eq_refl ltac:(discriminate) eq_refl eq_refl))).
    + vm_compute. reflexivity.
    + vm_compute. discriminate.
    + vm_compute. discriminate.
Defined.

(** ** Open transactions: what the signature does not cover *)

Section Uncovered.

Variable m : Machine.
Variable k : Z.
Variables h1 h2 : Host.
Hypothesis R : same_reads_but_output k h1 h2.

Lemma hash_input_but ctx i source :
  hash_input h1 ctx i source = hash_input h2 ctx i source.
Proof. apply load_and_hash_ext. intros. apply (but_input _ _ _ R). Qed.

Lemma hash_cell_but ctx i source :
  ~ (source = CKB_SOURCE_OUTPUT /\ i = k) ->
  hash_cell h1 ctx i source = hash_cell h2 ctx i source.
Proof.
  intros Hn. apply load_and_hash_ext. intros. now apply (but_cell _ _ _ R).
Qed.

Lemma hash_cell_data_but ctx i source :
  ~ (source = CKB_SOURCE_OUTPUT /\ i = k) ->
  hash_cell_data h1 ctx i source = hash_cell_data h2 ctx i source.
Proof.
  intros Hn. apply load_and_hash_ext. intros.
  now apply (but_cell_data _ _ _ R).
Qed.

Lemma hash_script_fields_but ctx i source field masks :
  ~ (source = CKB_SOURCE_OUTPUT /\ i = k) ->
  hash_script_fields m h1 ctx i source field masks
  = hash_script_fields m h2 ctx i source field masks.
Proof.
  intros Hn. unfold hash_script_fields, ckb_checked_load_cell_by_field.
  now rewrite (but_cell_by_field _ _ _ R) by assumption.
Qed.

Lemma hash_masked_cell_but i mask source ctx :
  ~ (source = CKB_SOURCE_OUTPUT /\ i = k) ->
  hash_masked_cell m h1 i mask source ctx
  = hash_masked_cell m h2 i mask source ctx.
Proof.
  intros Hn. unfold hash_masked_cell.
  apply bind_ext.
  { now rewrite (but_cell_by_field _ _ _ R) by assumption. }
  intros c1. apply bind_ext.
  { now rewrite hash_script_fields_but by assumption. }
  intros c2. apply bind_ext.
  { now rewrite hash_script_fields_but by assumption. }
  intros c3. now rewrite hash_cell_data_but by assumption.
Qed.

Lemma component_cell_but label i mask ctx :
  ~ (label = LABEL_OUTPUT /\ i = k) ->
  component_cell m h1 label i mask ctx = component_cell m h2 label i mask ctx.
Proof.
  intros Hn. unfold component_cell.
  assert (Hs : ~ ((if label =? LABEL_OUTPUT then CKB_SOURCE_OUTPUT
                   else CKB_SOURCE_INPUT) = CKB_SOURCE_OUTPUT /\ i = k)).
  { intros [Hsrc Hi]. apply Hn. split; [|assumption].
    destruct (Z.eqb_spec label LABEL_OUTPUT); [assumption|discriminate]. }
  apply bind_ext.
  - destruct (mask =? MASK_CELL_ALL).
    + apply bind_ext; [now rewrite hash_cell_but by assumption|intros c].
      now rewrite hash_cell_data_but by assumption.
    + now apply hash_masked_cell_but.
  - intros c. now rewrite (but_input_by_field _ _ _ R).
Qed.

Lemma component_input_outpoint_but pos i mask ctx :
  component_input_outpoint m h1 pos i mask ctx
  = component_input_outpoint m h2 pos i mask ctx.
Proof.
  unfold component_input_outpoint.
  destruct (mask =? MASK_OUTPOINT_ALL); [now rewrite hash_input_but|].
  apply bind_ext; [now rewrite (but_input_by_field _ _ _ R)|intros c].
  now rewrite (but_input_by_field _ _ _ R).
Qed.

Lemma process_component_but pos label i mask ctx :
  label <> LABEL_SIGHASH_ALL ->
  ~ (label = LABEL_OUTPUT /\ i = k) ->
  process_component m h1 pos label i mask ctx
  = process_component m h2 pos label i mask ctx.
Proof.
  intros Hall Hn. unfold process_component.
  destruct (Z.eqb_spec label LABEL_SIGHASH_ALL) as [E|_]; [contradiction|].
  rewrite component_input_outpoint_but.
  now rewrite (component_cell_but label i mask ctx Hn).
Qed.

Lemma process_sighash_array_but witness seg :
  forall fuel i ctx,
  commits_to_output m fuel witness seg k i = false ->
  process_sighash_array m h1 fuel witness seg i ctx
  = process_sighash_array m h2 fuel witness seg i ctx.
Proof.
  induction fuel as [|fuel IH]; intros i ctx Hnone.
  - reflexivity.
  - destruct (Z.leb_spec (i + 3) (size seg)) as [Hg|Hg].
    + rewrite !process_sighash_array_step by assumption.
      cbn [commits_to_output] in Hnone.
      destruct (i + 3 >? size seg) eqn:G; [lia|].
      cbv zeta in Hnone.
      destruct (Z.eqb_spec (op_label m witness seg i) LABEL_SIGHASH_ALL)
        as [|Hall]; [discriminate|].
      destruct ((op_label m witness seg i =? LABEL_OUTPUT)
                && (op_index_code m witness seg i =? k)) eqn:Hout;
        [discriminate|].
      assert (Hn : ~ (op_label m witness seg i = LABEL_OUTPUT /\
                      op_index_code m witness seg i = k)).
      { intros [E1 E2]. rewrite E1, E2, !Z.eqb_refl in Hout. discriminate. }
      rewrite (process_component_but _ _ _ _ _ Hall Hn).
      destruct ((op_label m witness seg i =? LABEL_OUTPUT)
                || (op_label m witness seg i =? LABEL_INPUT_CELL)
                || (op_label m witness seg i =? LABEL_INPUT_CELL_SINCE)
                || (op_label m witness seg i =? LABEL_INPUT_OUTPOINT))
        eqn:Hknown.
      * apply bind_ext; [reflexivity|].
        intros [more c]. destruct more; [now apply IH|reflexivity].
      * apply Bool.orb_false_iff in Hknown as [Hknown H4].
        unfold process_component.
        destruct (Z.eqb_spec (op_label m witness seg i) LABEL_SIGHASH_ALL)
          as [|_]; [contradiction|].
        rewrite Hknown, H4.
        destruct (op_label m witness seg i =? LABEL_END_OF_LIST);
          reflexivity.
    + cbn [process_sighash_array].
      destruct (i + 3 >? size seg) eqn:G; [reflexivity|lia].
Qed.

Lemma hash_group_inputs_but_fuel :
  forall fuel i ctx,
  hash_group_inputs h1 fuel i ctx = hash_group_inputs h2 fuel i ctx.
Proof.
  induction fuel as [|fuel IH]; intros i ctx; cbn [hash_group_inputs];
    [reflexivity|].
  rewrite hash_input_but.
  destruct (hash_input h2 ctx i CKB_SOURCE_GROUP_INPUT) as [[ret c]|];
    [|reflexivity].
  destruct (ret =? CKB_INDEX_OUT_OF_BOUND); [reflexivity|].
  destruct (ret !=? CKB_SUCCESS); [reflexivity|]. apply IH.
Qed.

Lemma digest_witnesses_but_fuel source :
  forall fuel i ctx,
  digest_witnesses h1 fuel source i ctx = digest_witnesses h2 fuel source i ctx.
Proof.
  induction fuel as [|fuel IH]; intros i ctx; cbn [digest_witnesses];
    [reflexivity|].
  rewrite (but_witness _ _ _ R).
  destruct (ckb_load_witness h2 WITNESS_SIZE 0 i source) as [[ret len] temp].
  destruct (ret =? CKB_INDEX_OUT_OF_BOUND); [reflexivity|].
  destruct (ret !=? CKB_SUCCESS); [reflexivity|].
  destruct (len >? WITNESS_SIZE); [reflexivity|]. apply IH.
Qed.

Lemma hash_group_inputs_but ctx :
  hash_group_inputs h1 (S (length (tx_inputs h1 CKB_SOURCE_GROUP_INPUT))) 0 ctx
  = hash_group_inputs h2 (S (length (tx_inputs h2 CKB_SOURCE_GROUP_INPUT)))
      0 ctx.
Proof.
  set (n1 := S (length (tx_inputs h1 CKB_SOURCE_GROUP_INPUT))).
  set (n2 := S (length (tx_inputs h2 CKB_SOURCE_GROUP_INPUT))).
  assert (P1 : proper (hash_group_inputs h1 n1 0 ctx)).
  { apply proper_hash_group_inputs; unfold n1, zlen; lia. }
  assert (P2 : proper (hash_group_inputs h2 n2 0 ctx)).
  { apply proper_hash_group_inputs; unfold n2, zlen; lia. }
  rewrite hash_group_inputs_but_fuel in P1 |- *.
  rewrite <- (hash_group_inputs_fuel h2 n1 (Nat.max n1 n2) 0 ctx
                (Nat.le_max_l _ _) (proper_not_stuck _ P1)).
  apply (hash_group_inputs_fuel h2 n2 (Nat.max n1 n2) 0 ctx
           (Nat.le_max_r _ _) (proper_not_stuck _ P2)).
Qed.

Lemma digest_witnesses_but source i ctx :
  digest_witnesses h1 (S (length (tx_witnesses h1 source))) source i ctx
  = digest_witnesses h2 (S (length (tx_witnesses h2 source))) source i ctx.
Proof.
  set (n1 := S (length (tx_witnesses h1 source))).
  set (n2 := S (length (tx_witnesses h2 source))).
  assert (P1 : proper (digest_witnesses h1 n1 source i ctx)).
  { apply proper_digest_witnesses; unfold n1, zlen; lia. }
  assert (P2 : proper (digest_witnesses h2 n2 source i ctx)).
  { apply proper_digest_witnesses; unfold n2, zlen; lia. }
  rewrite digest_witnesses_but_fuel in P1 |- *.
  rewrite <- (digest_witnesses_fuel h2 source n1 (Nat.max n1 n2) i ctx
                (Nat.le_max_l _ _) (proper_not_stuck _ P1)).
  apply (digest_witnesses_fuel h2 source n2 (Nat.max n1 n2) i ctx
           (Nat.le_max_r _ _) (proper_not_stuck _ P2)).
Qed.

Lemma load_first_witness_but :
  load_first_witness m h1 = load_first_witness m h2.
Proof. unfold load_first_witness. now rewrite (but_witness _ _ _ R). Qed.

Lemma main_absorb_but witness witness_len seg :
  load_first_witness m h1 = Continue (witness, witness_len, seg) ->
  commits_to_output m (Z.to_nat (size seg)) witness seg k 0 = false ->
  main_absorb m h1 = main_absorb m h2.
Proof.
  intros Hload Hnone. unfold main_absorb.
  rewrite <- load_first_witness_but, Hload. cbn [bind].
  apply bind_ext; [apply hash_group_inputs_but|intros g].
  apply bind_ext.
  { now apply process_sighash_array_but. }
  intros [i c1].
  apply bind_ext; [reflexivity|intros [[sg w'] c2]].
  apply bind_ext; [apply digest_witnesses_but|intros c3].
  apply bind_ext; [|reflexivity].
  rewrite (but_inputs_len _ _ _ R). apply digest_witnesses_but.
Qed.

Lemma verify_signature_but signature_bytes message :
  verify_signature m h1 signature_bytes message
  = verify_signature m h2 signature_bytes message.
Proof.
  unfold verify_signature.
  now rewrite (but_secp_data _ _ _ R), (but_script _ _ _ R).
Qed.

End Uncovered.

(** X19. An output that the coverage array does not commit to does not
    count.  When none of the ops that the loop processes is a
    [SIGHASH_ALL] op or an [OUTPUT] op on index [k], two transactions that
    differ in what the host serves for output [k], and therefore in their
    transaction hash, give the same message and the same exit code: a
    signature stays valid whatever the transaction holds at output index
    [k] (lines 198-344; nothing outside the coverage loop reads a cell or
    the transaction hash). *)
Theorem uncovered_output_irrelevant (m : Machine) (k : Z) (h1 h2 : Host)
    witness witness_len seg :
  same_reads_but_output k h1 h2 ->
  load_first_witness m h1 = Continue (witness, witness_len, seg) ->
  commits_to_output m (Z.to_nat (size seg)) witness seg k 0 = false ->
  main_message m h1 = main_message m h2 /\ main m h1 = main m h2.
Proof.
  intros R Hload Hnone.
  assert (E : main_message m h1 = main_message m h2).
  { unfold main_message.
    now rewrite (main_absorb_but m k h1 h2 R _ _ _ Hload Hnone). }
  split; [exact E|].
  unfold main. rewrite E. apply bind_ext; [reflexivity|].
  intros [sg msg]. now apply (verify_signature_but m k).
Qed.

Lemma uncovered_output_irrelevant_witness :
  main ref_machine
    (with_more_outputs host_whole_output [1; 2; 3] [4; 5] (repeat 0x9A 32))
  = Return 0.
Proof.
  destruct (uncovered_output_irrelevant ref_machine 1 host_whole_output
              (with_more_outputs host_whole_output [1; 2; 3] [4; 5]
                 (repeat 0x9A 32))
              (witness_args ([0x10; 0; 0xFF; 0xF0; 0; 0] ++ ref_signature) [])
              91 {| ptr := 20; size := 71 |})
    as [_ Hmain].
  - constructor; intros; try reflexivity.
    + unfold ckb_load_cell. cbn [tx_cells with_more_outputs].
      destruct source; try reflexivity.
      destruct (Z.eqb_spec index 1) as [->|_]; [|reflexivity].
      exfalso. auto.
    + unfold ckb_load_cell_data. cbn [tx_cell_data with_more_outputs].
      destruct source; try reflexivity.
      destruct (Z.eqb_spec index 1) as [->|_]; [|reflexivity].
      exfalso. auto.
    + unfold ckb_load_cell_by_field. cbn [tx_cell_fields with_more_outputs].
      destruct source; try reflexivity.
      destruct (Z.eqb_spec index 1) as [->|_]; [|reflexivity].
      exfalso. auto.
  - vm_compute. reflexivity.
  - vm_compute. reflexivity.
  - rewrite <- Hmain. vm_compute. reflexivity.
Defined.

(** ** Memory that no host read wrote *)

(** C9, as stated, fails on the code.  [ref_machine] and [other_stack] are
    the same libraries started on different stack contents; the host is
    the same, so every host read returns identical data in both runs.  On
    [host_zero_lock] the guard of line 203 lets the loop read the op at
    offsets 66..68 of the lock bytes, past the end of the loaded witness:
    one run finds an unknown label there and returns
    [ERROR_INVALID_LABEL], the other finds [END_OF_LIST] and returns
    [ERROR_ARGUMENTS_LEN].  On [host_outpoint_index] both runs succeed
    with the same signature bytes, on different digests: the bytes
    absorbed for the outpoint index come from behind the uninitialised
    [index_seg] of line 333. *)
Theorem result_depends_on_stale_memory :
  main ref_machine host_zero_lock = Return ERROR_INVALID_LABEL /\
  main other_stack host_zero_lock = Return ERROR_ARGUMENTS_LEN /\
  main_absorb ref_machine host_outpoint_index
    = Continue (ref_signature,
                ref_input ++ repeat 0xCC 32 ++ u64_bytes 91
                  ++ witness_args ([0x40; 0; 2; 0xF0; 0; 0] ++ repeat 0 65) [])
  /\
  main_absorb other_stack host_outpoint_index
    = Continue (ref_signature,
                ref_input ++ (0xDD :: repeat 0xCC 31) ++ u64_bytes 91
                  ++ witness_args ([0x40; 0; 2; 0xF0; 0; 0] ++ repeat 0 65) [])
  /\
  main_message ref_machine host_outpoint_index
    <> main_message other_stack host_outpoint_index.
Proof.
  split; [vm_compute; reflexivity|].
  split; [vm_compute; reflexivity|].
  split; [vm_compute; reflexivity|].
  split; [vm_compute; reflexivity|].
  vm_compute. discriminate.
Qed.

(** ** Lock bytes without a terminator in the coverage region *)

(** A failure of the coverage loop is the failure of [main]. *)
Lemma main_coverage_failure (m : Machine) (h : Host)
    witness witness_len seg g code :
  load_first_witness m h = Continue (witness, witness_len, seg) ->
  hash_group_inputs h (S (length (tx_inputs h CKB_SOURCE_GROUP_INPUT))) 0
    (blake2b_init BLAKE2B_BLOCK_SIZE) = Continue g ->
  process_sighash_array m h (Z.to_nat (size seg)) witness seg 0 g
    = Return code ->
  main m h = Return code.
Proof.
  intros H0 H1 H2.
  unfold main, main_message, main_absorb.
  rewrite H0. cbv beta iota zeta delta [bind].
  rewrite H1. cbv beta iota zeta delta [bind].
  rewrite H2. reflexivity.
Qed.

(** While the ops complete and ask for more, the loop goes from op to op:
    from position [p - n] it arrives at position [p]. *)
Lemma process_sighash_array_reaches (m : Machine) (h : Host) witness seg
    (p : Z) :
  p + 3 <= size seg ->
  (forall j ctx, 0 <= j < p ->
     exists ctx',
       process_component m h j (op_label m witness seg j)
         (op_index_code m witness seg j) (op_mask m witness seg j) ctx
       = Continue (true, ctx')) ->
  forall (n fuel : nat) i ctx,
    i = p - Z.of_nat n -> 0 <= i ->
    exists ctx',
      process_sighash_array m h (n + S fuel) witness seg i ctx
      = process_sighash_array m h (S fuel) witness seg p ctx'.
Proof.
  intros Hp Hops. induction n as [|n IH]; intros fuel i ctx Hi Hi0.
  - exists ctx. replace i with p by lia. reflexivity.
  - change (S n + S fuel)%nat with (S (n + S fuel)).
    rewrite process_sighash_array_step by lia.
    destruct (Hops i ctx) as [c' Hc]; [lia|]. rewrite Hc.
    cbv beta iota zeta delta [bind].
    apply IH; lia.
Qed.

(** C5, amended. Lock bytes whose coverage region holds no [END_OF_LIST]
    are never accepted.  The loop returns [ERROR_INVALID_LABEL] at any
    position [i] with [i + 3 > size].  When the first op whose label is
    not one of 0..4 lies wholly within the lock bytes and the ops before
    it complete, [main] returns [ERROR_INVALID_LABEL] if that label is
    unknown, and [ERROR_ARGUMENTS_LEN] if it is [END_OF_LIST], which then
    lies past the coverage region, in the signature bytes. *)
Theorem coverage_without_terminator_fails (m : Machine) (h : Host)
    witness witness_len seg :
  load_first_witness m h = Continue (witness, witness_len, seg) ->
  has_terminator m witness seg = false ->
  main m h <> Return 0 /\
  (forall fuel i ctx,
     0 <= i -> i + 3 > size seg ->
     process_sighash_array m h fuel witness seg i ctx
     = Return ERROR_INVALID_LABEL) /\
  (forall g p,
     hash_group_inputs h (S (length (tx_inputs h CKB_SOURCE_GROUP_INPUT))) 0
       (blake2b_init BLAKE2B_BLOCK_SIZE) = Continue g ->
     0 <= p -> (p + 1) * 3 <= size seg ->
     (forall j ctx, 0 <= j < p ->
        exists ctx',
          process_component m h j (op_label m witness seg j)
            (op_index_code m witness seg j) (op_mask m witness seg j) ctx
          = Continue (true, ctx')) ->
     ~ (0 <= op_label m witness seg p <= 4) ->
     (op_label m witness seg p <> LABEL_END_OF_LIST ->
      main m h = Return ERROR_INVALID_LABEL) /\
     (op_label m witness seg p = LABEL_END_OF_LIST ->
      coverage_ops seg <= p /\ main m h = Return ERROR_ARGUMENTS_LEN)).
Proof.
  intros Hload Hnone.
  assert (Hsize : forall g i ctx,
            process_sighash_array m h (Z.to_nat (size seg)) witness seg 0 g
              = Continue (i, ctx) ->
            size seg <> 3 * i + SIGNATURE_SIZE).
  { intros g i ctx Hloop Hsize.
    apply process_sighash_array_ends in Hloop.
    destruct Hloop as (Hpos & _ & Hend & _).
    rewrite (has_terminator_at m witness seg (i - 1)) in Hnone;
      [discriminate| |assumption].
    unfold coverage_ops. rewrite Hsize.
    replace (3 * i + SIGNATURE_SIZE - SIGNATURE_SIZE) with (i * 3) by lia.
    rewrite Z.div_mul by lia. lia. }
  split; [|split].
  - intros Hmain.
    destruct (main_success_ops m h Hmain)
      as (w & wl & sg & g & i & ctx & Hload' & Hloop & _ & Hsz).
    rewrite Hload in Hload'. injection Hload' as <- <- <-.
    exact (Hsize g i ctx Hloop Hsz).
  - intros fuel i ctx _ Hi.
    destruct fuel; cbn [process_sighash_array];
      destruct (i + 3 >? size seg) eqn:G; try reflexivity; lia.
  - intros g p Hg Hp0 Hp Hops Hlabel.
    assert (Hp3 : p + 3 <= size seg) by lia.
    destruct (process_sighash_array_reaches m h witness seg p Hp3 Hops
                (Z.to_nat p) (Z.to_nat (size seg - p - 1)) 0 g)
      as [c Hc]; [lia|lia|].
    replace (Z.to_nat p + S (Z.to_nat (size seg - p - 1)))%nat
      with (Z.to_nat (size seg)) in Hc by lia.
    rewrite process_sighash_array_step in Hc by assumption.
    unfold process_component in Hc.
    destruct (Z.eqb_spec (op_label m witness seg p) LABEL_SIGHASH_ALL)
      as [E|_]; [exfalso; apply Hlabel; rewrite E; vm_compute; split;
                 discriminate|].
    destruct (Z.eqb_spec (op_label m witness seg p) LABEL_OUTPUT)
      as [E|_]; [exfalso; apply Hlabel; rewrite E; vm_compute; split;
                 discriminate|].
    destruct (Z.eqb_spec (op_label m witness seg p) LABEL_INPUT_CELL)
      as [E|_]; [exfalso; apply Hlabel; rewrite E; vm_compute; split;
                 discriminate|].
    destruct (Z.eqb_spec (op_label m witness seg p) LABEL_INPUT_CELL_SINCE)
      as [E|_]; [exfalso; apply Hlabel; rewrite E; vm_compute; split;
                 discriminate|].
    destruct (Z.eqb_spec (op_label m witness seg p) LABEL_INPUT_OUTPOINT)
      as [E|_]; [exfalso; apply Hlabel; rewrite E; vm_compute; split;
                 discriminate|].
    cbn [orb] in Hc.
    destruct (Z.eqb_spec (op_label m witness seg p) LABEL_END_OF_LIST)
      as [Eend|Nend]; cbv beta iota zeta delta [bind] in Hc.
    + split; [intros N; contradiction|intros _].
      assert (Hcov : coverage_ops seg <= p).
      { destruct (Z.le_gt_cases (coverage_ops seg) p) as [|Hlt];
          [assumption|].
        rewrite (has_terminator_at m witness seg p) in Hnone;
          [discriminate|lia|assumption]. }
      split; [exact Hcov|].
      apply (main_size_mismatch m h _ _ _ _ _ _ Hload Hg Hc).
      exact (Hsize _ _ _ Hc).
    + split; [intros _|intros E; contradiction].
      exact (main_coverage_failure m h _ _ _ _ _ Hload Hg Hc).
Qed.

Lemma coverage_without_terminator_fails_witness :
  main ref_machine host_terminator_in_signature = Return ERROR_ARGUMENTS_LEN
  /\ main ref_machine host_unknown_label = Return ERROR_INVALID_LABEL.
Proof.
  split.
  - destruct (coverage_without_terminator_fails ref_machine
                host_terminator_in_signature
                (witness_args ([0; 0; 0] ++ 0xF0 :: repeat 0x21 63 ++ [1]) [])
                88 {| ptr := 20; size := 68 |})
      as (_ & _ & Hstop).
    + vm_compute. reflexivity.
    + vm_compute. reflexivity.
    + apply (Hstop ref_input 1).
      * vm_compute. reflexivity.
      * lia.
      * vm_compute. discriminate.
      * intros j ctx Hj. assert (j = 0) by lia. subst j.
        exists (ctx ++ repeat 0x99 32). reflexivity.
      * vm_compute. intros [_ H]. apply H. reflexivity.
      * vm_compute. reflexivity.
  - destruct (coverage_without_terminator_fails ref_machine
                host_unknown_label
                (witness_args ([0x70; 0; 0] ++ ref_signature) [])
                88 {| ptr := 20; size := 68 |})
      as (_ & _ & Hstop).
    + vm_compute. reflexivity.
    + vm_compute. reflexivity.
    + apply (Hstop ref_input 0).
      * vm_compute. reflexivity.
      * lia.
      * vm_compute. discriminate.
      * intros j ctx Hj. lia.
      * vm_compute. intros [_ H]. apply H. reflexivity.
      * vm_compute. discriminate.
Defined.

(** ** The signature is not part of what is signed *)

(** A buffer that differs from [witness] in the [n] bytes at [addr] only
    reads like [witness] everywhere else. *)
Lemma mem_u8_outside (witness other : bytes) (stale : Z -> Z) (addr n : Z) :
  length other = length witness ->
  (forall a : nat, (a < length witness)%nat ->
     ~ (addr <= Z.of_nat a < addr + n) -> nth a other 0 = nth a witness 0) ->
  forall k, ~ (addr <= k < addr + n) ->
  mem_u8 other stale k = mem_u8 witness stale k.
Proof.
  intros Hlen Hout k Hk. unfold mem_u8, zlen. rewrite Hlen.
  destruct ((0 <=? k) && (k <? Z.of_nat (length witness))) eqn:E;
    [|reflexivity].
  apply andb_true_iff in E. destruct E as [E1 E2].
  apply Z.leb_le in E1. apply Z.ltb_lt in E2.
  apply Hout; [lia|]. now rewrite Z2Nat.id by assumption.
Qed.

(** The coverage loop reads the witness at the ops it processes, and
    nowhere else. *)
Lemma process_sighash_array_reads (m : Machine) (h : Host)
    (witness other : bytes) seg :
  forall fuel i0 ctx i ctx0,
  process_sighash_array m h fuel witness seg i0 ctx = Continue (i, ctx0) ->
  (forall k, i0 * 3 <= k < i * 3 ->
     sighash_array m other seg k = sighash_array m witness seg k) ->
  process_sighash_array m h fuel other seg i0 ctx = Continue (i, ctx0).
Proof.
  induction fuel as [|fuel IH]; intros i0 ctx i ctx0 H Hsame.
  - cbn [process_sighash_array] in H.
    destruct (i0 + 3 >? size seg); discriminate.
  - pose proof (process_sighash_array_ends m h witness seg _ _ _ _ _ H)
      as (Hlt & Hguard & _).
    rewrite process_sighash_array_step in H |- * by lia.
    unfold op_label, op_index_code, op_mask in *.
    rewrite !Hsame by lia.
    apply bind_Continue in H. destruct H as ([more c1] & H1 & H2).
    rewrite H1. cbv beta iota zeta delta [bind].
    destruct more; [|exact H2].
    pose proof (process_sighash_array_ends m h witness seg _ _ _ _ _ H2)
      as (Hlt' & _).
    apply IH; [exact H2|]. intros k Hk. apply Hsame. lia.
Qed.

(** A witness loop depends on the witnesses from its first index on. *)
Lemma digest_witnesses_from (h1 h2 : Host) (source : Source) :
  forall fuel i ctx,
  (forall index, i <= index ->
     lookup (tx_witnesses h2 source) index
     = lookup (tx_witnesses h1 source) index) ->
  digest_witnesses h2 fuel source i ctx
  = digest_witnesses h1 fuel source i ctx.
Proof.
  induction fuel as [|fuel IH]; intros i ctx Hsame; [reflexivity|].
  cbn [digest_witnesses]. unfold ckb_load_witness.
  rewrite (Hsame i) by lia.
  destruct (syscall_load (lookup (tx_witnesses h1 source) i) WITNESS_SIZE 0)
    as [[ret len] temp].
  destruct (ret =? CKB_INDEX_OUT_OF_BOUND); [reflexivity|].
  destruct (ret !=? CKB_SUCCESS); [reflexivity|].
  destruct (len >? WITNESS_SIZE); [reflexivity|].
  apply IH. intros index Hi. apply Hsame. lia.
Qed.

Lemma digest_witnesses_from_bound (h1 h2 : Host) (source : Source) i
    ctx ctx' :
  (forall index, i <= index ->
     lookup (tx_witnesses h2 source) index
     = lookup (tx_witnesses h1 source) index) ->
  digest_witnesses h1 (S (length (tx_witnesses h1 source))) source i ctx
    = Continue ctx' ->
  digest_witnesses h2 (S (length (tx_witnesses h2 source))) source i ctx
    = Continue ctx'.
Proof.
  intros Hsame H.
  set (n1 := S (length (tx_witnesses h1 source))) in *.
  set (n2 := S (length (tx_witnesses h2 source))).
  assert (P2 : proper (digest_witnesses h2 n2 source i ctx)).
  { apply proper_digest_witnesses; unfold n2, zlen; lia. }
  rewrite <- (digest_witnesses_from h1 h2 source n1 i ctx Hsame) in H.
  rewrite <- (digest_witnesses_fuel h2 source n2 (Nat.max n1 n2) i ctx
                (Nat.le_max_r _ _) (proper_not_stuck _ P2)).
  rewrite (digest_witnesses_fuel h2 source n1 (Nat.max n1 n2) i ctx
             (Nat.le_max_l _ _)); [exact H|].
  rewrite H. discriminate.
Qed.

(** Nothing but the witness loads depends on the witnesses of the host. *)
Lemma hash_group_inputs_with_witnesses (h : Host) witnesses fuel i ctx :
  hash_group_inputs (with_witnesses h witnesses) fuel i ctx
  = hash_group_inputs h fuel i ctx.
Proof. reflexivity. Qed.

Lemma process_sighash_array_with_witnesses (m : Machine) (h : Host)
    witnesses fuel witness seg i ctx :
  process_sighash_array m (with_witnesses h witnesses) fuel witness seg i ctx
  = process_sighash_array m h fuel witness seg i ctx.
Proof. reflexivity. Qed.

(** The first witness step absorbs the length and the zeroed witness, and
    nothing else. *)
Lemma digest_first_witness_absorbs (m : Machine) witness seg i ctx :
  size seg = 3 * i + SIGNATURE_SIZE ->
  digest_first_witness m witness (zlen witness) seg i ctx
  = Continue (mem_read witness (stale_witness m) (ptr seg + i * 3)
                SIGNATURE_SIZE,
              mem_set witness (ptr seg + i * 3) SIGNATURE_SIZE 0,
              ctx ++ u64_bytes (zlen witness)
                ++ mem_set witness (ptr seg + i * 3) SIGNATURE_SIZE 0).
Proof.
  intros Hsize. unfold digest_first_witness.
  destruct (Z.eqb_spec (size seg) (i * 3 + SIGNATURE_SIZE)) as [_|N];
    [|lia].
  cbn [negb]. rewrite u64_bytes_update. unfold blake2b_update.
  rewrite firstn_all2.
  - now rewrite <- app_assoc.
  - unfold mem_set, zlen. rewrite mem_set_from_length. lia.
Qed.

(** C6. When a digest is produced, the coverage loop consumed [i] ops and
    left the session at [ctx0]; the signature is the 65 bytes at
    [lock_bytes_seg.ptr + 3 * i] of the witness buffer; and the session
    ends as [ctx0], then the 8-byte length of the first witness, then the
    whole witness with these 65 bytes set to zero, then the other witnesses
    of the group and those past the inputs, each with its length, and
    nothing else.  The zeroed witness has the length of the witness, is
    zero on the signature range and equal to the witness elsewhere.  The
    digest does not commit to the signature bytes: with any other 65 bytes
    in their place, in a first witness that reads as the same
    [WitnessArgs], the program absorbs exactly the same bytes and copies
    out the other signature. *)
Theorem signature_zeroed_in_digest (m : Machine) (h : Host)
    signature_bytes ctx :
  main_absorb m h = Continue (signature_bytes, ctx) ->
  exists witness seg g i ctx0 (kg kt : nat),
    let sig_at := ptr seg + i * 3 in
    let zeroed := mem_set witness sig_at SIGNATURE_SIZE 0 in
    witness = content (lookup (tx_witnesses h CKB_SOURCE_GROUP_INPUT) 0) /\
    load_first_witness m h = Continue (witness, zlen witness, seg) /\
    hash_group_inputs h (S (length (tx_inputs h CKB_SOURCE_GROUP_INPUT))) 0
      (blake2b_init BLAKE2B_BLOCK_SIZE) = Continue g /\
    process_sighash_array m h (Z.to_nat (size seg)) witness seg 0 g
      = Continue (i, ctx0) /\
    size seg = 3 * i + SIGNATURE_SIZE /\
    signature_bytes
      = mem_read witness (stale_witness m) sig_at SIGNATURE_SIZE /\
    status (lookup (tx_witnesses h CKB_SOURCE_GROUP_INPUT)
              (1 + Z.of_nat kg)) = CKB_INDEX_OUT_OF_BOUND /\
    status (lookup (tx_witnesses h CKB_SOURCE_INPUT)
              (ckb_calculate_inputs_len h + Z.of_nat kt))
      = CKB_INDEX_OUT_OF_BOUND /\
    ctx = ctx0 ++ u64_bytes (zlen witness) ++ zeroed
            ++ framed_witnesses
                 (firstn kg (skipn 1 (tx_witnesses h CKB_SOURCE_GROUP_INPUT)))
            ++ framed_witnesses
                 (firstn kt
                    (skipn (Z.to_nat (ckb_calculate_inputs_len h))
                       (tx_witnesses h CKB_SOURCE_INPUT))) /\
    length zeroed = length witness /\
    (forall a : nat, (a < length witness)%nat ->
       nth a zeroed 0 =
       if (sig_at <=? Z.of_nat a) && (Z.of_nat a <? sig_at + SIGNATURE_SIZE)
       then 0 else nth a witness 0) /\
    (forall (witnesses : Source -> list object) (other : bytes),
       lookup (witnesses CKB_SOURCE_GROUP_INPUT) 0 = ok other ->
       (forall index, 1 <= index ->
          lookup (witnesses CKB_SOURCE_GROUP_INPUT) index
          = lookup (tx_witnesses h CKB_SOURCE_GROUP_INPUT) index) ->
       (forall index, ckb_calculate_inputs_len h <= index ->
          lookup (witnesses CKB_SOURCE_INPUT) index
          = lookup (tx_witnesses h CKB_SOURCE_INPUT) index) ->
       length other = length witness ->
       (forall a : nat, (a < length witness)%nat ->
          ~ (sig_at <= Z.of_nat a < sig_at + SIGNATURE_SIZE) ->
          nth a other 0 = nth a witness 0) ->
       extract_witness_lock m other (zlen other) = (CKB_SUCCESS, seg) ->
       main_absorb m (with_witnesses h witnesses)
       = Continue (mem_read other (stale_witness m) sig_at SIGNATURE_SIZE,
                   ctx)).
Proof.
  intros H. apply main_absorb_inv in H.
  destruct H as (witness & witness_len & seg & g & i & c1 & w' & c2 & c3
                 & H0 & H1 & H2 & H3 & H4 & H5).
  pose proof (load_first_witness_inv _ _ _ _ _ H0)
    as (_ & Hw & Hlen & Hmax & _ & Hmin).
  subst witness_len.
  pose proof (digest_first_witness_size _ _ _ _ _ _ _ H3) as Hsize.
  rewrite (digest_first_witness_absorbs m witness seg i c1 Hsize) in H3.
  apply Continue_inj in H3.
  pose proof (f_equal (fun r => fst (fst r)) H3) as Hsig.
  pose proof (f_equal snd H3) as Hc2.
  cbn [fst snd] in Hsig, Hc2. clear H3.
  pose proof (digest_witnesses_spec _ _ _ _ _ _ H4) as (kg & _ & Hg1 & Hc3).
  pose proof (digest_witnesses_spec _ _ _ _ _ _ H5) as (kt & _ & Hg2 & Hctx).
  exists witness, seg, g, i, c1, kg, kt. cbv zeta.
  split; [assumption|]. split; [assumption|]. split; [assumption|].
  split; [assumption|]. split; [assumption|]. split; [now symmetry|].
  split; [assumption|]. split; [assumption|].
  split.
  { rewrite Hctx, Hc3, <- Hc2. change (Z.to_nat 1) with 1%nat.
    now rewrite <- !app_assoc. }
  split; [apply mem_set_from_length|].
  split.
  { intros a Ha. unfold mem_set. now rewrite mem_set_from_nth. }
  intros witnesses other Hfirst Hgroup Hinput Hlo Hout Hlock.
  assert (Hzl : zlen other = zlen witness) by (unfold zlen; now rewrite Hlo).
  assert (L : load_first_witness m (with_witnesses h witnesses)
              = Continue (other, zlen other, seg)).
  { unfold load_first_witness, ckb_load_witness, syscall_load.
    cbn [tx_witnesses with_witnesses]. rewrite Hfirst.
    cbn [ok status content].
    change (CKB_SUCCESS !=? CKB_SUCCESS) with false. cbv iota.
    rewrite Z.sub_0_r, Z.max_r by apply zlen_nonneg.
    destruct (zlen other >? WITNESS_SIZE) eqn:G; [lia|].
    rewrite slice_whole by lia. rewrite Hlock.
    change (CKB_SUCCESS !=? 0) with false. cbv iota.
    destruct (size seg <=? SIGNATURE_SIZE) eqn:G'; [lia|reflexivity]. }
  unfold main_absorb. rewrite L. cbv beta iota zeta delta [bind].
  rewrite hash_group_inputs_with_witnesses.
  change (tx_inputs (with_witnesses h witnesses)) with (tx_inputs h).
  rewrite H1. cbv beta iota zeta delta [bind].
  rewrite process_sighash_array_with_witnesses.
  rewrite (process_sighash_array_reads m h witness other seg _ _ _ _ _ H2).
  2: { intros k Hk. unfold sighash_array.
       apply (mem_u8_outside witness other (stale_witness m)
                (ptr seg + i * 3) SIGNATURE_SIZE Hlo Hout).
       lia. }
  cbv beta iota zeta delta [bind].
  rewrite (digest_first_witness_absorbs m other seg i c1 Hsize).
  cbv beta iota zeta delta [bind].
  assert (Z' : mem_set other (ptr seg + i * 3) SIGNATURE_SIZE 0
               = mem_set witness (ptr seg + i * 3) SIGNATURE_SIZE 0).
  { unfold mem_set. apply mem_set_from_erase; [assumption|].
    intros k Hk Hk'. rewrite Hlo in Hk. now apply Hout. }
  rewrite Z', Hzl, Hc2.
  rewrite (digest_witnesses_from_bound h (with_witnesses h witnesses)
             CKB_SOURCE_GROUP_INPUT 1 c2 c3 Hgroup H4).
  cbv beta iota zeta delta [bind].
  change (ckb_calculate_inputs_len (with_witnesses h witnesses))
    with (ckb_calculate_inputs_len h).
  rewrite (digest_witnesses_from_bound h (with_witnesses h witnesses)
             CKB_SOURCE_INPUT (ckb_calculate_inputs_len h) c3 ctx Hinput H5).
  reflexivity.
Qed.

Lemma lookup_single_past (o1 o2 : object) (index : Z) :
  1 <= index -> lookup [o1] index = lookup [o2] index.
Proof.
  intros Hi. unfold lookup. destruct (index <? 0); [reflexivity|].
  destruct (Z.to_nat index) as [|[|n]] eqn:E; [lia|reflexivity|reflexivity].
Qed.

Lemma signature_zeroed_in_digest_witness :
  main_absorb ref_machine (with_witnesses host_minimal resigned_witnesses)
  = Continue (other_signature,
              ref_input ++ u64_bytes 88
                ++ witness_args ([0xF0; 0; 0] ++ repeat 0 65) []).
Proof.
  destruct (signature_zeroed_in_digest ref_machine host_minimal
              ref_signature
              (ref_input ++ u64_bytes 88
                 ++ witness_args ([0xF0; 0; 0] ++ repeat 0 65) []))
    as (witness & seg & g & i & ctx0 & kg & kt & Hw & Hload & _ & _ & Hsize
        & _ & _ & _ & _ & _ & _ & Hother).
  { vm_compute. reflexivity. }
  assert (E : load_first_witness ref_machine host_minimal
              = Continue (witness_args ([0xF0; 0; 0] ++ ref_signature) [],
                          88, {| ptr := 20; size := 68 |}))
    by (vm_compute; reflexivity).
  rewrite E in Hload. apply Continue_inj in Hload.
  pose proof (f_equal snd Hload) as Hseg. cbn [snd] in Hseg.
  assert (Hw' : witness = witness_args ([0xF0; 0; 0] ++ ref_signature) [])
    by (rewrite Hw; reflexivity).
  clear Hw Hload E. subst witness seg.
  assert (Hi : i = 1)
    by (cbn [size] in Hsize; unfold SIGNATURE_SIZE in Hsize; lia).
  subst i.
  rewrite (Hother resigned_witnesses
             (witness_args ([0xF0; 0; 0] ++ other_signature) [])).
  - vm_compute. reflexivity.
  - reflexivity.
  - intros index Hindex. now apply lookup_single_past.
  - intros index Hindex. apply lookup_single_past. exact Hindex.
  - reflexivity.
  - intros a Ha Hout. cbn [ptr] in Hout. unfold SIGNATURE_SIZE in Hout.
    assert (Ha' : (a < 23)%nat).
    { destruct (Nat.lt_ge_cases a 23) as [|Hge]; [assumption|].
      exfalso. apply Hout.
      assert (Hlen : (a < 88)%nat) by exact Ha. lia. }
    clear Ha Hout.
    do 23 (destruct a as [|a]; [reflexivity|]). lia.
  - vm_compute. reflexivity.
Defined.

(** ** Runs that read no uninitialised memory *)

Section Stale.

Variable m : Machine.
Variable h : Host.
Variable witness_bytes : Z -> Z.
Variable index_bytes : Z -> bytes.

Let m' := with_stale m witness_bytes index_bytes.

Lemma sighash_array_loaded witness seg (k : Z) :
  0 <= ptr seg + k < zlen witness ->
  sighash_array m' witness seg k = sighash_array m witness seg k.
Proof.
  intros Hk. unfold sighash_array, mem_u8.
  destruct ((0 <=? ptr seg + k) && (ptr seg + k <? zlen witness)) eqn:E;
    [reflexivity|].
  apply andb_false_iff in E. destruct E as [E|E]; lia.
Qed.

Lemma mem_read_loaded witness (addr n : Z) :
  0 <= addr -> addr + n <= zlen witness ->
  mem_read witness (stale_witness m') addr n
  = mem_read witness (stale_witness m) addr n.
Proof.
  intros Ha Hn. unfold mem_read. apply map_ext_in. intros k Hk.
  apply in_seq in Hk. unfold mem_u8.
  destruct ((0 <=? addr + Z.of_nat k) && (addr + Z.of_nat k <? zlen witness))
    eqn:E; [reflexivity|].
  apply andb_false_iff in E. destruct E as [E|E]; lia.
Qed.

Lemma process_component_stale pos label i mask ctx :
  (label =? LABEL_INPUT_OUTPOINT) && (mask !=? MASK_OUTPOINT_ALL)
    && (Z.land mask MASK_OUTPOINT_INDEX !=? 0) = false ->
  process_component m' h pos label i mask ctx
  = process_component m h pos label i mask ctx.
Proof.
  intros Hno. unfold process_component.
  destruct (label =? LABEL_SIGHASH_ALL); [reflexivity|].
  destruct ((label =? LABEL_OUTPUT) || (label =? LABEL_INPUT_CELL)
            || (label =? LABEL_INPUT_CELL_SINCE)); [reflexivity|].
  destruct (label =? LABEL_INPUT_OUTPOINT); [|reflexivity].
  cbn [andb] in Hno.
  unfold component_input_outpoint.
  destruct (mask =? MASK_OUTPOINT_ALL); [reflexivity|].
  cbn [negb andb] in Hno. rewrite Hno. reflexivity.
Qed.

Lemma process_sighash_array_stale witness seg :
  forall fuel i ctx,
  reads_stale_memory m fuel witness seg i = false ->
  process_sighash_array m' h fuel witness seg i ctx
  = process_sighash_array m h fuel witness seg i ctx.
Proof.
  induction fuel as [|fuel IH]; intros i ctx Hno.
  - reflexivity.
  - destruct (Z.leb_spec (i + 3) (size seg)) as [Hg|Hg].
    + rewrite !process_sighash_array_step by assumption.
      cbn [reads_stale_memory] in Hno.
      destruct (i + 3 >? size seg) eqn:G; [lia|].
      destruct ((0 <=? ptr seg + i * 3)
                && (ptr seg + i * 3 + 3 <=? zlen witness)) eqn:Hin;
        cbn [negb] in Hno; [|discriminate].
      apply andb_true_iff in Hin. destruct Hin as [Hin1 Hin2].
      apply Z.leb_le in Hin1, Hin2.
      assert (El : op_label m' witness seg i = op_label m witness seg i).
      { unfold op_label. now rewrite sighash_array_loaded by lia. }
      assert (Ei : op_index_code m' witness seg i
                   = op_index_code m witness seg i).
      { unfold op_index_code. now rewrite !sighash_array_loaded by lia. }
      assert (Em : op_mask m' witness seg i = op_mask m witness seg i).
      { unfold op_mask. now rewrite sighash_array_loaded by lia. }
      rewrite El, Ei, Em. cbv zeta in Hno.
      destruct ((op_label m witness seg i =? LABEL_INPUT_OUTPOINT)
                && (op_mask m witness seg i !=? MASK_OUTPOINT_ALL)
                && (Z.land (op_mask m witness seg i) MASK_OUTPOINT_INDEX
                    !=? 0)) eqn:Hidx; [discriminate|].
      rewrite (process_component_stale _ _ _ _ _ Hidx).
      destruct ((op_label m witness seg i =? LABEL_SIGHASH_ALL)
                || (op_label m witness seg i =? LABEL_OUTPUT)
                || (op_label m witness seg i =? LABEL_INPUT_CELL)
                || (op_label m witness seg i =? LABEL_INPUT_CELL_SINCE)
                || (op_label m witness seg i =? LABEL_INPUT_OUTPOINT))
        eqn:Hknown.
      * apply bind_ext; [reflexivity|].
        intros [more c]. destruct more; [now apply IH|reflexivity].
      * apply Bool.orb_false_iff in Hknown as [Hknown H4].
        apply Bool.orb_false_iff in Hknown as [Hknown H3].
        apply Bool.orb_false_iff in Hknown as [Hknown H2].
        apply Bool.orb_false_iff in Hknown as [H0 H1].
        unfold process_component. rewrite H0, H1, H2, H3, H4.
        cbn [orb].
        destruct (op_label m witness seg i =? LABEL_END_OF_LIST);
          reflexivity.
    + cbn [process_sighash_array].
      destruct (i + 3 >? size seg) eqn:G; [reflexivity|lia].
Qed.

Lemma digest_first_witness_stale witness witness_len seg i ctx :
  0 <= ptr seg -> ptr seg + size seg <= zlen witness ->
  SIGNATURE_SIZE < size seg ->
  digest_first_witness m' witness witness_len seg i ctx
  = digest_first_witness m witness witness_len seg i ctx.
Proof.
  intros Hp Hs Hmin. unfold digest_first_witness.
  destruct (Z.eqb_spec (size seg) (i * 3 + SIGNATURE_SIZE)) as [E|_];
    [|reflexivity].
  cbn [negb]. rewrite mem_read_loaded; [reflexivity| |].
  - unfold SIGNATURE_SIZE in *. lia.
  - unfold SIGNATURE_SIZE in *. lia.
Qed.

Lemma main_absorb_stale witness witness_len seg :
  load_first_witness m h = Continue (witness, witness_len, seg) ->
  0 <= ptr seg -> ptr seg + size seg <= zlen witness ->
  reads_stale_memory m (Z.to_nat (size seg)) witness seg 0 = false ->
  main_absorb m' h = main_absorb m h.
Proof.
  intros Hload Hp Hs Hno.
  pose proof (load_first_witness_inv _ _ _ _ _ Hload)
    as (_ & _ & _ & _ & _ & Hmin).
  unfold main_absorb.
  change (load_first_witness m' h) with (load_first_witness m h).
  rewrite Hload. cbv beta iota zeta delta [bind].
  apply bind_ext; [reflexivity|intros g].
  apply bind_ext; [now apply process_sighash_array_stale|].
  intros [i c1].
  apply bind_ext; [now apply digest_first_witness_stale|].
  reflexivity.
Qed.

End Stale.

(** X20. Where the two defects are not exercised, the memory that no load
    wrote does not matter.  When the lock bytes lie within the loaded
    witness and
    none of the ops that the loop processes lies past the loaded witness
    (line 203) or is an [INPUT_OUTPOINT] op that selects the index
    (line 333), a run gives the same message and the same exit code
    whatever the stack held in the witness buffer and behind
    [index_seg]. *)
Theorem stale_memory_irrelevant (m : Machine) (h : Host)
    witness witness_len seg (witness_bytes : Z -> Z)
    (index_bytes : Z -> bytes) :
  load_first_witness m h = Continue (witness, witness_len, seg) ->
  0 <= ptr seg -> ptr seg + size seg <= zlen witness ->
  reads_stale_memory m (Z.to_nat (size seg)) witness seg 0 = false ->
  main_message (with_stale m witness_bytes index_bytes) h = main_message m h
  /\ main (with_stale m witness_bytes index_bytes) h = main m h.
Proof.
  intros Hload Hp Hs Hno.
  assert (E : main_message (with_stale m witness_bytes index_bytes) h
              = main_message m h).
  { unfold main_message.
    rewrite (main_absorb_stale m h witness_bytes index_bytes _ _ _
               Hload Hp Hs Hno).
    reflexivity. }
  split; [exact E|].
  unfold main. rewrite E. reflexivity.
Qed.

Lemma stale_memory_irrelevant_witness :
  main other_stack host_masked_output = Return 0.
Proof.
  destruct (stale_memory_irrelevant ref_machine host_masked_output
              (witness_args ([0x10; 0; 0x7F; 0xF0; 0; 0] ++ ref_signature) [])
              91 {| ptr := 20; size := 71 |}
              (fun _ => 0xF0) (fun _ => 0xDD :: repeat 0xCC 63))
    as [_ Hmain].
  - vm_compute. reflexivity.
  - cbn [ptr]. lia.
  - vm_compute. discriminate.
  - vm_compute. reflexivity.
  - unfold other_stack. rewrite Hmain. vm_compute. reflexivity.
Defined.
